(** * app_use agent: a shallow embedding of the step engine

    The development follows [app_use/agent/service.py] (class [Agent]) and
    [app_use/agent/prompts.py] (class [AgentMessagePrompt]).  Python values
    are modelled as follows:

    - [int] as [Z], [str] as [string], [list] as [list], [None]-able
      attributes as [option];
    - exceptions as the inductive type [exn]; a coroutine or method that can
      raise is a computation in the monad [M], which threads the [World]
      (agent state, settings, transcript, external collaborators) and
      returns either a value or the raised exception;
    - external collaborators (model transport, action executor, app-state
      provider, planner model, hooks) as the interface [External]: each
      call maps the external state to an outcome, a new external state and
      the control requests ([pause], [resume], [stop]) that arrived while the
      coroutine was suspended;
    - every external call is recorded in the [log] of the world, so that
      statements such as "this action never ran" can be stated. *)

From Stdlib Require Import ZArith List String Ascii Bool Lia DecimalString QArith.
From Stdlib Require Import Permutation.
Import ListNotations.
Local Open Scope string_scope.
Local Open Scope Z_scope.

(** ** Python string helpers *)

Module Py.

(** [str(n)] for an [int]. *)
Definition str_int (z : Z) : string := NilZero.string_of_int (Z.to_int z).

(** [sub in s]. *)
Definition contains (sub s : string) : bool :=
  match String.index 0 sub s with
  | Some _ => true
  | None => false
  end.

(** [s.startswith(p)]. *)
Definition startswith (p s : string) : bool := String.prefix p s.

(** [s.endswith(x)]. *)
Definition endswith (x s : string) : bool :=
  (String.length x <=? String.length s)%nat
  && String.eqb (String.substring (String.length s - String.length x)
                                  (String.length x) s) x.

(** Truth value of a string: empty strings are falsy. *)
Definition truthy (s : string) : bool :=
  match s with
  | EmptyString => false
  | String _ _ => true
  end.

(** Truth value of an optional string attribute ([None] and [''] are falsy). *)
Definition truthy_opt (s : option string) : bool :=
  match s with
  | Some t => truthy t
  | None => false
  end.

(** [x or 0] for an optional integer. *)
Definition or_zero (x : option Z) : Z :=
  match x with
  | Some v => if v =? 0 then 0 else v
  | None => 0
  end.

(** [str(x)] for an optional integer attribute, as an f-string prints it. *)
Definition str_opt_int (x : option Z) : string :=
  match x with
  | Some v => str_int v
  | None => "None"
  end.

(** [xs[:n]] for a list and an [int] bound (negative bounds count from the
    end). *)
Definition slice_to {A} (xs : list A) (n : Z) : list A :=
  if n <? 0
  then firstn (Z.to_nat (Z.of_nat (List.length xs) + n)) xs
  else firstn (Z.to_nat n) xs.

End Py.

(** ** prompts.py: [AgentMessagePrompt] *)

Module Prompts.

Section AppState.

(** The element tree is opaque to the agent; only its rendering is used. *)
Variable ElementTree : Type.
Variable interactive_elements_to_string : ElementTree -> list string -> string.

Record AppState := mkAppState {
  element_tree : ElementTree;
  pixels_above : option Z;
  pixels_below : option Z;
  screenshot : option string
}.

Record AgentMessagePrompt := mkPrompt {
  app_state : AppState;
  include_attributes : list string
}.

(** The value of the local [elements_text] when
    [_get_app_state_description] reaches its [return]: the element summary
    with its viewport markers. *)
Definition elements_summary (self : AgentMessagePrompt) : string :=
  let elements_text :=
    interactive_elements_to_string (element_tree (app_state self))
                                   (include_attributes self) in
  let has_content_above := Py.or_zero (pixels_above (app_state self)) >? 0 in
  let has_content_below := Py.or_zero (pixels_below (app_state self)) >? 0 in
  if Py.truthy elements_text then
    let elements_text :=
      if has_content_above
      then "... " ++ Py.str_opt_int (pixels_above (app_state self))
           ++ " pixels above - scroll or extract content to see more ..."
           ++ String "010" elements_text
      else "[Start of page]" ++ String "010" elements_text in
    if has_content_below
    then elements_text ++ String "010" ("... "
         ++ Py.str_opt_int (pixels_below (app_state self))
         ++ " pixels below - scroll or extract content to see more ...")
    else elements_text ++ String "010" "[End of page]"
  else "empty page".

Definition _get_app_state_description (self : AgentMessagePrompt) : string :=
  "Interactive elements from top layer of the current page inside the viewport:"
  ++ String "010" (elements_summary self).

End AppState.

Arguments mkAppState {ElementTree}.
Arguments element_tree {ElementTree}.
Arguments pixels_above {ElementTree}.
Arguments pixels_below {ElementTree}.
Arguments screenshot {ElementTree}.
Arguments mkPrompt {ElementTree}.
Arguments app_state {ElementTree}.
Arguments include_attributes {ElementTree}.
Arguments elements_summary {ElementTree}.
Arguments _get_app_state_description {ElementTree}.

(** The marker that the summary starts with for 120 pixels above. *)
Definition above_marker_120 : string :=
  "... 120 pixels above - scroll or extract content to see more ...".

(** The first line of the description. *)
Definition description_header : string :=
  "Interactive elements from top layer of the current page inside the viewport:".

(** A concrete element tree for examples: the interactive elements, each
    rendered on its own line. *)
Definition lines_tree := list string.

Fixpoint render_lines (t : lines_tree) (attrs : list string) : string :=
  match t with
  | [] => EmptyString
  | [l] => l
  | l :: rest => l ++ String "010" (render_lines rest attrs)
  end.

Definition one_button : AgentMessagePrompt lines_tree :=
  mkPrompt (mkAppState ["[0]<Button>OK</Button>"] (Some 120) (Some 0) None) [].

Definition empty_screen : AgentMessagePrompt lines_tree :=
  mkPrompt (mkAppState [] None None None) [].

End Prompts.

(** ** Exceptions and outcomes *)

(** The exception classes that [service.py] raises, catches or tests for.
    [OtherException] stands for any other subclass of [Exception] raised by
    a collaborator. *)
Inductive exn :=
| InterruptedError (msg : string)
| CancelledError
| KeyboardInterrupt
| ConnectionError (msg : string)
| RuntimeError (msg : string)
| ValueError (msg : string)
| ValidationError (msg : string)
| ZeroDivisionError
| RateLimitError (msg : string)
| LLMException (status_code : Z) (msg : string)
| OtherException (msg : string).

(** [isinstance(e, Exception)]: [asyncio.CancelledError] and
    [KeyboardInterrupt] derive from [BaseException] only. *)
Definition is_Exception (e : exn) : bool :=
  match e with
  | CancelledError | KeyboardInterrupt => false
  | _ => true
  end.

(** [str(e)]. *)
Definition exn_str (e : exn) : string :=
  match e with
  | InterruptedError m | ConnectionError m | RuntimeError m | ValueError m
  | ValidationError m | RateLimitError m | LLMException _ m
  | OtherException m => m
  | CancelledError | KeyboardInterrupt => EmptyString
  | ZeroDivisionError => "integer modulo by zero"
  end.

Inductive Outcome (A : Type) :=
| Return (a : A)
| Raise (e : exn).
Arguments Return {A}.
Arguments Raise {A}.

(** ** service.py: negotiation of the tool-calling method *)

Module ToolCalling.

Inductive ToolCallingMethod :=
| function_calling
| tools
| json_mode
| raw
| auto.

Definition eqb (a b : ToolCallingMethod) : bool :=
  match a, b with
  | function_calling, function_calling | tools, tools
  | json_mode, json_mode | raw, raw | auto, auto => true
  | _, _ => false
  end.

(** The setting is [ToolCallingMethod | None]. *)
Definition setting_eqb (a : option ToolCallingMethod) (b : ToolCallingMethod) : bool :=
  match a with
  | Some m => eqb m b
  | None => false
  end.

Definition method_str (m : option ToolCallingMethod) : string :=
  match m with
  | Some function_calling => "function_calling"
  | Some tools => "tools"
  | Some json_mode => "json_mode"
  | Some raw => "raw"
  | Some auto => "auto"
  | None => "None"
  end.

(** Attributes that the agent stores on the LLM object; the outer [None] of
    [_verified_tool_calling_method] means that the attribute is absent. *)
Record LlmAttrs := mkLlmAttrs {
  _verified_api_keys : option bool;
  _verified_tool_calling_method : option (option ToolCallingMethod)
}.

Definition set_verified_api_keys (b : bool) (l : LlmAttrs) : LlmAttrs :=
  mkLlmAttrs (Some b) (_verified_tool_calling_method l).

Definition set_verified_method (m : option ToolCallingMethod) (l : LlmAttrs) : LlmAttrs :=
  mkLlmAttrs (_verified_api_keys l) (Some m).

(** [getattr(llm, '_verified_api_keys', None) is True]. *)
Definition api_keys_verified (l : LlmAttrs) : bool :=
  match _verified_api_keys l with
  | Some true => true
  | _ => false
  end.

(** Order of preference for tool calling methods. *)
Definition methods_to_try : list ToolCallingMethod :=
  [function_calling; tools; json_mode; raw].

(** One entry of the list returned by
    [asyncio.gather] with [return_exceptions=True]: the [(method, success)]
    tuple of [_test_tool_calling_method_async], or the exception object of a
    task that failed. *)
Inductive TaskResult :=
| TaskTuple (m : ToolCallingMethod) (success : bool)
| TaskException (e : exn).

(** [asyncio.gather]: the tasks complete in some order, each completion
    fills the slot of its task, and the result list is in task order. *)
Fixpoint fill_slot {A} (i : nat) (r : A) (slots : list (option A)) : list (option A) :=
  match slots, i with
  | [], _ => []
  | _ :: rest, O => Some r :: rest
  | s :: rest, S j => s :: fill_slot j r rest
  end.

Definition complete_task {A} (tasks : list A) (run : A -> TaskResult)
    (slots : list (option TaskResult)) (i : nat) : list (option TaskResult) :=
  match nth_error tasks i with
  | Some t => fill_slot i (run t) slots
  | None => slots
  end.

Definition gather {A} (tasks : list A) (run : A -> TaskResult)
    (completion_order : list nat) : list (option TaskResult) :=
  fold_left (complete_task tasks run) completion_order
    (map (fun _ => None) tasks).

Section Negotiation.

(** [_test_tool_calling_method]: the probe returns a boolean and never
    raises (its body is wrapped in [try ... except Exception: return False]). *)
Variable _test_tool_calling_method : option ToolCallingMethod -> bool.

(** A failure of [loop.run_in_executor] for the task of a method, which
    [gather] stores instead of the tuple. *)
Variable executor_fault : ToolCallingMethod -> option exn.

(** The event-loop environment of [_detect_best_tool_calling_method]:
    whether a loop is running, the exception stored by the worker thread,
    the exception raised by [asyncio.run]. *)
Record LoopEnv := mkLoopEnv {
  running_loop : bool;
  thread_error : option exn;
  asyncio_run_error : option exn
}.

Definition _test_tool_calling_method_async (m : ToolCallingMethod) : TaskResult :=
  match executor_fault m with
  | Some e => TaskException e
  | None => TaskTuple m (_test_tool_calling_method (Some m))
  end.

Definition test_all_methods (completion_order : list nat) : list (option TaskResult) :=
  gather methods_to_try _test_tool_calling_method_async completion_order.

(** The inner [try] of the detection: obtain [results] from the worker
    thread or from [asyncio.run]. *)
Definition parallel_results (env : LoopEnv) (completion_order : list nat)
  : Outcome (list (option TaskResult)) :=
  let via_asyncio_run :=
    match asyncio_run_error env with
    | Some e => Raise e
    | None => Return (test_all_methods completion_order)
    end in
  if running_loop env then
    match thread_error env with
    | Some (RuntimeError msg) =>
        if Py.contains "no running event loop" msg
        then via_asyncio_run
        else Raise (RuntimeError msg)
    | Some e => Raise e
    | None => Return (test_all_methods completion_order)
    end
  else via_asyncio_run.

(** Process results in order of preference. *)
Fixpoint first_success (i : nat) (methods : list ToolCallingMethod)
    (results : list (option TaskResult)) : option ToolCallingMethod :=
  match methods with
  | [] => None
  | method :: rest =>
      match nth_error results i with
      | Some (Some (TaskTuple _ true)) => Some method
      | _ => first_success (S i) rest results
      end
  end.

(** Fall back to sequential testing. *)
Fixpoint first_sequential (methods : list ToolCallingMethod) : option ToolCallingMethod :=
  match methods with
  | [] => None
  | method :: rest =>
      if _test_tool_calling_method (Some method) then Some method
      else first_sequential rest
  end.

Definition connection_failed : exn :=
  ConnectionError "Failed to connect to LLM. Please check your API key and network connection.".

Definition adopt (method : ToolCallingMethod) (llm : LlmAttrs) : LlmAttrs :=
  set_verified_method (Some method) (set_verified_api_keys true llm).

(** A probe of the concurrent round is successful when its task returned
    the tuple [(method, True)]. *)
Definition task_succeeded (m : ToolCallingMethod) : bool :=
  match executor_fault m with
  | Some _ => false
  | None => _test_tool_calling_method (Some m)
  end.

(** What detection does with the earliest successful method, if any. *)
Definition chosen (llm : LlmAttrs) (best : option ToolCallingMethod)
  : Outcome ToolCallingMethod * LlmAttrs :=
  match best with
  | Some method => (Return method, adopt method llm)
  | None => (Raise connection_failed, llm)
  end.

Definition _detect_best_tool_calling_method (env : LoopEnv)
    (completion_order : list nat) (llm : LlmAttrs)
  : Outcome ToolCallingMethod * LlmAttrs :=
  match parallel_results env completion_order with
  | Return results =>
      match first_success 0 methods_to_try results with
      | Some method => (Return method, adopt method llm)
      | None => (Raise connection_failed, llm)
      end
  | Raise e =>
      if is_Exception e then
        match first_sequential methods_to_try with
        | Some method => (Return method, adopt method llm)
        | None => (Raise connection_failed, llm)
        end
      else (Raise e, llm)
  end.

(** [_get_known_tool_calling_method], a static table on the class name of
    the LLM and its lower-cased model name. *)
Variable is_model_without_tool_support : string -> bool.

Definition lower_ascii (c : ascii) : ascii :=
  let n := nat_of_ascii c in
  if ((65 <=? n) && (n <=? 90))%nat then ascii_of_nat (n + 32) else c.

Fixpoint lower (s : string) : string :=
  match s with
  | EmptyString => EmptyString
  | String c rest => String (lower_ascii c) (lower rest)
  end.

Definition any_in (patterns : list string) (s : string) : bool :=
  existsb (fun m => Py.contains m s) patterns.

Definition _get_known_tool_calling_method (chat_model_library model_name : string)
  : option ToolCallingMethod :=
  let model_lower := lower model_name in
  if String.eqb chat_model_library "ChatOpenAI" then
    if any_in ["gpt-4"; "gpt-3.5"] model_lower then Some function_calling
    else if any_in ["llama-4"; "llama-3"] model_lower then Some function_calling
    else None
  else if String.eqb chat_model_library "ChatGroq" then
    if any_in ["llama-4"; "llama-3"] model_lower then Some function_calling
    else None
  else if String.eqb chat_model_library "AzureChatOpenAI" then
    if Py.contains "gpt-4-" model_lower then Some tools
    else Some function_calling
  else if String.eqb chat_model_library "ChatGoogleGenerativeAI" then None
  else if String.eqb chat_model_library "ChatAnthropic"
          || String.eqb chat_model_library "AnthropicChat" then
    if any_in ["claude-3"; "claude-2"] model_lower then Some tools
    else None
  else if is_model_without_tool_support model_name then Some raw
  else None.

Definition unsupported (requested : option ToolCallingMethod) : exn :=
  RuntimeError ("Configured tool calling method '" ++ method_str requested
                ++ "' is not supported by the current LLM.").

Definition _set_tool_calling_method
    (requested : option ToolCallingMethod)
    (chat_model_library model_name : string)
    (env : LoopEnv) (completion_order : list nat) (llm : LlmAttrs)
  : Outcome (option ToolCallingMethod) * LlmAttrs :=
  if negb (setting_eqb requested auto) then
    if api_keys_verified llm then
      (Return requested, set_verified_method requested (set_verified_api_keys true llm))
    else if negb (_test_tool_calling_method requested) then
      if setting_eqb requested raw
      then (Raise connection_failed, llm)
      else (Raise (unsupported requested), llm)
    else (Return requested, set_verified_method requested llm)
  else
    match _verified_tool_calling_method llm with
    | Some cached => (Return cached, llm)
    | None =>
        let detect :=
          match _detect_best_tool_calling_method env completion_order llm with
          | (Return m, llm') => (Return (Some m), llm')
          | (Raise e, llm') => (Raise e, llm')
          end in
        match _get_known_tool_calling_method chat_model_library model_name with
        | Some known_method =>
            if api_keys_verified llm then
              (Return (Some known_method), adopt known_method llm)
            else if _test_tool_calling_method (Some known_method) then
              (Return (Some known_method), adopt known_method llm)
            else detect
        | None => detect
        end
    end.

End Negotiation.

End ToolCalling.

(** ** service.py: data of the step engine *)

Inductive PyVal :=
| VNone
| VBool (b : bool)
| VInt (z : Z)
| VStr (s : string).

(** An instance of the dynamic [ActionModel] class.  The class has one
    optional field per registered action ([self.ActionModel.model_fields]);
    [model_fields] are the field names of the instance's class and
    [fields_set] the fields that were given a value, each with its
    parameters: what [model_dump(exclude_unset=True)] returns. *)
Record ActionModel := mkAction {
  model_fields : list string;
  fields_set : list (string * list (string * PyVal))
}.

Fixpoint assoc {A} (key : string) (l : list (string * A)) : option A :=
  match l with
  | [] => None
  | (k, v) :: rest => if String.eqb k key then Some v else assoc key rest
  end.

(** [action.model_dump()]: every field of the class, a field that was not
    set with its default [None]. *)
Definition model_dump (a : ActionModel)
  : list (string * option (list (string * PyVal))) :=
  map (fun name => (name, assoc name (fields_set a))) (model_fields a).

(** [action.model_dump() == {}]. *)
Definition dump_is_empty (a : ActionModel) : bool :=
  match model_dump a with
  | [] => true
  | _ :: _ => false
  end.

Record AgentOutput := mkAgentOutput {
  thinking : option string;
  evaluation_previous_goal : string;
  memory : string;
  next_goal : string;
  action : list ActionModel
}.

Definition set_action (acts : list ActionModel) (o : AgentOutput) : AgentOutput :=
  mkAgentOutput (thinking o) (evaluation_previous_goal o) (memory o) (next_goal o) acts.

Record ActionResult := mkActionResult {
  is_done : bool;
  success : option bool;
  extracted_content : option string;
  error : option string
}.

(** [ActionResult(error=msg)]. *)
Definition error_result (msg : string) : ActionResult :=
  mkActionResult false None None (Some msg).

Inductive BaseMessage :=
| SystemMessage (content : string)
| HumanMessage (content : string)
| AIMessage (content : string).

(** What a message is constructed from in this program: a text, or by
    mistake another message object. *)
Inductive MessageArgument :=
| TextArgument (text : string)
| ObjectArgument (m : BaseMessage).

(** [SystemMessage(content=...)] of the message library: the content is
    validated as a string (or a list of strings and dicts); a message
    object is refused with a [ValidationError], whose text is not modelled
    further. *)
Definition new_SystemMessage (c : MessageArgument) : Outcome BaseMessage :=
  match c with
  | TextArgument text => Return (SystemMessage text)
  | ObjectArgument _ =>
      Raise (ValidationError "content: Input should be a valid string")
  end.

Definition dquote : string := String "034" EmptyString.

(** ** prompts.py: [PlannerPrompt] *)

Module PlannerPrompts.

Record PlannerPrompt := mkPlannerPrompt {
  available_actions : string;
  original_task : string;
  current_step : Z;
  is_reasoning : bool;
  extend_prompt : option string
}.

Definition newline : string := String "010" EmptyString.

Definition quoted (s : string) : string := dquote ++ s ++ dquote.

(** A line of the JSON object that the prompt describes. *)
Definition json_field (name description : string) (last : bool) : string :=
  "    " ++ quoted name ++ ": " ++ quoted description
  ++ (if last then EmptyString else ",") ++ newline.

Definition planner_prompt_text (self : PlannerPrompt) : string :=
  newline
  ++ "You are a planning agent that helps break down tasks into smaller steps when interacting with **mobile** apps."
  ++ newline ++ newline
  ++ "Original task: " ++ original_task self ++ newline
  ++ "Current step: " ++ Py.str_int (current_step self) ++ newline
  ++ newline
  ++ "Your role is to:" ++ newline
  ++ "1. Analyse the current state and history" ++ newline
  ++ "2. Evaluate progress towards the ultimate goal" ++ newline
  ++ "3. Identify potential challenges or roadblocks" ++ newline
  ++ "4. Suggest the next high-level steps to take" ++ newline
  ++ newline
  ++ "Available actions for the main agent:" ++ newline
  ++ available_actions self ++ newline
  ++ newline
  ++ "Respond strictly as a JSON object with the following fields:" ++ newline
  ++ "{" ++ newline
  ++ json_field "state_analysis"
       "Brief analysis of the current state and what has been done so far" false
  ++ json_field "progress_evaluation"
       "Evaluation of progress towards the ultimate goal (percentage + short description)" false
  ++ json_field "challenges" "List any potential challenges or roadblocks" false
  ++ json_field "next_steps" "List 2-3 concrete next steps to take" false
  ++ json_field "reasoning" "Explain your reasoning for the suggested next steps" true
  ++ "}" ++ newline.

(** [get_system_message()] without arguments: the flags of the instance
    decide.  The result is a message object, not a text. *)
Definition get_system_message (self : PlannerPrompt) : BaseMessage :=
  let planner_prompt_text :=
    match extend_prompt self with
    | Some extended =>
        if Py.truthy extended
        then planner_prompt_text self ++ newline ++ extended
        else planner_prompt_text self
    | None => planner_prompt_text self
    end in
  if is_reasoning self
  then HumanMessage planner_prompt_text
  else SystemMessage planner_prompt_text.

End PlannerPrompts.

Record AgentStepInfo := mkStepInfo {
  step_number : Z;
  max_steps : Z
}.

Record StepMetadata := mkStepMetadata {
  meta_step_number : Z;
  input_tokens : Z
}.

Record AgentSettings := mkSettings {
  use_vision : bool;
  save_conversation_path : option string;
  max_failures : Z;
  retry_delay : Z;
  max_input_tokens : Z;
  max_actions_per_step : Z;
  planner_llm : bool;
  planner_interval : Z;
  is_planner_reasoning : bool;
  memory_interval : option Z;
  generate_gif : bool;
  extend_planner_system_prompt : option string
}.

Definition set_max_input_tokens (v : Z) (s : AgentSettings) : AgentSettings :=
  mkSettings (use_vision s) (save_conversation_path s) (max_failures s)
    (retry_delay s) v (max_actions_per_step s) (planner_llm s)
    (planner_interval s) (is_planner_reasoning s) (memory_interval s)
    (generate_gif s) (extend_planner_system_prompt s).

(** Requests that reach the agent from outside while a call is pending:
    [Agent.pause], [Agent.resume], [Agent.stop]. *)
Inductive Control :=
| CtlPause
| CtlResume
| CtlStop.

(** What one external call does: it returns or raises, and control requests
    may have arrived meanwhile. *)
Record Reply (A : Type) := mkReply {
  outcome : Outcome A;
  controls : list Control
}.
Arguments mkReply {A}.
Arguments outcome {A}.
Arguments controls {A}.

Inductive Hook :=
| on_step_start
| on_step_end.

(** Calls that leave the agent, in the order in which they are made. *)
Inductive Event :=
| EvLogStep (n : Z)
| EvGetAppState
| EvMemory (n : Z)
| EvPlanner (n : Z)
| EvLlm (input_messages : list BaseMessage)
| EvSaveConversation (target : string)
| EvAct (a : ActionModel)
| EvSleep (seconds : Q)
| EvHook (h : Hook)
| EvClose
| EvGif.

(** The collaborators of the agent and what it was created with.  [E] is
    the state of the collaborators; [AppState] and [AppStateHistory] are the
    snapshot types of the app. *)
Class External := {
  E : Type;
  AppState : Type;
  AppStateHistory : Type;
  (** [self.task] *)
  task : string;
  (** [self.unfiltered_actions], the prompt description of the registry *)
  unfiltered_actions : string;
  (** the actions of the controller's registry, which are the fields of the
      class that [create_action_model()] returns *)
  registry_actions : list string;
  (** [self.app.get_app_state()] *)
  get_app_state : E -> Reply AppState * E;
  (** [AppStateHistory.from_app_state] *)
  from_app_state : AppState -> AppStateHistory;
  (** [self.memory.create_procedural_memory(n_steps)] *)
  create_procedural_memory : Z -> E -> Reply unit * E;
  (** the planner model, [planner_llm.ainvoke(messages)], with the content of
      its response *)
  planner_ainvoke : Z -> E -> Reply string * E;
  (** the transport and parsing part of [get_next_action]: the value of
      [parsed] before truncation, or the exception that leaves the method;
      the flag tells whether the action schema is restricted to [done] *)
  llm_parsed : list BaseMessage -> bool -> E -> Reply AgentOutput * E;
  (** [save_conversation(input_messages, model_output, target, encoding)] *)
  save_conversation : string -> E -> Reply unit * E;
  (** [self.controller.act(action, self.app, context=self.context)] *)
  controller_act : ActionModel -> E -> Reply ActionResult * E;
  (** [asyncio.sleep(seconds)] *)
  asyncio_sleep : Q -> E -> Reply unit * E;
  (** the caller's hooks of [run] *)
  run_hook : Hook -> E -> Reply unit * E;
  (** [self.app.close()] and [gc.collect()] *)
  app_close : E -> Reply unit * E;
  (** [create_history_gif] *)
  create_history_gif : E -> Reply unit * E;
  (** [AgentError.format_error(error, include_trace=...)] *)
  format_error : exn -> string;
  (** the text of the state message that [add_state_message] renders *)
  state_message_content :
    AppState -> option AgentOutput -> option (list ActionResult) ->
    option AgentStepInfo -> bool -> string;
  (** the text of the assistant turn that [add_model_output] commits *)
  model_output_content : AgentOutput -> string;
  (** the token estimate of a message *)
  count_tokens : BaseMessage -> Z
}.

Section Engine.

Context {X : External}.

Record AgentHistory := mkAgentHistory {
  h_model_output : option AgentOutput;
  h_result : list ActionResult;
  h_state : AppStateHistory;
  h_metadata : option StepMetadata
}.

Record AgentState := mkAgentState {
  n_steps : Z;
  consecutive_failures : Z;
  paused : bool;
  stopped : bool;
  last_result : option (list ActionResult);
  last_model_output : option AgentOutput;
  history : list AgentHistory
}.

Definition set_n_steps (v : Z) (s : AgentState) : AgentState :=
  mkAgentState v (consecutive_failures s) (paused s) (stopped s)
    (last_result s) (last_model_output s) (history s).

Definition set_consecutive_failures (v : Z) (s : AgentState) : AgentState :=
  mkAgentState (n_steps s) v (paused s) (stopped s)
    (last_result s) (last_model_output s) (history s).

Definition set_paused (v : bool) (s : AgentState) : AgentState :=
  mkAgentState (n_steps s) (consecutive_failures s) v (stopped s)
    (last_result s) (last_model_output s) (history s).

Definition set_stopped (v : bool) (s : AgentState) : AgentState :=
  mkAgentState (n_steps s) (consecutive_failures s) (paused s) v
    (last_result s) (last_model_output s) (history s).

Definition set_last_result (v : list ActionResult) (s : AgentState) : AgentState :=
  mkAgentState (n_steps s) (consecutive_failures s) (paused s) (stopped s)
    (Some v) (last_model_output s) (history s).

Definition set_last_model_output (v : AgentOutput) (s : AgentState) : AgentState :=
  mkAgentState (n_steps s) (consecutive_failures s) (paused s) (stopped s)
    (last_result s) (Some v) (history s).

Definition append_history (h : AgentHistory) (s : AgentState) : AgentState :=
  mkAgentState (n_steps s) (consecutive_failures s) (paused s) (stopped s)
    (last_result s) (last_model_output s) (history s ++ [h])%list.

(** An entry of the transcript; [ephemeral] marks the staged state message. *)
Record ManagedMessage := mkManaged {
  message : BaseMessage;
  ephemeral : bool
}.

Record MessageManager := mkMessageManager {
  system_message : BaseMessage;
  messages : list ManagedMessage;
  current_tokens : Z
}.

(** The local variables of a running [step] call that its handlers and its
    [finally] block read. *)
Record StepFrame := mkFrame {
  f_model_output : option AgentOutput;
  f_result : list ActionResult;
  f_tokens : Z;
  f_app_state : option AppStateHistory
}.

Definition empty_frame : StepFrame := mkFrame None [] 0 None.

Record World := mkWorld {
  state : AgentState;
  settings : AgentSettings;
  _message_manager : MessageManager;
  (** whether [self.ActionModel] has been restricted to the [done] action *)
  done_only : bool;
  frame : StepFrame;
  ext : E;
  log : list Event
}.

Definition with_state (f : AgentState -> AgentState) (w : World) : World :=
  mkWorld (f (state w)) (settings w) (_message_manager w) (done_only w)
    (frame w) (ext w) (log w).

Definition with_settings (f : AgentSettings -> AgentSettings) (w : World) : World :=
  mkWorld (state w) (f (settings w)) (_message_manager w) (done_only w)
    (frame w) (ext w) (log w).

Definition with_manager (f : MessageManager -> MessageManager) (w : World) : World :=
  mkWorld (state w) (settings w) (f (_message_manager w)) (done_only w)
    (frame w) (ext w) (log w).

Definition with_done_only (b : bool) (w : World) : World :=
  mkWorld (state w) (settings w) (_message_manager w) b
    (frame w) (ext w) (log w).

Definition with_frame (f : StepFrame -> StepFrame) (w : World) : World :=
  mkWorld (state w) (settings w) (_message_manager w) (done_only w)
    (f (frame w)) (ext w) (log w).

Definition with_ext (e : E) (w : World) : World :=
  mkWorld (state w) (settings w) (_message_manager w) (done_only w)
    (frame w) e (log w).

Definition with_event (ev : Event) (w : World) : World :=
  mkWorld (state w) (settings w) (_message_manager w) (done_only w)
    (frame w) (ext w) (log w ++ [ev])%list.

(** ** The monad of agent methods *)

Definition M (A : Type) : Type := World -> Outcome A * World.

Definition ret {A} (a : A) : M A := fun w => (Return a, w).

Definition raise {A} (e : exn) : M A := fun w => (Raise e, w).

Definition bind {A B} (c : M A) (k : A -> M B) : M B :=
  fun w =>
    match c w with
    | (Return a, w') => k a w'
    | (Raise e, w') => (Raise e, w')
    end.

(** [try: c except ...: handler]; the handler decides by the exception and
    re-raises what it does not catch. *)
Definition try_except {A} (c : M A) (handler : exn -> M A) : M A :=
  fun w =>
    match c w with
    | (Return a, w') => (Return a, w')
    | (Raise e, w') => handler e w'
    end.

Definition get {A} (f : World -> A) : M A := fun w => (Return (f w), w).

(** The outcome of a computation that does not touch the agent. *)
Definition of_outcome {A} (o : Outcome A) : M A := fun w => (o, w).

Definition modify (f : World -> World) : M unit := fun w => (Return tt, f w).

End Engine.

Declare Scope agent_scope.
Delimit Scope agent_scope with agent.
Notation "x <- c1 ;; c2" := (bind c1 (fun x => c2))
  (at level 61, c1 at next level, right associativity) : agent_scope.
Notation "c1 ;; c2" := (bind c1 (fun _ => c2))
  (at level 61, right associativity) : agent_scope.
Local Open Scope agent_scope.

Section Methods.

Context {X : External}.

(** ** Control requests: [pause], [resume], [stop] *)

Definition pause (s : AgentState) : AgentState := set_paused true s.

Definition resume (s : AgentState) : AgentState := set_paused false s.

Definition stop (s : AgentState) : AgentState := set_stopped true s.

Definition deliver (s : AgentState) (c : Control) : AgentState :=
  match c with
  | CtlPause => pause s
  | CtlResume => resume s
  | CtlStop => stop s
  end.

(** A call to a collaborator: the event is logged, the collaborator runs on
    the external state, and the control requests that arrived are applied. *)
Definition call {A} (ev : Event) (f : E -> Reply A * E) : M A :=
  fun w =>
    let '(r, e') := f (ext w) in
    (outcome r,
     with_state (fun s => fold_left deliver (controls r) s)
                (with_ext e' (with_event ev w))).

(** [x % y] on integers. *)
Definition py_mod (x y : Z) : M Z :=
  if y =? 0 then raise ZeroDivisionError else ret (x mod y).

Definition _raise_if_stopped_or_paused : M unit :=
  fun w =>
    if stopped (state w) || paused (state w)
    then (Raise (InterruptedError EmptyString), w)
    else (Return tt, w).

(** ** The message manager *)

(** [list.insert(position, x)]. *)
Definition py_insert {A} (position : Z) (x : A) (l : list A) : list A :=
  let len := Z.of_nat (List.length l) in
  let i := if position <? 0 then Z.max 0 (len + position) else Z.min len position in
  (firstn (Z.to_nat i) l ++ x :: skipn (Z.to_nat i) l)%list.

(** Modelled from the spec: [MessageManager._add_message_with_tokens], which
    is not part of the sources at hand; it appends a message to the
    transcript (or inserts it at [position]) and adds its token estimate. *)
Definition _add_message_with_tokens (msg : ManagedMessage) (position : option Z) : M unit :=
  modify (with_manager (fun mm =>
    mkMessageManager (system_message mm)
      match position with
      | None => (messages mm ++ [msg])%list
      | Some p => py_insert p msg (messages mm)
      end
      (current_tokens mm + count_tokens (message msg)))).

(** Modelled from the spec: [MessageManager.add_state_message], which is not
    part of the sources at hand; it stages one ephemeral Human message
    rendered from the snapshot, the last output and result and the step
    information. *)
Definition add_state_message (app_state : AppState)
    (step_info : option AgentStepInfo) : M unit :=
  model_output <- get (fun w => last_model_output (state w)) ;;
  result <- get (fun w => last_result (state w)) ;;
  vision <- get (fun w => use_vision (settings w)) ;;
  _add_message_with_tokens
    (mkManaged
       (HumanMessage (state_message_content app_state model_output result step_info vision))
       true)
    None.

Fixpoint drop_first_ephemeral (l : list ManagedMessage)
  : option ManagedMessage * list ManagedMessage :=
  match l with
  | [] => (None, [])
  | m :: rest =>
      if ephemeral m then (Some m, rest)
      else let '(r, rest') := drop_first_ephemeral rest in (r, m :: rest')
  end.

(** Modelled from the spec: [MessageManager._remove_last_state_message],
    which is not part of the sources at hand; it pops the most recently
    staged ephemeral message. *)
Definition _remove_last_state_message : M unit :=
  modify (with_manager (fun mm =>
    match drop_first_ephemeral (rev (messages mm)) with
    | (Some m, rest) =>
        mkMessageManager (system_message mm) (rev rest)
          (current_tokens mm - count_tokens (message m))
    | (None, _) => mm
    end)).

(** Modelled from the spec: [MessageManager.add_model_output], which is not
    part of the sources at hand; it commits the parsed output as an
    assistant turn. *)
Definition add_model_output (output : AgentOutput) : M unit :=
  _add_message_with_tokens (mkManaged (AIMessage (model_output_content output)) false) None.

(** Modelled from the spec: [MessageManager.add_plan], which is not part of
    the sources at hand; it inserts planner guidance at an offset from the
    end ([-1] is immediately before the last message).  Without a plan
    there is no guidance to insert. *)
Definition add_plan (plan : option string) (position : Z) : M unit :=
  match plan with
  | Some text =>
      if Py.truthy text
      then _add_message_with_tokens (mkManaged (AIMessage text) false) (Some position)
      else ret tt
  | None => ret tt
  end.

(** Modelled from the spec: [MessageManager.get_messages], which is not part
    of the sources at hand; it returns the system message and the
    transcript and leaves the stored state alone. *)
Definition get_messages : M (list BaseMessage) :=
  get (fun w => system_message (_message_manager w)
                :: map message (messages (_message_manager w))).

(** ** [Agent._run_planner]

    The method has no [return] with a value: its result is [None] on every
    path.  The system prompt of the planner is built first:
    [PlannerPrompt(...).get_system_message()] is a message object, and it is
    handed to [SystemMessage(content=...)] inside the [try] of the method.
    The progress message that follows is left out; the call of the planner
    is identified by the step number. *)
Definition _run_planner : M (option string) :=
  configured <- get (fun w => planner_llm (settings w)) ;;
  if negb configured then ret None
  else
    n <- get (fun w => n_steps (state w)) ;;
    interval <- get (fun w => planner_interval (settings w)) ;;
    r <- py_mod n interval ;;
    if negb (r =? 0) then ret None
    else
      try_except
        (app_state <- call EvGetAppState get_app_state ;;
         reasoning <- get (fun w => is_planner_reasoning (settings w)) ;;
         extend <- get (fun w => extend_planner_system_prompt (settings w)) ;;
         let system_prompt :=
           PlannerPrompts.get_system_message
             (PlannerPrompts.mkPlannerPrompt unfiltered_actions task n
                reasoning extend) in
         system_message <- of_outcome (new_SystemMessage (ObjectArgument system_prompt)) ;;
         if reasoning then
           planner_output <- call (EvPlanner n) (planner_ainvoke n) ;;
           _add_message_with_tokens
             (mkManaged
                (HumanMessage ("Strategic guidance from planner: " ++ planner_output))
                false)
             None ;;
           ret None
         else
           planner_output <- call (EvPlanner n) (planner_ainvoke n) ;;
           ret None)
        (fun e => if is_Exception e then ret None else raise e).

(** ** [Agent.get_next_action] *)

(** cut the number of actions to max_actions_per_step if needed *)
Definition cut_actions (max_actions : Z) (parsed : AgentOutput) : AgentOutput :=
  if Z.of_nat (List.length (action parsed)) >? max_actions
  then set_action (Py.slice_to (action parsed) max_actions) parsed
  else parsed.

Definition get_next_action (input_messages : list BaseMessage) : M AgentOutput :=
  restricted <- get done_only ;;
  parsed <- call (EvLlm input_messages) (llm_parsed input_messages restricted) ;;
  max_actions <- get (fun w => max_actions_per_step (settings w)) ;;
  ret (cut_actions max_actions parsed).

(** ** [Agent.multi_act] *)

(** One round of the loop ends in [break] or goes on to the next action. *)
Inductive LoopStep (A : Type) :=
| Break (a : A)
| Continue (a : A).
Arguments Break {A}.
Arguments Continue {A}.

Definition action_delay : Q := Qmake 1 2.

Definition multi_act_round (i len : nat) (action : ActionModel)
    (results : list ActionResult) : M (LoopStep (list ActionResult)) :=
  try_except
    (_raise_if_stopped_or_paused ;;
     result <- call (EvAct action) (controller_act action) ;;
     let results := (results ++ [result])%list in
     if is_done result || Py.truthy_opt (error result) || Nat.eqb i (len - 1)
     then ret (Break results)
     else
       call (EvSleep action_delay) (asyncio_sleep action_delay) ;;
       ret (Continue results))
    (fun e =>
       match e with
       | CancelledError => raise (InterruptedError "Action cancelled by user")
       | _ => raise e
       end).

Fixpoint multi_act_from (i len : nat) (actions : list ActionModel)
    (results : list ActionResult) : M (list ActionResult) :=
  match actions with
  | [] => ret results
  | action :: rest =>
      r <- multi_act_round i len action results ;;
      match r with
      | Break results => ret results
      | Continue results => multi_act_from (S i) len rest results
      end
  end.

Definition multi_act (actions : list ActionModel) : M (list ActionResult) :=
  multi_act_from 0 (List.length actions) actions [].

(** ** [Agent._handle_step_error] *)

Definition _handle_step_error (error : exn) : M (list ActionResult) :=
  let error_msg := format_error error in
  modify (with_state (fun s =>
    set_consecutive_failures (consecutive_failures s + 1) s)) ;;
  match error with
  | ValidationError _ | ValueError _ =>
      if Py.contains "Max token limit reached" error_msg then
        modify (with_settings (fun s =>
          set_max_input_tokens (max_input_tokens s - 500) s)) ;;
        ret [error_result error_msg]
      else if Py.contains "Could not parse response" error_msg then
        ret [error_result
               (error_msg ++ String "010" (String "010"
                  "Return a valid JSON object with the required fields."))]
      else ret [error_result error_msg]
  | RateLimitError _ =>
      delay <- get (fun w => retry_delay (settings w)) ;;
      call (EvSleep (inject_Z delay)) (asyncio_sleep (inject_Z delay)) ;;
      ret [error_result error_msg]
  | _ => ret [error_result error_msg]
  end.

(** ** [Agent.step] *)

Definition clarification_message : BaseMessage :=
  HumanMessage "You forgot to return an action. Please respond only with a valid JSON action according to the expected format.".

(** Modelled from the spec: the class [self.ActionModel], which the
    controller's registry builds and which is not part of the sources at
    hand; its fields are the actions of the registry, or [done] alone once
    the last step has restricted the schema with
    [create_action_model(include_actions=['done'])]. *)
Definition action_model_fields (w : World) : list string :=
  if done_only w then ["done"] else registry_actions.

(** [self.ActionModel(done={'success': False, 'text': ...})] *)
Definition noop_done (fields : list string) : ActionModel :=
  mkAction fields
    [("done", [("success", VBool false);
               ("text", VStr "No next action returned by LLM!")])].

Definition last_step_message : BaseMessage :=
  HumanMessage
    ("Now comes your last step. Use only the " ++ dquote ++ "done" ++ dquote
     ++ " action now. No other actions - so here your action sequence must have length 1."
     ++ String "010" ("If the task is not yet fully finished as requested by the user, set success in "
     ++ dquote ++ "done" ++ dquote ++ " to false!")
     ++ String "010" ("If the task is fully finished, set success in "
     ++ dquote ++ "done" ++ dquote ++ " to true.")
     ++ String "010" "Include everything you found out for the ultimate task in the done text.").

(** [not model_output.action or all(action.model_dump() == {} ...)]; the
    test [isinstance(model_output.action, list)] of the first check holds by
    the type of the attribute. *)
Definition no_action (model_output : AgentOutput) : bool :=
  match action model_output with
  | [] => true
  | _ :: _ => forallb dump_is_empty (action model_output)
  end.

(** Modelled from the spec: [AgentStepInfo.is_last_step], which is not part
    of the sources at hand; the final step of a run of [max_steps] steps. *)
Definition is_last_step (info : AgentStepInfo) : bool :=
  step_number info >=? max_steps info - 1.

Definition set_frame_output (o : AgentOutput) : M unit :=
  modify (with_frame (fun f =>
    mkFrame (Some o) (f_result f) (f_tokens f) (f_app_state f))).

Definition set_frame_result (r : list ActionResult) : M unit :=
  modify (with_frame (fun f =>
    mkFrame (f_model_output f) r (f_tokens f) (f_app_state f))).

Definition set_frame_tokens (t : Z) : M unit :=
  modify (with_frame (fun f =>
    mkFrame (f_model_output f) (f_result f) t (f_app_state f))).

Definition set_frame_app_state (a : AppStateHistory) : M unit :=
  modify (with_frame (fun f =>
    mkFrame (f_model_output f) (f_result f) (f_tokens f) (Some a))).

(** The first part of the inner [try]: the model call and the retry on an
    empty action list. *)
Definition query_model (input_messages : list BaseMessage) : M AgentOutput :=
  model_output <- get_next_action input_messages ;;
  set_frame_output model_output ;;
  if no_action model_output then
    let retry_messages := (input_messages ++ [clarification_message])%list in
    model_output <- get_next_action retry_messages ;;
    set_frame_output model_output ;;
    if no_action model_output then
      fields <- get action_model_fields ;;
      let model_output := set_action [noop_done fields] model_output in
      set_frame_output model_output ;;
      ret model_output
    else ret model_output
  else ret model_output.

(** The end of the inner [try], after the step counter: the saved
    conversation and the transcript. *)
Definition save_and_commit (model_output : AgentOutput) : M unit :=
  path <- get (fun w => save_conversation_path (settings w)) ;;
  match path with
  | Some prefix =>
      n <- get (fun w => n_steps (state w)) ;;
      let target := prefix ++ "_" ++ Py.str_int n ++ ".txt" in
      if Py.truthy prefix
      then call (EvSaveConversation target) (save_conversation target)
      else ret tt
  | None => ret tt
  end ;;
  _remove_last_state_message ;;
  add_model_output model_output.

(** The second part of the inner [try]: the check for a pause, the step
    counter and the commit. *)
Definition commit_model_output (model_output : AgentOutput) : M unit :=
  _raise_if_stopped_or_paused ;;
  modify (with_state (fun s => set_n_steps (n_steps s + 1) s)) ;;
  save_and_commit model_output.

(** The body of the inner [try]. *)
Definition model_call (input_messages : list BaseMessage) : M AgentOutput :=
  model_output <- query_model input_messages ;;
  commit_model_output model_output ;;
  ret model_output.

(** The handlers of the inner [try]: each removes the state message and
    raises again. *)
Definition model_call_handlers (e : exn) : M AgentOutput :=
  match e with
  | CancelledError =>
      _remove_last_state_message ;;
      raise (InterruptedError "Model query cancelled by user")
  | InterruptedError _ =>
      _remove_last_state_message ;;
      raise e
  | _ =>
      if is_Exception e
      then _remove_last_state_message ;; raise e
      else raise e
  end.

(** The inner [try] with its three handlers. *)
Definition guarded_model_call (input_messages : list BaseMessage) : M AgentOutput :=
  try_except (model_call input_messages) model_call_handlers.

(** The outer [try] up to the model call: the snapshot, the memory, the
    state message, the planner and the last-step directive; the result is
    [input_messages]. *)
Definition stage_state (step_info : option AgentStepInfo) : M (list BaseMessage) :=
  original_app_state <- call EvGetAppState get_app_state ;;
  set_frame_app_state (from_app_state original_app_state) ;;
  n <- get (fun w => n_steps (state w)) ;;
  interval <- get (fun w => memory_interval (settings w)) ;;
  match interval with
  | Some k =>
      r <- py_mod n k ;;
      if r =? 0 then call (EvMemory n) (create_procedural_memory n) else ret tt
  | None => ret tt
  end ;;
  _raise_if_stopped_or_paused ;;
  add_state_message original_app_state step_info ;;
  configured <- get (fun w => planner_llm (settings w)) ;;
  (if configured then
     n <- get (fun w => n_steps (state w)) ;;
     k <- get (fun w => planner_interval (settings w)) ;;
     r <- py_mod n k ;;
     if r =? 0 then
       plan <- _run_planner ;;
       add_plan plan (-1)
     else ret tt
   else ret tt) ;;
  match step_info with
  | Some info =>
      if is_last_step info then
        _add_message_with_tokens (mkManaged last_step_message false) None ;;
        modify (with_done_only true)
      else ret tt
  | None => ret tt
  end ;;
  input_messages <- get_messages ;;
  tokens <- get (fun w => current_tokens (_message_manager w)) ;;
  set_frame_tokens tokens ;;
  ret input_messages.

(** The end of the outer [try]: the actions are executed and the outcome is
    recorded. *)
Definition act_and_record (model_output : AgentOutput) : M unit :=
  result <- multi_act (action model_output) ;;
  set_frame_result result ;;
  modify (with_state (set_last_result result)) ;;
  modify (with_state (set_last_model_output model_output)) ;;
  modify (with_state (set_consecutive_failures 0)).

(** The body of the outer [try]. *)
Definition step_body (step_info : option AgentStepInfo) : M unit :=
  input_messages <- stage_state step_info ;;
  model_output <- guarded_model_call input_messages ;;
  act_and_record model_output.

(** The handlers of the outer [try]. *)
Definition step_handlers (e : exn) : M unit :=
  match e with
  | InterruptedError _ =>
      modify (with_state (set_last_result
        [error_result "The agent was paused mid-step - the last action might need to be repeated"]))
  | CancelledError =>
      modify (with_state (set_last_result
        [error_result "The agent was paused with Ctrl+C"])) ;;
      raise (InterruptedError "Step cancelled by user")
  | _ =>
      if is_Exception e then
        result <- _handle_step_error e ;;
        set_frame_result result ;;
        modify (with_state (set_last_result result))
      else raise e
  end.

Definition _make_history_item (model_output : option AgentOutput)
    (app_state : AppStateHistory) (result : list ActionResult)
    (metadata : option StepMetadata) (w : World) : World :=
  with_state (append_history (mkAgentHistory model_output result app_state metadata)) w.

(** The start of [step]: the step is logged and the locals are
    initialised. *)
Definition begin_step (w : World) : World :=
  with_frame (fun _ => empty_frame)
    (with_event (EvLogStep (n_steps (state w))) w).

(** [step]: the [finally] block returns when [result] is empty, which also
    discards an exception that is on its way out. *)
Definition step (step_info : option AgentStepInfo) : M unit :=
  fun w =>
    let '(o, w1) := try_except (step_body step_info) step_handlers (begin_step w) in
    match f_result (frame w1) with
    | [] => (Return tt, w1)
    | result =>
        match f_app_state (frame w1) with
        | Some app_state =>
            let metadata :=
              mkStepMetadata (n_steps (state w1)) (f_tokens (frame w1)) in
            (o, _make_history_item (f_model_output (frame w1)) app_state
                  result (Some metadata) w1)
        | None => (o, w1)
        end
    end.

End Methods.

Arguments Break {A}.
Arguments Continue {A}.

Section Run.

Context {X : External}.

(** Modelled from the spec: [AgentHistoryList.is_done], which is not part of
    the sources at hand; true if the last entry's last [ActionResult] has
    [is_done]. *)
Definition history_is_done (h : list AgentHistory) : bool :=
  match rev h with
  | [] => false
  | entry :: _ =>
      match rev (h_result entry) with
      | [] => false
      | r :: _ => is_done r
      end
  end.

(** An action result that ends the batch. *)
Definition stops (r : ActionResult) : bool :=
  is_done r || Py.truthy_opt (error r).

(** The partial-batch rule in the words of the specification, for a run
    that nothing interrupts: actions execute in order; execution stops at
    the first action whose result reports [is_done] or an error, or that is
    the last of the batch; a fixed delay separates successive executions.
    [partial_batch actions e results events e'] relates the batch and the
    external state to the results, the calls made and the external state
    reached. *)
Inductive partial_batch
  : list ActionModel -> E -> list ActionResult -> list Event -> E -> Prop :=
| batch_empty e :
    partial_batch [] e [] [] e
| batch_stop a rest e r e' :
    controller_act a e = (mkReply (Return r) [], e') ->
    stops r = true \/ rest = [] ->
    partial_batch (a :: rest) e [r] [EvAct a] e'
| batch_next a rest e r e1 e2 results events e3 :
    controller_act a e = (mkReply (Return r) [], e1) ->
    stops r = false ->
    rest <> [] ->
    asyncio_sleep action_delay e1 = (mkReply (Return tt) [], e2) ->
    partial_batch rest e2 results events e3 ->
    partial_batch (a :: rest) e (r :: results)
      (EvAct a :: EvSleep action_delay :: events) e3.

(** The actions that were handed to the executor, in the order of the
    calls. *)
Fixpoint executed_actions (events : list Event) : list ActionModel :=
  match events with
  | [] => []
  | EvAct a :: rest => a :: executed_actions rest
  | _ :: rest => executed_actions rest
  end.

Definition poll_interval : Q := Qmake 1 5.

(** A computation that may also fail to return: [None] when the fuel is
    used up. *)
Definition MF (A : Type) : Type := World -> option (Outcome A * World).

(** [while self.state.paused: await asyncio.sleep(0.2); if stopped: break];
    the result is the value of [agent_run_error] after the loop. *)
Fixpoint wait_while_paused (fuel : nat) (agent_run_error : option string)
  : MF (option string) :=
  fun w =>
    if paused (state w) then
      match fuel with
      | O => None
      | S fuel' =>
          match call (EvSleep poll_interval) (asyncio_sleep poll_interval) w with
          | (Raise e, w') => Some (Raise e, w')
          | (Return _, w') =>
              if stopped (state w')
              then Some (Return (Some "Agent stopped programmatically while paused"), w')
              else wait_while_paused fuel' agent_run_error w'
          end
      end
    else Some (Return agent_run_error, w).

Definition maybe_hook (present : bool) (h : Hook) : M unit :=
  if present then call (EvHook h) (run_hook h) else ret tt.

Definition too_many_failures (w : World) : bool :=
  consecutive_failures (state w) >=? max_failures (settings w).

Definition failures_message (w : World) : string :=
  "Stopped due to " ++ Py.str_int (max_failures (settings w)) ++ " consecutive failures".

(** One round of the loop of [run] after its checks: the hooks around the
    step. *)
Definition run_iteration (max_steps : Z) (step_index : nat)
    (start_hook end_hook : bool) : M unit :=
  let step_info := mkStepInfo (Z.of_nat step_index) max_steps in
  maybe_hook start_hook on_step_start ;;
  step (Some step_info) ;;
  maybe_hook end_hook on_step_end.

(** [for step in range(max_steps): ... else: ...]; the result is the value
    of [agent_run_error] when the loop is left. *)
Fixpoint run_loop (fuel : nat) (max_steps : Z) (steps : list nat)
    (start_hook end_hook : bool) (agent_run_error : option string)
  : MF (option string) :=
  fun w =>
    match steps with
    | [] => Some (Return (Some "Failed to complete task in maximum steps"), w)
    | step_index :: rest =>
        if too_many_failures w then Some (Return (Some (failures_message w)), w)
        else if stopped (state w)
        then Some (Return (Some "Agent stopped programmatically"), w)
        else
          match wait_while_paused fuel agent_run_error w with
          | None => None
          | Some (Raise e, w1) => Some (Raise e, w1)
          | Some (Return agent_run_error, w1) =>
              match run_iteration max_steps step_index start_hook end_hook w1 with
              | (Raise e, w2) => Some (Raise e, w2)
              | (Return _, w2) =>
                  if history_is_done (history (state w2))
                  then Some (Return agent_run_error, w2)
                  else run_loop fuel max_steps rest start_hook end_hook
                         agent_run_error w2
              end
          end
    end.

(** The exceptions that [step] hands to [_handle_step_error]: every
    [Exception] but [InterruptedError]. *)
Definition counted_as_failure (e : exn) : bool :=
  match e with
  | InterruptedError _ | CancelledError | KeyboardInterrupt => false
  | _ => true
  end.

(** A step fails when its body raises an exception that reaches
    [_handle_step_error]. *)
Definition step_fails (step_info : option AgentStepInfo) (w : World) : bool :=
  match fst (step_body step_info (begin_step w)) with
  | Raise e => counted_as_failure e
  | Return _ => false
  end.

(** A round of the loop whose step fails: the agent is neither stopped nor
    paused, the round returns, the body of its step raised into
    [_handle_step_error] and the history does not report completion. *)
Definition failing_iteration (max_steps : Z) (start_hook end_hook : bool)
    (step_index : nat) (w w' : World) : Prop :=
  stopped (state w) = false
  /\ paused (state w) = false
  /\ run_iteration max_steps step_index start_hook end_hook w = (Return tt, w')
  /\ step_fails (Some (mkStepInfo (Z.of_nat step_index) max_steps))
       (snd (maybe_hook start_hook on_step_start w)) = true
  /\ history_is_done (history (state w')) = false.

(** [failing_streak i n w w']: [n] consecutive failing rounds, the first
    with step index [i], lead from [w] to [w']. *)
Inductive failing_streak (max_steps : Z) (start_hook end_hook : bool)
  : nat -> nat -> World -> World -> Prop :=
| streak_none i w :
    failing_streak max_steps start_hook end_hook i 0 w w
| streak_more i n w w1 w2 :
    failing_iteration max_steps start_hook end_hook i w w1 ->
    failing_streak max_steps start_hook end_hook (S i) n w1 w2 ->
    failing_streak max_steps start_hook end_hook i (S n) w w2.

(** The number of steps that have been started, by the log. *)
Fixpoint steps_started (events : list Event) : nat :=
  match events with
  | [] => 0
  | EvLogStep _ :: rest => S (steps_started rest)
  | _ :: rest => steps_started rest
  end.

(** [Agent.close] *)
Definition close : M unit :=
  try_except (call EvClose app_close)
    (fun e => if is_Exception e then ret tt else raise e).

(** The [finally] block of [run]. *)
Definition run_cleanup : M unit :=
  close ;;
  gif <- get (fun w => generate_gif (settings w)) ;;
  if gif then call EvGif create_history_gif else ret tt.

(** [Agent.run]; the second component of the result is the local
    [agent_run_error]. *)
Definition run (fuel : nat) (max_steps : Z) (initial_actions : list ActionModel)
    (start_hook end_hook : bool)
  : MF (list AgentHistory * option string) :=
  fun w =>
    let body : MF (option string) :=
      fun w =>
        match
          match initial_actions with
          | [] => ret tt
          | _ :: _ =>
              result <- multi_act initial_actions ;;
              modify (with_state (set_last_result result))
          end w
        with
        | (Raise e, w') => Some (Raise e, w')
        | (Return _, w') =>
            run_loop fuel max_steps (seq 0 (Z.to_nat max_steps))
              start_hook end_hook None w'
        end in
    match body w with
    | None => None
    | Some (o, w1) =>
        let handled : Outcome (list AgentHistory * option string) :=
          match o with
          | Return err => Return (history (state w1), err)
          | Raise KeyboardInterrupt =>
              Return (history (state w1), Some "KeyboardInterrupt")
          | Raise e => Raise e
          end in
        match run_cleanup w1 with
        | (Return _, w2) => Some (handled, w2)
        | (Raise e, w2) => Some (Raise e, w2)
        end
    end.

End Run.

(** ** Observations on the world *)

Section Observations.

Context {X : External}.

(** The components of the world that the properties below follow. *)
Definition the_n_steps (w : World) : Z := n_steps (state w).
Definition the_failures (w : World) : Z := consecutive_failures (state w).
Definition the_result (w : World) : list ActionResult := f_result (frame w).
Definition the_max_failures (w : World) : Z := max_failures (settings w).

(** [Keeps p c]: the computation [c] never changes the component [p] of
    the world, whether it returns or raises. *)
Definition Keeps {T A} (p : World -> T) (c : M A) : Prop :=
  forall w, p (snd (c w)) = p w.

(** Components that no collaborator call can change. *)
Definition CallStable {T} (p : World -> T) : Prop :=
  forall (cs : list Control) (e : E) (ev : Event) (w : World),
    p (with_state (fun s => fold_left deliver cs s) (with_ext e (with_event ev w))) = p w.

End Observations.

(** ** A scripted environment for examples *)

Module Demo.

Definition quiet {A} (a : A) : Reply A := mkReply (Return a) [].

(** The action name decides what the executor answers. *)
Definition act_result (a : ActionModel) : ActionResult :=
  match fields_set a with
  | (name, _) :: _ =>
      if String.eqb name "done"
      then mkActionResult true (Some true) (Some "finished") None
      else if String.eqb name "bad_index"
      then error_result "Element with index 7 does not exist"
      else mkActionResult false None (Some "ok") None
  | [] => mkActionResult false None None None
  end.

(** The external state is the queue of replies that the model transport
    will give; an exhausted queue stands for a response that cannot be
    parsed. *)
Definition fields : list string := ["tap_element"; "bad_index"; "done"].

#[export] Instance scripted : External := {|
  E := list (Reply AgentOutput);
  AppState := unit;
  AppStateHistory := unit;
  task := "open the settings";
  unfiltered_actions := "tap_element(index), bad_index(index), done(success, text)";
  registry_actions := fields;
  get_app_state := fun e => (quiet tt, e);
  from_app_state := fun a => a;
  create_procedural_memory := fun _ e => (quiet tt, e);
  planner_ainvoke := fun _ e => (quiet "Open the settings tab first", e);
  llm_parsed := fun _ _ e =>
    match e with
    | r :: rest => (r, rest)
    | [] => (mkReply (Raise (ValueError "Could not parse response. no JSON found")) [], [])
    end;
  save_conversation := fun _ e => (quiet tt, e);
  controller_act := fun a e => (quiet (act_result a), e);
  asyncio_sleep := fun _ e => (quiet tt, e);
  run_hook := fun _ e => (quiet tt, e);
  app_close := fun e => (quiet tt, e);
  create_history_gif := fun e => (quiet tt, e);
  format_error := exn_str;
  state_message_content := fun _ _ _ _ _ => "<app_state>";
  model_output_content := fun _ => "<model_output>";
  count_tokens := fun _ => 1
|}.

Definition tap (i : Z) : ActionModel :=
  mkAction fields [("tap_element", [("index", VInt i)])].

Definition bad_tap : ActionModel :=
  mkAction fields [("bad_index", [("index", VInt 7)])].

(** [ActionModel()]: an action with no field set. *)
Definition unset_action : ActionModel := mkAction fields [].

Definition output (acts : list ActionModel) : AgentOutput :=
  mkAgentOutput None "Success" "opened the app" "tap the button" acts.

Definition default_settings : AgentSettings :=
  mkSettings true None 3 10 128000 10 false 1 false None false None.

Definition planner_settings : AgentSettings :=
  mkSettings true None 3 10 128000 10 true 1 true None false None.

Definition fresh_state (failures : Z) : AgentState :=
  mkAgentState 1 failures false false None None [].

Definition task_message : ManagedMessage :=
  mkManaged (HumanMessage "Your ultimate task is: open the settings") false.

Definition world (s : AgentSettings) (failures : Z) (replies : E) : World :=
  mkWorld (fresh_state failures) s
    (mkMessageManager (SystemMessage "You are an AI assistant") [task_message] 2)
    false empty_frame replies [].

(** One previous failure; the model asks for three actions and the second
    one reports an error. *)
Definition world_with_failing_action : World :=
  world default_settings 1 [quiet (output [tap 1; bad_tap; tap 2])].

(** One previous failure; the model asks for one action, which succeeds. *)
Definition world_with_one_tap : World :=
  world default_settings 1 [quiet (output [tap 1])].

(** The agent has been paused before the step starts. *)
Definition paused_world : World :=
  with_state pause (world default_settings 1 [quiet (output [tap 1])]).

(** The model transport never yields a parsable response. *)
Definition world_without_replies : World :=
  world default_settings 0 [].

(** A planner in reasoning mode is configured. *)
Definition world_with_planner : World :=
  world planner_settings 0 [quiet (output [tap 1])].

(** A planner is configured, not in reasoning mode. *)
Definition world_with_plain_planner : World :=
  world (mkSettings true None 3 10 128000 10 true 1 false None false None) 0
    [quiet (output [tap 1])].

(** The model answers twice with an empty action list. *)
Definition world_with_empty_outputs : World :=
  world default_settings 0 [quiet (output []); quiet (output [])].

(** The model answers with one action that has no field set. *)
Definition world_with_unset_action : World :=
  world default_settings 0 [quiet (output [unset_action])].

(** [max_failures] is 3; in each of ten steps the model asks for an action
    that reports an error. *)
Definition world_with_action_errors : World :=
  world default_settings 0 (repeat (quiet (output [bad_tap])) 10).

(** Probes of the tool-calling methods: only [json_mode] and [raw] work. *)
Definition probe (m : option ToolCalling.ToolCallingMethod) : bool :=
  match m with
  | Some ToolCalling.json_mode | Some ToolCalling.raw => true
  | _ => false
  end.

Definition no_fault (m : ToolCalling.ToolCallingMethod) : option exn := None.

Definition fresh_llm : ToolCalling.LlmAttrs := ToolCalling.mkLlmAttrs None None.

Definition no_loop : ToolCalling.LoopEnv := ToolCalling.mkLoopEnv false None None.

End Demo.


(** ** Further observations *)

Section MoreObservations.

Context {X : External}.

Definition the_history (w : World) : list AgentHistory := history (state w).

Definition is_llm_call (ev : Event) : bool :=
  match ev with
  | EvLlm _ => true
  | _ => false
  end.

Definition is_planner_call (ev : Event) : bool :=
  match ev with
  | EvPlanner _ => true
  | _ => false
  end.

(** The calls of a kind that the log holds, in their order. *)
Definition selected (sel : Event -> bool) (w : World) : list Event :=
  filter sel (log w).

(** The calls of the model and of the planner so far. *)
Definition the_llm_calls (w : World) : list Event := selected is_llm_call w.
Definition the_planner_calls (w : World) : list Event := selected is_planner_call w.

(** The local [model_output] of the running step. *)
Definition the_model_output (w : World) : option AgentOutput :=
  f_model_output (frame w).

(** Calls that leave the process towards the model, the planner, the action
    executor or the disk. *)
Definition reaches_out (ev : Event) : bool :=
  match ev with
  | EvLlm _ | EvPlanner _ | EvAct _ | EvSaveConversation _ => true
  | _ => false
  end.

End MoreObservations.

(** ** service.py: [_verify_llm_connection] *)

Module Connection.

Import ToolCalling.

(** [SKIP_LLM_API_KEY_VERIFICATION]: the first character of the lower-cased
    environment variable (default ['false']) is looked up in ['ty1']; an
    empty value has no first character. *)
Definition skip_verification (env_value : option string) : option bool :=
  match lower match env_value with
              | Some v => v
              | None => "false"
              end with
  | EmptyString => None
  | String c _ => Some (Py.contains (String c EmptyString) "ty1")
  end.

(** [_verify_llm_connection]: [invoke] is what
    [self.llm.invoke([HumanMessage(content=test_prompt)])] does, the text
    [str(response.content)] or the exception it raises. *)
Definition _verify_llm_connection (skip : bool) (invoke : Outcome string)
    (llm : LlmAttrs) : Outcome bool * LlmAttrs :=
  if api_keys_verified llm || skip then
    (Return true, set_verified_api_keys true llm)
  else
    match invoke with
    | Return content =>
        let response_text := lower content in
        if Py.contains "paris" response_text
        then (Return true, set_verified_api_keys true llm)
        else (Return false, set_verified_api_keys false llm)
    | Raise e =>
        if is_Exception e
        then (Return false, set_verified_api_keys false llm)
        else (Raise e, llm)
    end.

(** The two calls of [Agent.__init__] on the LLM object, in their order:
    [_set_tool_calling_method] and then [_verify_llm_connection]. *)
Definition negotiate_then_verify
    (probe : option ToolCallingMethod -> bool)
    (fault : ToolCallingMethod -> option exn)
    (is_model_without_tool_support : string -> bool)
    (requested : option ToolCallingMethod)
    (chat_model_library model_name : string)
    (env : LoopEnv) (completion_order : list nat)
    (skip : bool) (invoke : Outcome string) (llm : LlmAttrs)
  : Outcome (option ToolCallingMethod * bool) * LlmAttrs :=
  match _set_tool_calling_method probe fault is_model_without_tool_support
          requested chat_model_library model_name env completion_order llm with
  | (Raise e, llm1) => (Raise e, llm1)
  | (Return method, llm1) =>
      match _verify_llm_connection skip invoke llm1 with
      | (Raise e, llm2) => (Raise e, llm2)
      | (Return verified, llm2) => (Return (method, verified), llm2)
      end
  end.

End Connection.

(** ** service.py: [_remove_think_tags] *)

Module ThinkTags.

(** [s[n:]] and [s[:n]] for [n >= 0]. *)
Definition drop (n : nat) (s : string) : string :=
  String.substring n (String.length s - n) s.

Definition take (n : nat) (s : string) : string := String.substring 0 n s.

Definition open_tag : string := "<think>".
Definition close_tag : string := "</think>".

(** [re.sub(THINK_TAGS, '', text)] for the pattern [<think>.*?</think>] with
    [re.DOTALL]: the leftmost [<think>] that is followed by a [</think>]
    is removed together with everything up to the first such [</think>],
    and the search goes on behind it.  When the leftmost [<think>] has no
    [</think>] behind it, no later one has, and the text is left as it is.
    Each round removes at least the two tags, so the length of the text is
    enough fuel. *)
Fixpoint sub_think_blocks (fuel : nat) (text : string) : string :=
  match fuel with
  | O => text
  | S fuel' =>
      match String.index 0 open_tag text with
      | None => text
      | Some p =>
          let behind_open := drop (p + String.length open_tag) text in
          match String.index 0 close_tag behind_open with
          | None => text
          | Some q =>
              take p text
              ++ sub_think_blocks fuel'
                   (drop (q + String.length close_tag) behind_open)
          end
      end
  end.

(** [re.sub(STRAY_CLOSE_TAG, '', text)] for the pattern [.*?</think>] with
    [re.DOTALL]: everything up to and including the first [</think>] is
    removed, and again behind it. *)
Fixpoint sub_through_close (fuel : nat) (text : string) : string :=
  match fuel with
  | O => text
  | S fuel' =>
      match String.index 0 close_tag text with
      | None => text
      | Some q =>
          sub_through_close fuel' (drop (q + String.length close_tag) text)
      end
  end.

(** [c.isspace()] for a character below 256. *)
Definition is_space (c : ascii) : bool :=
  let n := nat_of_ascii c in
  ((9 <=? n) && (n <=? 13) || (28 <=? n) && (n <=? 32)
   || Nat.eqb n 133 || Nat.eqb n 160)%nat.

Fixpoint lstrip (s : string) : string :=
  match s with
  | EmptyString => EmptyString
  | String c rest => if is_space c then lstrip rest else s
  end.

Fixpoint rstrip (s : string) : string :=
  match s with
  | EmptyString => EmptyString
  | String c rest =>
      match rstrip rest with
      | EmptyString => if is_space c then EmptyString else String c EmptyString
      | kept => String c kept
      end
  end.

(** [s.strip()] *)
Definition strip (s : string) : string := rstrip (lstrip s).

Definition _remove_think_tags (text : string) : string :=
  let text := sub_think_blocks (String.length text) text in
  let text := sub_through_close (String.length text) text in
  strip text.

End ThinkTags.

(** ** service.py: the raw-response check of [_test_tool_calling_method] *)

Module RawResponse.

Import ThinkTags.

Definition fence : string := "```".
Definition json_fence : string := "```json".

(** [s[a:-b]] for [a, b >= 0] and [len(s) >= b]. *)
Definition slice_between (a b : nat) (s : string) : string :=
  drop a (take (String.length s - b) s).

(** The cleaning of [is_valid_raw_response]: the stripped content, without
    its surrounding markdown code fence if it has one; the result is what
    [json.loads] is given. *)
Definition clean_content (raw : string) : string :=
  let content := strip raw in
  if Py.startswith json_fence content && Py.endswith fence content
  then strip (slice_between 7 3 content)
  else if Py.startswith fence content && Py.endswith fence content
  then strip (slice_between 3 3 content)
  else content.

End RawResponse.

(** ** prompts.py: the user message of [AgentMessagePrompt] *)

Module UserMessage.

Import Prompts.
Import ThinkTags.

Definition newline : string := String "010" EmptyString.

(** [s.strip('\n')] *)
Fixpoint lstrip_newlines (s : string) : string :=
  match s with
  | EmptyString => EmptyString
  | String c rest => if Ascii.eqb c "010" then lstrip_newlines rest else s
  end.

Fixpoint rstrip_newlines (s : string) : string :=
  match s with
  | EmptyString => EmptyString
  | String c rest =>
      match rstrip_newlines rest with
      | EmptyString => if Ascii.eqb c "010" then EmptyString else String c EmptyString
      | kept => String c kept
      end
  end.

Definition strip_newlines (s : string) : string :=
  rstrip_newlines (lstrip_newlines s).

(** The attributes of [AgentMessagePrompt] that the state description does
    not read. *)
Record MessageFields := mkMessageFields {
  agent_history_description : option string;
  read_state_description : option string;
  task : option string;
  step_info : option AgentStepInfo;
  sensitive_data : option string
}.

(** The content of a [HumanMessage]: a text, or a text part and an image
    part. *)
Inductive MessageContent :=
| TextContent (text : string)
| VisionContent (text : string) (image_url : string).

Definition content_text (c : MessageContent) : string :=
  match c with
  | TextContent text | VisionContent text _ => text
  end.

(** [f'{x}'] for an optional string attribute. *)
Definition str_opt (x : option string) : string :=
  match x with
  | Some v => v
  | None => "None"
  end.

(** [(x.strip('\n') if x else '')] *)
Definition stripped_or_empty (x : option string) : string :=
  match x with
  | Some v => if Py.truthy v then strip_newlines v else EmptyString
  | None => EmptyString
  end.

(** [_get_agent_state_description]; [time_str] is the formatted
    [datetime.now()]. *)
Definition _get_agent_state_description (fields : MessageFields)
    (time_str : string) : string :=
  let step_info_description :=
    match step_info fields with
    | Some info =>
        "Step " ++ Py.str_int (step_number info + 1) ++ " of "
        ++ Py.str_int (max_steps info) ++ " max possible steps" ++ newline
    | None => EmptyString
    end in
  let step_info_description :=
    step_info_description ++ "Current date and time: " ++ time_str in
  let agent_state :=
    newline ++ "<user_request>" ++ newline ++ str_opt (task fields) ++ newline
    ++ "</user_request>" ++ newline ++ "<step_info>" ++ newline
    ++ step_info_description ++ newline ++ "</step_info>" ++ newline in
  let agent_state :=
    if Py.truthy_opt (sensitive_data fields)
    then agent_state ++ "<sensitive_data>" ++ newline
         ++ str_opt (sensitive_data fields) ++ newline
         ++ "</sensitive_data>" ++ newline
    else agent_state in
  strip agent_state.

Section Message.

Variable ElementTree : Type.
Variable interactive_elements_to_string : ElementTree -> list string -> string.

Definition get_user_message (self : AgentMessagePrompt ElementTree)
    (fields : MessageFields) (time_str : string) (use_vision : bool)
  : MessageContent :=
  let state_description :=
    "<agent_history>" ++ newline
    ++ stripped_or_empty (agent_history_description fields)
    ++ newline ++ "</agent_history>" ++ newline in
  let state_description :=
    state_description ++ "<agent_state>" ++ newline
    ++ strip_newlines (_get_agent_state_description fields time_str)
    ++ newline ++ "</agent_state>" ++ newline in
  let state_description :=
    state_description ++ "<app_state>" ++ newline
    ++ strip_newlines (_get_app_state_description interactive_elements_to_string self)
    ++ newline ++ "</app_state>" ++ newline in
  let state_description :=
    state_description ++ "<read_state>" ++ newline
    ++ stripped_or_empty (read_state_description fields)
    ++ newline ++ "</read_state>" ++ newline in
  if use_vision && Py.truthy_opt (screenshot (app_state self))
  then VisionContent state_description
         ("data:image/png;base64," ++ str_opt (screenshot (app_state self)))
  else TextContent state_description.

End Message.

Arguments get_user_message {ElementTree}.

End UserMessage.

(** ** More scripted environments *)

Module Scenes.

(** An environment in which the user resumes the agent during the first
    sleep; everything else answers at once and succeeds. *)
Definition resuming : External := {|
  E := unit;
  AppState := unit;
  AppStateHistory := unit;
  task := "open the settings";
  unfiltered_actions := "tap_element(index), bad_index(index), done(success, text)";
  registry_actions := Demo.fields;
  get_app_state := fun e => (Demo.quiet tt, e);
  from_app_state := fun a => a;
  create_procedural_memory := fun _ e => (Demo.quiet tt, e);
  planner_ainvoke := fun _ e => (Demo.quiet "Open the settings tab first", e);
  llm_parsed := fun _ _ e => (Demo.quiet (Demo.output [Demo.tap 1]), e);
  save_conversation := fun _ e => (Demo.quiet tt, e);
  controller_act := fun a e => (Demo.quiet (Demo.act_result a), e);
  asyncio_sleep := fun _ e => (mkReply (Return tt) [CtlResume], e);
  run_hook := fun _ e => (Demo.quiet tt, e);
  app_close := fun e => (Demo.quiet tt, e);
  create_history_gif := fun e => (Demo.quiet tt, e);
  format_error := exn_str;
  state_message_content := fun _ _ _ _ _ => "<app_state>";
  model_output_content := fun _ => "<model_output>";
  count_tokens := fun _ => 1
|}.

(** A paused agent in that environment. *)
Definition paused_agent : @World resuming :=
  @mkWorld resuming
    (mkAgentState 1 0 true false None None [])
    Demo.default_settings
    (mkMessageManager (SystemMessage "You are an AI assistant") [] 1)
    false (@empty_frame resuming) tt [].

(** The agent of [Demo] after a stop request. *)
Definition stopped_world : World :=
  with_state stop Demo.world_with_one_tap.

End Scenes.

(** * Properties *)

(** ** Strings *)

Lemma prefix_append (p s : string) : String.prefix p (p ++ s) = true.
Proof.
  induction p as [|c p IH]; simpl.
  - destruct s; reflexivity.
  - destruct (Ascii.ascii_dec c c) as [_|ne]; [exact IH | congruence].
Qed.

Lemma length_append (s x : string) :
  String.length (s ++ x) = (String.length s + String.length x)%nat.
Proof. induction s as [|c s IH]; simpl; [reflexivity | now rewrite IH]. Qed.

Lemma substring_all (x : string) : String.substring 0 (String.length x) x = x.
Proof. induction x as [|c x IH]; simpl; [reflexivity | now rewrite IH]. Qed.

Lemma substring_skip (s x : string) (n : nat) :
  String.substring (String.length s) n (s ++ x) = String.substring 0 n x.
Proof. induction s as [|c s IH]; simpl; [reflexivity | exact IH]. Qed.

Lemma endswith_append (s x : string) : Py.endswith x (s ++ x) = true.
Proof.
  unfold Py.endswith. rewrite length_append.
  replace (String.length s + String.length x - String.length x)%nat
    with (String.length s) by lia.
  rewrite substring_skip, substring_all, String.eqb_refl, andb_true_r.
  apply Nat.leb_le. lia.
Qed.

Lemma append_assoc (a b c : string) : ((a ++ b) ++ c = a ++ (b ++ c))%string.
Proof. induction a as [|x a IH]; simpl; [reflexivity | now rewrite IH]. Qed.

(** ** The state description (prompts.py) *)

Section StateDescription.

Import Prompts.

Variable ElementTree : Type.
Variable render : ElementTree -> list string -> string.

(** C8, as amended.  When the rendering of the interactive elements is
    empty, the element summary is exactly "empty page" and the description
    is the header line followed by it.  When the rendering is not empty and
    the snapshot has [pixels_above = 120] and [pixels_below = 0], the element
    summary starts with the whole marker "... 120 pixels above - scroll or
    extract content to see more ..." and ends with "[End of page]", and so
    does the description end. *)
Theorem state_description_markers (self : AgentMessagePrompt ElementTree) :
  let elements_text := render (element_tree (app_state self)) (include_attributes self) in
  (Py.truthy elements_text = false ->
     elements_summary render self = "empty page"
     /\ _get_app_state_description render self
        = description_header ++ String "010" "empty page")
  /\
  (Py.truthy elements_text = true ->
   pixels_above (app_state self) = Some 120 ->
   pixels_below (app_state self) = Some 0 ->
     Py.startswith above_marker_120 (elements_summary render self) = true
     /\ Py.endswith "[End of page]" (elements_summary render self) = true
     /\ Py.endswith "[End of page]" (_get_app_state_description render self) = true).
Proof.
  cbv zeta. split.
  - intros Hempty. unfold _get_app_state_description, elements_summary.
    rewrite Hempty. split; reflexivity.
  - intros Hsome Habove Hbelow.
    assert (Hsum : elements_summary render self
                   = (above_marker_120
                      ++ String "010" (render (element_tree (app_state self))
                                              (include_attributes self)))
                     ++ String "010" "[End of page]").
    { unfold elements_summary. rewrite Hsome, Habove, Hbelow. reflexivity. }
    split; [|split].
    + rewrite Hsum, append_assoc. unfold Py.startswith. apply prefix_append.
    + rewrite Hsum.
      change (String "010" "[End of page]") with (String "010" EmptyString ++ "[End of page]").
      rewrite <- append_assoc. apply endswith_append.
    + unfold _get_app_state_description. rewrite Hsum.
      change (String "010" "[End of page]") with (String "010" EmptyString ++ "[End of page]").
      rewrite <- append_assoc.
      change (String "010" ?x) with (String "010" EmptyString ++ x).
      set (body := (above_marker_120 ++ _) ++ _).
      change (description_header ++ String "010" (body ++ "[End of page]"))
        with (description_header ++ (String "010" EmptyString ++ (body ++ "[End of page]"))).
      rewrite <- !append_assoc. apply endswith_append.
Qed.

End StateDescription.

(** Witness of [state_description_markers]: one button, 120 pixels above. *)
Lemma state_description_markers_witness :
  (Prompts.elements_summary Prompts.render_lines Prompts.empty_screen = "empty page"
   /\ Prompts._get_app_state_description Prompts.render_lines Prompts.empty_screen
      = Prompts.description_header ++ String "010" "empty page")
  /\ Py.startswith Prompts.above_marker_120
    (Prompts.elements_summary Prompts.render_lines Prompts.one_button) = true
  /\ Py.endswith "[End of page]"
       (Prompts.elements_summary Prompts.render_lines Prompts.one_button) = true
  /\ Py.endswith "[End of page]"
       (Prompts._get_app_state_description Prompts.render_lines Prompts.one_button) = true.
Proof.
  split.
  - apply (proj1 (state_description_markers _ Prompts.render_lines Prompts.empty_screen)).
    reflexivity.
  - apply (proj2 (state_description_markers _ Prompts.render_lines Prompts.one_button));
      reflexivity.
Defined.

(** C8, as stated, fails: with one element, [pixels_above = 120] and
    [pixels_below = 0] the element summary does not start with the string
    "... 120 pixels above ..."; after "above" the code goes on with
    " - scroll or extract content to see more ...". *)
Lemma state_description_prefix_counterexample :
  Py.truthy (Prompts.render_lines
               (Prompts.element_tree (Prompts.app_state Prompts.one_button))
               (Prompts.include_attributes Prompts.one_button)) = true
  /\ Prompts.pixels_above (Prompts.app_state Prompts.one_button) = Some 120
  /\ Prompts.pixels_below (Prompts.app_state Prompts.one_button) = Some 0
  /\ Py.startswith "... 120 pixels above ..."
       (Prompts.elements_summary Prompts.render_lines Prompts.one_button) = false
  /\ Py.startswith "... 120 pixels above ..."
       (Prompts._get_app_state_description Prompts.render_lines Prompts.one_button) = false.
Proof. repeat split; reflexivity. Qed.

(** ** The action list of a parsed output *)

Section NextAction.

Context {X : External}.

Lemma firstn_length_exact {A} (n : nat) (l : list A) :
  (n <= List.length l)%nat -> List.length (firstn n l) = n.
Proof. intros H. rewrite length_firstn. lia. Qed.

(** C2.  When the model transport yields a parsed output, [get_next_action]
    returns (it does not reject the output, whatever its length); with
    [N] actions and a bound [max_actions_per_step >= 0], the output is
    returned unchanged if [N <= max_actions_per_step], and otherwise its
    action list is exactly the first [max_actions_per_step] actions, the
    other fields being unchanged. *)
Theorem get_next_action_cuts_actions
    (input_messages : list BaseMessage) (w : World) (parsed : AgentOutput) :
  let max_actions := max_actions_per_step (settings w) in
  let N := Z.of_nat (List.length (action parsed)) in
  outcome (fst (llm_parsed input_messages (done_only w) (ext w))) = Return parsed ->
  0 <= max_actions ->
  exists out,
    fst (get_next_action input_messages w) = Return out
    /\ (N <= max_actions -> out = parsed)
    /\ (N > max_actions ->
          action out = firstn (Z.to_nat max_actions) (action parsed)
          /\ Z.of_nat (List.length (action out)) = max_actions
          /\ out = set_action (action out) parsed).
Proof.
  intros max_actions N Hparsed Hmax.
  exists (cut_actions max_actions parsed). split; [|split].
  - unfold get_next_action, bind, get, call, ret. simpl.
    destruct (llm_parsed input_messages (done_only w) (ext w)) as [r e'].
    simpl in Hparsed. rewrite Hparsed. reflexivity.
  - intros Hle. unfold cut_actions. fold N.
    destruct (N >? max_actions) eqn:Hgt; [|reflexivity].
    apply Z.gtb_lt in Hgt. lia.
  - intros Hgt. unfold cut_actions. fold N.
    destruct (N >? max_actions) eqn:Hgtb.
    + unfold Py.slice_to.
      destruct (max_actions <? 0) eqn:Hneg; [apply Z.ltb_lt in Hneg; lia|].
      simpl. split; [reflexivity|]. split; [|reflexivity].
      rewrite firstn_length_exact; lia.
    + rewrite Z.gtb_ltb in Hgtb. apply Z.ltb_ge in Hgtb. lia.
Qed.

End NextAction.

(** Witness of [get_next_action_cuts_actions]: three actions, bound two. *)
Lemma get_next_action_cuts_actions_witness :
  exists out,
    fst (get_next_action []
           (with_settings (fun _ => mkSettings true None 3 10 128000 2 false 1 false None false None)
              Demo.world_with_failing_action)) = Return out
    /\ action out = [Demo.tap 1; Demo.bad_tap].
Proof.
  destruct (get_next_action_cuts_actions []
              (with_settings (fun _ => mkSettings true None 3 10 128000 2 false 1 false None false None)
                 Demo.world_with_failing_action)
              (Demo.output [Demo.tap 1; Demo.bad_tap; Demo.tap 2])
              eq_refl ltac:(simpl; lia))
    as [out [Hret [_ Hcut]]].
  exists out. split; [exact Hret|].
  destruct Hcut as [Hact _]; [simpl; lia | exact Hact].
Defined.

(** ** Negotiation of the tool-calling method *)

Section Gather.

Import ToolCalling.

Context {A : Type}.
Variable tasks : list A.
Variable run : A -> TaskResult.


Lemma fill_slot_length {B} (i : nat) (r : B) (slots : list (option B)) :
  List.length (fill_slot i r slots) = List.length slots.
Proof.
  revert i. induction slots as [|s slots IH]; intros [|i]; simpl; auto.
Qed.

Lemma fill_slot_same {B} (i : nat) (r : B) (slots : list (option B)) :
  (i < List.length slots)%nat -> nth_error (fill_slot i r slots) i = Some (Some r).
Proof.
  revert i. induction slots as [|s slots IH]; intros [|i] H; simpl in *;
    try lia; auto. apply IH. lia.
Qed.

Lemma fill_slot_other {B} (i j : nat) (r : B) (slots : list (option B)) :
  i <> j -> nth_error (fill_slot i r slots) j = nth_error slots j.
Proof.
  revert i j. induction slots as [|s slots IH]; intros [|i] [|j] H; simpl;
    auto; try congruence.
Qed.

Lemma complete_length slots i :
  List.length ((complete_task tasks run) slots i) = List.length slots.
Proof.
  unfold complete_task. destruct (nth_error tasks i); auto using fill_slot_length.
Qed.

Lemma fold_complete_length order slots :
  List.length (fold_left (complete_task tasks run) order slots) = List.length slots.
Proof.
  revert slots. induction order as [|i order IH]; intros slots; simpl; auto.
  rewrite IH. apply complete_length.
Qed.

Lemma fold_complete_nth order : forall slots j t,
  List.length slots = List.length tasks ->
  nth_error tasks j = Some t ->
  nth_error (fold_left (complete_task tasks run) order slots) j
  = if in_dec Nat.eq_dec j order then Some (Some (run t)) else nth_error slots j.
Proof.
  induction order as [|i order IH]; intros slots j t Hlen Hj; simpl.
  - reflexivity.
  - rewrite (IH _ j t); [|now rewrite complete_length|assumption].
    destruct (in_dec Nat.eq_dec j order) as [Hin|Hnin].
    + destruct (Nat.eq_dec i j); reflexivity.
    + destruct (Nat.eq_dec i j) as [->|Hne].
      * unfold complete_task. rewrite Hj. apply fill_slot_same.
        rewrite Hlen. apply nth_error_Some. congruence.
      * unfold complete_task. destruct (nth_error tasks i); [|reflexivity].
        now apply fill_slot_other.
Qed.

(** When every task completes, in whatever order, [gather] returns the
    results in task order. *)
Lemma gather_in_task_order (order : list nat) :
  Permutation order (seq 0 (List.length tasks)) ->
  gather tasks run order = map (fun t => Some (run t)) tasks.
Proof.
  intros Hperm. unfold gather.
  assert (Hlen0 : List.length (map (fun _ : A => @None TaskResult) tasks)
                  = List.length tasks) by apply length_map.
  apply nth_error_ext. intros j.
  destruct (nth_error tasks j) as [t|] eqn:Hj.
  - rewrite (fold_complete_nth order (map (fun _ => None) tasks) j t Hlen0 Hj).
    rewrite !nth_error_map, Hj. simpl.
    destruct (in_dec Nat.eq_dec j order) as [_|Hnin]; [reflexivity|].
    exfalso. apply Hnin.
    apply (Permutation_in j (Permutation_sym Hperm)).
    apply in_seq. split; [lia|]. simpl. apply nth_error_Some. congruence.
  - rewrite nth_error_map, Hj. simpl.
    apply nth_error_None. rewrite fold_complete_length, length_map.
    now apply nth_error_None.
Qed.

End Gather.

Section Detection.

Import ToolCalling.

Variable probe : option ToolCallingMethod -> bool.
Variable fault : ToolCallingMethod -> option exn.

Lemma first_success_find (order : list nat) :
  Permutation order (seq 0 (List.length methods_to_try)) ->
  first_success 0 methods_to_try (test_all_methods probe fault order)
  = find (task_succeeded probe fault) methods_to_try.
Proof.
  intros Hperm. unfold test_all_methods.
  rewrite (gather_in_task_order _ _ _ Hperm).
  unfold methods_to_try, task_succeeded, _test_tool_calling_method_async.
  simpl.
  destruct (fault function_calling), (probe (Some function_calling)),
           (fault tools), (probe (Some tools)),
           (fault json_mode), (probe (Some json_mode)),
           (fault raw), (probe (Some raw)); reflexivity.
Qed.

Lemma first_sequential_find (methods : list ToolCallingMethod) :
  first_sequential probe methods = find (fun m => probe (Some m)) methods.
Proof.
  induction methods as [|m methods IH]; simpl; [reflexivity|].
  destruct (probe (Some m)); [reflexivity | exact IH].
Qed.

(** C6.  Whatever the order in which the four concurrent probes complete,
    detection adopts the earliest method of [function_calling, tools,
    json_mode, raw] whose probe succeeded, caches it on the LLM object and
    returns it; when no probe succeeded it raises [ConnectionError].  When
    the concurrent round itself raises, the probes are repeated one after
    the other, with the same preference and the same failure. *)
Theorem detection_follows_preference_order
    (env : LoopEnv) (completion_order : list nat) (llm : LlmAttrs) :
  Permutation completion_order (seq 0 (List.length methods_to_try)) ->
  match parallel_results probe fault env completion_order with
  | Return _ =>
      _detect_best_tool_calling_method probe fault env completion_order llm
      = chosen llm (find (task_succeeded probe fault) methods_to_try)
  | Raise e =>
      _detect_best_tool_calling_method probe fault env completion_order llm
      = if is_Exception e
        then chosen llm (find (fun m => probe (Some m)) methods_to_try)
        else (Raise e, llm)
  end.
Proof.
  intros Hperm. unfold _detect_best_tool_calling_method.
  destruct (parallel_results probe fault env completion_order) as [results|e] eqn:Hpar.
  - assert (Hres : results = test_all_methods probe fault completion_order).
    { unfold parallel_results in Hpar.
      destruct (running_loop env).
      - destruct (thread_error env) as [[]|]; try discriminate;
          try (destruct (Py.contains _ _); try discriminate);
          try (destruct (asyncio_run_error env); try discriminate);
          congruence.
      - destruct (asyncio_run_error env); congruence. }
    rewrite Hres, (first_success_find _ Hperm).
    destruct (find (task_succeeded probe fault) methods_to_try); reflexivity.
  - destruct (is_Exception e); [|reflexivity].
    rewrite first_sequential_find.
    destruct (find _ methods_to_try); reflexivity.
Qed.

(** Full detection is what [_set_tool_calling_method] does for the request
    [auto] when nothing is cached on the LLM object and the table of known
    methods has no entry, or has one that is not trusted and whose probe
    fails. *)
Lemma auto_request_runs_detection
    (is_model_without_tool_support : string -> bool)
    (chat_model_library model_name : string)
    (env : LoopEnv) (completion_order : list nat) (llm : LlmAttrs) :
  _verified_tool_calling_method llm = None ->
  match _get_known_tool_calling_method is_model_without_tool_support
          chat_model_library model_name with
  | None => True
  | Some known_method =>
      api_keys_verified llm = false /\ probe (Some known_method) = false
  end ->
  _set_tool_calling_method probe fault is_model_without_tool_support
    (Some auto) chat_model_library model_name env completion_order llm
  = match _detect_best_tool_calling_method probe fault env completion_order llm with
    | (Return m, llm') => (Return (Some m), llm')
    | (Raise e, llm') => (Raise e, llm')
    end.
Proof.
  intros Hcache Hknown. unfold _set_tool_calling_method. simpl. rewrite Hcache.
  destruct (_get_known_tool_calling_method is_model_without_tool_support
              chat_model_library model_name) as [known|]; [|reflexivity].
  destruct Hknown as [-> ->]. reflexivity.
Qed.

(** C7.  An explicitly requested method (anything but [auto]) whose
    validation probe fails makes [_set_tool_calling_method] raise:
    [ConnectionError] when the request is [raw], and otherwise the
    [RuntimeError] that reports an unsupported configured method, which is
    not a [ConnectionError].  Nothing is cached on the LLM object. *)
Theorem explicit_method_probe_failure
    (is_model_without_tool_support : string -> bool)
    (requested : option ToolCallingMethod)
    (chat_model_library model_name : string)
    (env : LoopEnv) (completion_order : list nat) (llm : LlmAttrs) :
  setting_eqb requested auto = false ->
  api_keys_verified llm = false ->
  probe requested = false ->
  let result :=
    _set_tool_calling_method probe fault is_model_without_tool_support
      requested chat_model_library model_name env completion_order llm in
  (requested = Some raw -> result = (Raise connection_failed, llm))
  /\ (requested <> Some raw ->
        result = (Raise (unsupported requested), llm)
        /\ forall msg, unsupported requested <> ConnectionError msg).
Proof.
  intros Hexplicit Hkeys Hprobe result. subst result.
  unfold _set_tool_calling_method. rewrite Hexplicit, Hkeys, Hprobe. simpl.
  split.
  - intros ->. reflexivity.
  - intros Hnot_raw.
    assert (Hraw : setting_eqb requested raw = false).
    { destruct requested as [[]|]; try reflexivity. congruence. }
    rewrite Hraw. split; [reflexivity|]. unfold unsupported. discriminate.
Qed.

End Detection.

(** Witness of [detection_follows_preference_order]: the probes complete in
    the order raw, tools, function_calling, json_mode; only json_mode and
    raw succeed; json_mode is adopted. *)
Lemma detection_follows_preference_order_witness :
  ToolCalling._detect_best_tool_calling_method Demo.probe Demo.no_fault
    Demo.no_loop [3; 1; 0; 2]%nat Demo.fresh_llm
  = (Return ToolCalling.json_mode,
     ToolCalling.mkLlmAttrs (Some true) (Some (Some ToolCalling.json_mode))).
Proof.
  apply (detection_follows_preference_order Demo.probe Demo.no_fault
           Demo.no_loop [3; 1; 0; 2]%nat Demo.fresh_llm).
  simpl.
  apply Permutation_sym.
  apply (Permutation_cons_app [3; 1]%nat [2]%nat 0%nat).
  apply (Permutation_cons_app [3]%nat [2]%nat 1%nat).
  apply (Permutation_cons_app [3]%nat []%nat 2%nat).
  simpl. apply Permutation_refl.
Defined.

(** Witness of [explicit_method_probe_failure]: [raw] and [tools] are
    requested from a connection on which only [json_mode] would work. *)
Lemma explicit_method_probe_failure_witness :
  ToolCalling._set_tool_calling_method (fun m => ToolCalling.setting_eqb m ToolCalling.json_mode)
    Demo.no_fault (fun _ => false) (Some ToolCalling.raw) "ChatOpenAI" "gpt-4o"
    Demo.no_loop [0; 1; 2; 3]%nat Demo.fresh_llm
  = (Raise ToolCalling.connection_failed, Demo.fresh_llm)
  /\ ToolCalling._set_tool_calling_method (fun m => ToolCalling.setting_eqb m ToolCalling.json_mode)
       Demo.no_fault (fun _ => false) (Some ToolCalling.tools) "ChatOpenAI" "gpt-4o"
       Demo.no_loop [0; 1; 2; 3]%nat Demo.fresh_llm
     = (Raise (RuntimeError "Configured tool calling method 'tools' is not supported by the current LLM."),
        Demo.fresh_llm).
Proof.
  split.
  - apply (proj1 (explicit_method_probe_failure
                    (fun m => ToolCalling.setting_eqb m ToolCalling.json_mode)
                    Demo.no_fault (fun _ => false) (Some ToolCalling.raw)
                    "ChatOpenAI" "gpt-4o" Demo.no_loop [0; 1; 2; 3]%nat
                    Demo.fresh_llm eq_refl eq_refl eq_refl)).
    reflexivity.
  - apply (proj2 (explicit_method_probe_failure
                    (fun m => ToolCalling.setting_eqb m ToolCalling.json_mode)
                    Demo.no_fault (fun _ => false) (Some ToolCalling.tools)
                    "ChatOpenAI" "gpt-4o" Demo.no_loop [0; 1; 2; 3]%nat
                    Demo.fresh_llm eq_refl eq_refl eq_refl)).
    discriminate.
Defined.

(** ** What a computation leaves unchanged *)

Section Keeps.

Context {X : External}.

Variable T : Type.
Variable p : World -> T.

Lemma keeps_ret {A} (a : A) : Keeps p (ret a).
Proof. intros w. reflexivity. Qed.

Lemma keeps_raise {A} (e : exn) : Keeps p (@raise X A e).
Proof. intros w. reflexivity. Qed.

Lemma keeps_get {A} (f : World -> A) : Keeps p (get f).
Proof. intros w. reflexivity. Qed.

Lemma keeps_bind {A B} (c : M A) (k : A -> M B) :
  Keeps p c -> (forall a, Keeps p (k a)) -> Keeps p (bind c k).
Proof.
  intros Hc Hk w. unfold bind. specialize (Hc w).
  destruct (c w) as [[a|e] w1]; simpl in *.
  - now rewrite Hk.
  - exact Hc.
Qed.

Lemma keeps_try_except {A} (c : M A) (h : exn -> M A) :
  Keeps p c -> (forall e, Keeps p (h e)) -> Keeps p (try_except c h).
Proof.
  intros Hc Hh w. unfold try_except. specialize (Hc w).
  destruct (c w) as [[a|e] w1]; simpl in *.
  - exact Hc.
  - now rewrite Hh.
Qed.

Lemma keeps_modify (f : World -> World) :
  (forall w, p (f w) = p w) -> Keeps p (modify f).
Proof. intros Hf w. apply Hf. Qed.

Hypothesis p_call : CallStable p.

Lemma keeps_call {A} (ev : Event) (f : E -> Reply A * E) : Keeps p (call ev f).
Proof.
  intros w. unfold call. destruct (f (ext w)) as [r e']. simpl. apply p_call.
Qed.

Lemma keeps_raise_if : Keeps p _raise_if_stopped_or_paused.
Proof.
  intros w. unfold _raise_if_stopped_or_paused.
  destruct (stopped (state w) || paused (state w)); reflexivity.
Qed.

Lemma keeps_py_mod (x y : Z) : Keeps p (py_mod x y).
Proof. unfold py_mod. destruct (y =? 0); [apply keeps_raise | apply keeps_ret]. Qed.

Lemma keeps_multi_act_round i len a results :
  Keeps p (multi_act_round i len a results).
Proof.
  unfold multi_act_round. apply keeps_try_except.
  - apply keeps_bind; [apply keeps_raise_if|intros _].
    apply keeps_bind; [apply keeps_call|intros r].
    destruct (is_done r || Py.truthy_opt (error r) || Nat.eqb i (len - 1)).
    + apply keeps_ret.
    + apply keeps_bind; [apply keeps_call|intros _]. apply keeps_ret.
  - intros e. destruct e; apply keeps_raise.
Qed.

Lemma keeps_multi_act_from actions : forall i len results,
  Keeps p (multi_act_from i len actions results).
Proof.
  induction actions as [|a rest IH]; intros i len results; simpl.
  - apply keeps_ret.
  - apply keeps_bind; [apply keeps_multi_act_round|intros [r|r]].
    + apply keeps_ret.
    + apply IH.
Qed.

Lemma keeps_multi_act actions : Keeps p (multi_act actions).
Proof. apply keeps_multi_act_from. Qed.

(** Components that the message manager, the step frame and the action
    schema do not touch. *)
Hypothesis p_manager : forall f w, p (with_manager f w) = p w.
Hypothesis p_done_only : forall b w, p (with_done_only b w) = p w.

Lemma keeps_add_message msg position : Keeps p (_add_message_with_tokens msg position).
Proof. apply keeps_modify. intros w. apply p_manager. Qed.

Lemma keeps_remove_last : Keeps p _remove_last_state_message.
Proof. apply keeps_modify. intros w. apply p_manager. Qed.

Lemma keeps_add_state_message a si : Keeps p (add_state_message a si).
Proof.
  unfold add_state_message.
  repeat (apply keeps_bind; [apply keeps_get|intros ?]).
  apply keeps_add_message.
Qed.

Lemma keeps_add_model_output o : Keeps p (add_model_output o).
Proof. apply keeps_add_message. Qed.

Lemma keeps_add_plan plan position : Keeps p (add_plan plan position).
Proof.
  unfold add_plan. destruct plan as [text|]; [|apply keeps_ret].
  destruct (Py.truthy text); [apply keeps_add_message | apply keeps_ret].
Qed.

Lemma keeps_run_planner : Keeps p _run_planner.
Proof.
  unfold _run_planner.
  apply keeps_bind; [apply keeps_get|intros configured].
  destruct (negb configured); [apply keeps_ret|].
  apply keeps_bind; [apply keeps_get|intros n].
  apply keeps_bind; [apply keeps_get|intros k].
  apply keeps_bind; [apply keeps_py_mod|intros r].
  destruct (negb (r =? 0)); [apply keeps_ret|].
  apply keeps_try_except.
  - apply keeps_bind; [apply keeps_call|intros _].
    apply keeps_bind; [apply keeps_get|intros reasoning].
    apply keeps_bind; [apply keeps_get|intros extend].
    intros w. reflexivity.
  - intros e. destruct (is_Exception e); [apply keeps_ret | apply keeps_raise].
Qed.

Lemma keeps_get_next_action input : Keeps p (get_next_action input).
Proof.
  unfold get_next_action.
  apply keeps_bind; [apply keeps_get|intros restricted].
  apply keeps_bind; [apply keeps_call|intros parsed].
  apply keeps_bind; [apply keeps_get|intros m]. apply keeps_ret.
Qed.

Hypothesis p_frame_output :
  forall o w, p (with_frame (fun f => mkFrame (Some o) (f_result f) (f_tokens f) (f_app_state f)) w) = p w.
Hypothesis p_frame_tokens :
  forall t w, p (with_frame (fun f => mkFrame (f_model_output f) (f_result f) t (f_app_state f)) w) = p w.
Hypothesis p_frame_app_state :
  forall a w, p (with_frame (fun f => mkFrame (f_model_output f) (f_result f) (f_tokens f) (Some a)) w) = p w.

Lemma keeps_set_frame_output o : Keeps p (set_frame_output o).
Proof. apply keeps_modify. apply p_frame_output. Qed.

Lemma keeps_query_model input : Keeps p (query_model input).
Proof.
  unfold query_model.
  apply keeps_bind; [apply keeps_get_next_action|intros o1].
  apply keeps_bind; [apply keeps_set_frame_output|intros _].
  destruct (no_action o1); [|apply keeps_ret].
  apply keeps_bind; [apply keeps_get_next_action|intros o2].
  apply keeps_bind; [apply keeps_set_frame_output|intros _].
  destruct (no_action o2); [|apply keeps_ret].
  apply keeps_bind; [apply keeps_get|intros fields].
  apply keeps_bind; [apply keeps_set_frame_output|intros _]. apply keeps_ret.
Qed.

Lemma keeps_stage_state si : Keeps p (stage_state si).
Proof.
  unfold stage_state.
  apply keeps_bind; [apply keeps_call|intros a].
  apply keeps_bind; [apply keeps_modify; apply p_frame_app_state|intros _].
  apply keeps_bind; [apply keeps_get|intros n].
  apply keeps_bind; [apply keeps_get|intros interval].
  apply keeps_bind.
  { destruct interval as [k|]; [|apply keeps_ret].
    apply keeps_bind; [apply keeps_py_mod|intros r].
    destruct (r =? 0); [apply keeps_call | apply keeps_ret]. }
  intros _.
  apply keeps_bind; [apply keeps_raise_if|intros _].
  apply keeps_bind; [apply keeps_add_state_message|intros _].
  apply keeps_bind; [apply keeps_get|intros configured].
  apply keeps_bind.
  { destruct configured; [|apply keeps_ret].
    apply keeps_bind; [apply keeps_get|intros n'].
    apply keeps_bind; [apply keeps_get|intros k].
    apply keeps_bind; [apply keeps_py_mod|intros r].
    destruct (r =? 0); [|apply keeps_ret].
    apply keeps_bind; [apply keeps_run_planner|intros plan].
    apply keeps_add_plan. }
  intros _.
  apply keeps_bind.
  { destruct si as [info|]; [|apply keeps_ret].
    destruct (is_last_step info); [|apply keeps_ret].
    apply keeps_bind; [apply keeps_add_message|intros _].
    apply keeps_modify. intros w. apply p_done_only. }
  intros _.
  apply keeps_bind; [apply keeps_get|intros input].
  apply keeps_bind; [apply keeps_get|intros tokens].
  apply keeps_bind; [apply keeps_modify; apply p_frame_tokens|intros _].
  apply keeps_ret.
Qed.

(** The tail of [commit_model_output], after the step counter. *)
Lemma keeps_save_conversation (path : option string) :
  Keeps p (match path with
           | Some prefix =>
               n <- get (fun w => n_steps (state w)) ;;
               if Py.truthy prefix
               then call (EvSaveConversation (prefix ++ "_" ++ Py.str_int n ++ ".txt"))
                         (save_conversation (prefix ++ "_" ++ Py.str_int n ++ ".txt"))
               else ret tt
           | None => ret tt
           end).
Proof.
  destruct path as [prefix|]; [|apply keeps_ret].
  apply keeps_bind; [apply keeps_get|intros n].
  destruct (Py.truthy prefix); [apply keeps_call | apply keeps_ret].
Qed.

End Keeps.

(** [keeps_by call_lemma] proves [Keeps p c] for a computation [c] built
    from the operations above, where [call_lemma : CallStable p]. *)
Ltac keeps_by call_lemma :=
  repeat first
    [ apply keeps_ret | apply keeps_raise | apply keeps_get
    | apply keeps_call; exact call_lemma
    | apply keeps_raise_if | apply keeps_py_mod
    | apply keeps_multi_act; exact call_lemma
    | apply keeps_remove_last; intros; reflexivity
    | apply keeps_add_model_output; intros; reflexivity
    | apply keeps_query_model; first [exact call_lemma | intros; reflexivity]
    | apply keeps_stage_state; first [exact call_lemma | intros; reflexivity]
    | apply keeps_modify; intros; reflexivity
    | apply keeps_bind; [|intros ?]
    | apply keeps_try_except; [|intros ?]
    | match goal with
      | |- Keeps _ (if ?b then _ else _) => destruct b
      | |- Keeps _ (match ?x with _ => _ end) => destruct x
      end ].

(** ** The counters across a step *)

Section Counters.

Context {X : External}.

Lemma deliver_fold_counters (cs : list Control) : forall s,
  n_steps (fold_left deliver cs s) = n_steps s
  /\ consecutive_failures (fold_left deliver cs s) = consecutive_failures s.
Proof.
  induction cs as [|c cs IH]; intros s; simpl; [auto|].
  destruct (IH (deliver s c)) as [H1 H2]. rewrite H1, H2.
  destruct c; auto.
Qed.

Lemma n_steps_call : CallStable the_n_steps.
Proof. intros cs e ev w. apply (proj1 (deliver_fold_counters cs (state w))). Qed.

Lemma failures_call : CallStable the_failures.
Proof. intros cs e ev w. apply (proj2 (deliver_fold_counters cs (state w))). Qed.

Lemma result_call : CallStable the_result.
Proof. intros cs e ev w. reflexivity. Qed.

Lemma max_failures_call : CallStable the_max_failures.
Proof. intros cs e ev w. reflexivity. Qed.

Lemma n_steps_save_and_commit mo : Keeps the_n_steps (save_and_commit mo).
Proof. unfold save_and_commit. keeps_by n_steps_call. Qed.

Lemma n_steps_handle_step_error e : Keeps the_n_steps (_handle_step_error e).
Proof. unfold _handle_step_error. keeps_by n_steps_call. Qed.

Lemma n_steps_step_handlers e : Keeps the_n_steps (step_handlers e).
Proof.
  unfold step_handlers.
  destruct e; simpl; unfold set_frame_result;
    keeps_by n_steps_call; apply n_steps_handle_step_error.
Qed.

Lemma n_steps_act_and_record mo : Keeps the_n_steps (act_and_record mo).
Proof. unfold act_and_record, set_frame_result. keeps_by n_steps_call. Qed.

Lemma n_steps_model_handlers (e : exn) :
  Keeps the_n_steps (model_call_handlers e).
Proof. unfold model_call_handlers. destruct e; simpl; keeps_by n_steps_call. Qed.

End Counters.

Section StepCounter.

Context {X : External}.

Lemma step_n_steps si w :
  the_n_steps (snd (step si w)) = the_n_steps (snd (step_body si (begin_step w))).
Proof.
  unfold step, try_except.
  destruct (step_body si (begin_step w)) as [[u|e] wb]; simpl.
  - destruct (f_result (frame wb)); [reflexivity|].
    destruct (f_app_state (frame wb)); reflexivity.
  - pose proof (n_steps_step_handlers e wb) as H.
    destruct (step_handlers e wb) as [o w1]; simpl in *.
    destruct (f_result (frame w1)); [exact H|].
    destruct (f_app_state (frame w1)); exact H.
Qed.

Lemma guarded_model_call_n_steps input w :
  the_n_steps (snd (guarded_model_call input w))
  = match query_model input w with
    | (Raise _, _) => the_n_steps w
    | (Return _, w2) =>
        if stopped (state w2) || paused (state w2)
        then the_n_steps w
        else the_n_steps w + 1
    end.
Proof.
  unfold guarded_model_call, try_except, model_call, bind.
  pose proof (keeps_query_model _ the_n_steps n_steps_call
                ltac:(intros; reflexivity) input w) as Hq.
  destruct (query_model input w) as [[mo|e] w2]; simpl in Hq.
  - unfold commit_model_output, bind, _raise_if_stopped_or_paused.
    destruct (stopped (state w2) || paused (state w2)).
    + simpl. exact Hq.
    + unfold modify at 1.
      set (w3 := with_state (fun s => set_n_steps (n_steps s + 1) s) w2).
      assert (H3 : the_n_steps w3 = the_n_steps w + 1).
      { unfold w3, the_n_steps in *. simpl. now rewrite Hq. }
      pose proof (n_steps_save_and_commit mo w3) as H4.
      destruct (save_and_commit mo w3) as [[u|e] w4]; simpl in H4.
      * simpl. congruence.
      * rewrite (n_steps_model_handlers e w4). congruence.
  - rewrite (n_steps_model_handlers e w2). exact Hq.
Qed.

(** C10.  The step counter after a step, in terms of what the step
    reached.  If the step raised or was interrupted before the model call
    (while the state was staged), the counter is unchanged.  If the model
    call (with its retry) raised, by a transport or parsing failure or a
    cancellation, the counter is unchanged.  If a parsed output was
    obtained but the agent was paused or stopped meanwhile, the counter is
    unchanged.  Otherwise the counter is incremented by exactly one, and
    this holds whatever happens afterwards: a failing save, failing or
    interrupted actions.  So the counter moves by zero or one in a step, and
    by one only on steps that obtained a parsed model output. *)
Theorem step_counter_advances_once (si : option AgentStepInfo) (w : World) :
  let n := n_steps (state w) in
  let n' := n_steps (state (snd (step si w))) in
  match stage_state si (begin_step w) with
  | (Raise _, _) => n' = n
  | (Return input_messages, w1) =>
      match query_model input_messages w1 with
      | (Raise _, _) => n' = n
      | (Return _, w2) =>
          n' = if stopped (state w2) || paused (state w2) then n else n + 1
      end
  end.
Proof.
  cbv zeta. fold (the_n_steps w). fold (the_n_steps (snd (step si w))).
  rewrite step_n_steps. unfold step_body, bind.
  pose proof (keeps_stage_state _ the_n_steps n_steps_call
                ltac:(intros; reflexivity) ltac:(intros; reflexivity)
                ltac:(intros; reflexivity) ltac:(intros; reflexivity)
                si (begin_step w)) as Hs.
  change (the_n_steps (begin_step w)) with (the_n_steps w) in Hs.
  destruct (stage_state si (begin_step w)) as [[input|e] w1]; simpl in Hs.
  - pose proof (guarded_model_call_n_steps input w1) as Hg.
    destruct (guarded_model_call input w1) as [[mo|e] wg]; simpl in Hg.
    + rewrite (n_steps_act_and_record mo wg), Hg.
      destruct (query_model input w1) as [[mo'|e'] w2]; rewrite Hs; reflexivity.
    + simpl. rewrite Hg.
      destruct (query_model input w1) as [[mo'|e'] w2]; rewrite Hs; reflexivity.
  - simpl. exact Hs.
Qed.

End StepCounter.

Section FailureCounter.

Context {X : External}.

Ltac stable := intros; reflexivity.

Lemma failures_guarded_model_call input : Keeps the_failures (guarded_model_call input).
Proof.
  unfold guarded_model_call, model_call_handlers, model_call,
    commit_model_output, save_and_commit.
  keeps_by failures_call.
Qed.

Lemma result_guarded_model_call input : Keeps the_result (guarded_model_call input).
Proof.
  unfold guarded_model_call, model_call_handlers, model_call,
    commit_model_output, save_and_commit.
  keeps_by result_call.
Qed.

(** What the outer [try] leaves behind when it raises: the counter and the
    local [result] are as at the start of the step. *)
Lemma step_body_raises si w0 e wb :
  step_body si w0 = (Raise e, wb) ->
  the_failures wb = the_failures w0 /\ the_result wb = the_result w0.
Proof.
  unfold step_body, bind.
  pose proof (keeps_stage_state _ the_failures failures_call
                ltac:(stable) ltac:(stable) ltac:(stable) ltac:(stable)
                si w0) as Hs1.
  pose proof (keeps_stage_state _ the_result result_call
                ltac:(stable) ltac:(stable) ltac:(stable) ltac:(stable)
                si w0) as Hs2.
  destruct (stage_state si w0) as [[input|e1] w1]; simpl in Hs1, Hs2.
  - pose proof (failures_guarded_model_call input w1) as Hg1.
    pose proof (result_guarded_model_call input w1) as Hg2.
    destruct (guarded_model_call input w1) as [[mo|e2] w2]; simpl in Hg1, Hg2.
    + unfold act_and_record, bind.
      pose proof (keeps_multi_act _ the_failures failures_call (action mo) w2) as Hm1.
      pose proof (keeps_multi_act _ the_result result_call (action mo) w2) as Hm2.
      destruct (multi_act (action mo) w2) as [[rs|e3] w3]; simpl in Hm1, Hm2.
      * discriminate.
      * intros H. inversion H; subst. split; congruence.
    + intros H. inversion H; subst. split; congruence.
  - intros H. inversion H; subst. split; congruence.
Qed.

(** When the outer [try] completes, the counter is zero, whatever the
    results contain. *)
Lemma step_body_returns si w0 wb :
  step_body si w0 = (Return tt, wb) -> the_failures wb = 0.
Proof.
  unfold step_body, bind.
  destruct (stage_state si w0) as [[input|e1] w1]; [|discriminate].
  destruct (guarded_model_call input w1) as [[mo|e2] w2]; [|discriminate].
  unfold act_and_record, bind.
  destruct (multi_act (action mo) w2) as [[rs|e3] w3]; [|discriminate].
  intros H. inversion H. reflexivity.
Qed.

Lemma handle_step_error_failures e w :
  the_failures (snd (_handle_step_error e w)) = the_failures w + 1.
Proof.
  unfold _handle_step_error.
  set (rest := match e with ValueError _ => _ | _ => _ end).
  assert (Hrest : Keeps the_failures rest).
  { unfold rest. destruct e; keeps_by failures_call. }
  unfold bind, modify. rewrite Hrest. reflexivity.
Qed.

Lemma handle_step_error_result e w :
  the_result (snd (_handle_step_error e w)) = the_result w.
Proof.
  assert (H : Keeps the_result (_handle_step_error e)).
  { unfold _handle_step_error. destruct e; keeps_by result_call. }
  apply H.
Qed.

Lemma handle_step_error_value e w rs w' :
  _handle_step_error e w = (Return rs, w') -> exists msg, rs = [error_result msg].
Proof.
  unfold _handle_step_error, bind, modify, get, ret, call.
  destruct e; simpl;
    repeat match goal with
           | |- context [if ?b then _ else _] => destruct b; simpl
           | |- context [let (_, _) := ?x in _] => destruct x as [[[u|ex] cs] e']; simpl
           end;
    intros H; inversion H; eauto.
Qed.

Lemma step_handlers_effect e w :
  the_result w = [] ->
  let w' := snd (step_handlers e w) in
  match e with
  | InterruptedError _ | CancelledError | KeyboardInterrupt =>
      the_failures w' = the_failures w /\ the_result w' = []
  | _ =>
      the_failures w' = the_failures w + 1
      /\ (the_result w' = [] \/ exists msg, the_result w' = [error_result msg])
  end.
Proof.
  intros Hres. cbv zeta.
  assert (Hordinary :
    is_Exception e = true ->
    step_handlers e w
    = (result <- _handle_step_error e ;;
       set_frame_result result ;;
       modify (with_state (set_last_result result))) w ->
    the_failures (snd (step_handlers e w)) = the_failures w + 1
    /\ (the_result (snd (step_handlers e w)) = []
        \/ exists msg, the_result (snd (step_handlers e w)) = [error_result msg])).
  { intros _ ->. unfold bind.
    pose proof (handle_step_error_failures e w) as Hf.
    pose proof (handle_step_error_result e w) as Hr.
    pose proof (handle_step_error_value e w) as Hv.
    destruct (_handle_step_error e w) as [[rs|e'] w1]; simpl in *.
    - destruct (Hv rs w1 eq_refl) as [msg ->]. split; [exact Hf|].
      right. exists msg. reflexivity.
    - split; [exact Hf|]. left. congruence. }
  destruct e; try (apply Hordinary; reflexivity); simpl; auto.
Qed.

Lemma step_finally si w :
  the_failures (snd (step si w))
  = the_failures (snd (try_except (step_body si) step_handlers (begin_step w)))
  /\ the_result (snd (step si w))
     = the_result (snd (try_except (step_body si) step_handlers (begin_step w))).
Proof.
  unfold step.
  destruct (try_except (step_body si) step_handlers (begin_step w)) as [o w1].
  simpl. destruct (f_result (frame w1)) eqn:Hr.
  - split; [reflexivity|]. unfold the_result. now rewrite Hr.
  - destruct (f_app_state (frame w1)); simpl; split; reflexivity.
Qed.

(** C1, as amended.  After a step the consecutive-failure counter is: zero
    when the step ran to the end of the action execution, whatever its
    results contain; unchanged when the step was interrupted (pause, stop,
    cancellation); one more than before when the step raised any other
    exception.  In particular a step whose result list is non-empty and free
    of errors leaves the counter at zero. *)
Theorem failure_counter_after_step (si : option AgentStepInfo) (w : World) :
  let c := consecutive_failures (state w) in
  let w' := snd (step si w) in
  let c' := consecutive_failures (state w') in
  match step_body si (begin_step w) with
  | (Return _, _) => c' = 0
  | (Raise e, _) =>
      match e with
      | InterruptedError _ | CancelledError | KeyboardInterrupt => c' = c
      | _ => c' = c + 1
      end
  end
  /\ (f_result (frame w') <> [] ->
      (forall r, In r (f_result (frame w')) -> error r = None) ->
      c' = 0).
Proof.
  cbv zeta.
  fold (the_failures w) (the_failures (snd (step si w))) (the_result (snd (step si w))).
  destruct (step_finally si w) as [-> ->].
  unfold try_except.
  destruct (step_body si (begin_step w)) as [[[]|e] wb] eqn:Hbody.
  - simpl. pose proof (step_body_returns _ _ _ Hbody) as H0. auto.
  - destruct (step_body_raises _ _ _ _ Hbody) as [Hf Hr].
    change (the_failures (begin_step w)) with (the_failures w) in Hf.
    change (the_result (begin_step w)) with (@nil ActionResult) in Hr.
    pose proof (step_handlers_effect e wb Hr) as He. cbv zeta in He.
    split.
    + destruct e; destruct He as [He _]; congruence.
    + intros Hne Herr.
      destruct e; destruct He as [_ He];
        try (exfalso; apply Hne; exact He);
        (destruct He as [He|[text He]]; [exfalso; apply Hne; exact He|]);
        exfalso; rewrite He in Herr;
        specialize (Herr (error_result text) (or_introl eq_refl)); discriminate.
Qed.

End FailureCounter.

(** C1, as stated, fails: one failure has been counted, the model asks for
    three actions and the second one reports an error; the result list of
    the step holds that error, and the counter is reset to zero instead of
    going to two. *)
Lemma failure_counter_counterexample :
  let w := Demo.world_with_failing_action in
  let w' := snd (step None w) in
  consecutive_failures (state w) = 1
  /\ (exists r, In r (f_result (frame w')) /\ error r <> None)
  /\ consecutive_failures (state w') = 0
  /\ consecutive_failures (state w') <> consecutive_failures (state w) + 1.
Proof.
  cbv zeta. split; [reflexivity|]. split.
  - exists (error_result "Element with index 7 does not exist").
    split; [vm_compute; auto | discriminate].
  - split; [reflexivity | vm_compute; discriminate].
Qed.

(** Witness of [failure_counter_after_step]: a step with one successful
    action after one counted failure. *)
Lemma failure_counter_after_step_witness :
  consecutive_failures (state (snd (step None Demo.world_with_one_tap))) = 0.
Proof.
  apply (proj2 (failure_counter_after_step None Demo.world_with_one_tap)).
  - vm_compute. discriminate.
  - vm_compute. intros r [<-|[]]. reflexivity.
Defined.

(** ** What a step adds to what its query leaves *)

Section StepAroundQuery.

Context {X : External}.

Variable T : Type.
Variable p : World -> T.

Hypothesis p_commit : forall mo, Keeps p (commit_model_output mo).
Hypothesis p_model_handlers : forall e, Keeps p (model_call_handlers e).
Hypothesis p_act : forall mo, Keeps p (act_and_record mo).
Hypothesis p_handlers : forall e, Keeps p (step_handlers e).
Hypothesis p_history : forall h w, p (with_state (append_history h) w) = p w.

Lemma step_keeps_after_body si w :
  p (snd (step si w)) = p (snd (step_body si (begin_step w))).
Proof.
  unfold step, try_except.
  destruct (step_body si (begin_step w)) as [[u|e] wb]; simpl.
  - destruct (f_result (frame wb)); [reflexivity|].
    destruct (f_app_state (frame wb)); [apply p_history | reflexivity].
  - pose proof (p_handlers e wb) as Hh.
    destruct (step_handlers e wb) as [o w1]. simpl in Hh.
    destruct (f_result (frame w1)); [exact Hh|].
    destruct (f_app_state (frame w1)); [|exact Hh].
    simpl. unfold _make_history_item. rewrite p_history. exact Hh.
Qed.

Lemma guarded_model_call_keeps_after_query input ws :
  p (snd (guarded_model_call input ws)) = p (snd (query_model input ws)).
Proof.
  unfold guarded_model_call, try_except, model_call, bind.
  destruct (query_model input ws) as [[mo|e] wq]; simpl.
  - pose proof (p_commit mo wq) as Hc.
    destruct (commit_model_output mo wq) as [[u|e] wc]; simpl in Hc |- *.
    + exact Hc.
    + rewrite (p_model_handlers e wc). exact Hc.
  - apply p_model_handlers.
Qed.

(** When the state has been staged, the step ends with the component as
    the query of the model left it. *)
Lemma step_follows_query si w input ws :
  stage_state si (begin_step w) = (Return input, ws) ->
  p (snd (step si w)) = p (snd (query_model input ws)).
Proof.
  intros Hstage. rewrite step_keeps_after_body.
  unfold step_body, bind. rewrite Hstage.
  pose proof (guarded_model_call_keeps_after_query input ws) as Hg.
  destruct (guarded_model_call input ws) as [[mo|e] wg]; simpl in Hg |- *.
  - rewrite (p_act mo wg). exact Hg.
  - exact Hg.
Qed.

Lemma step_without_query si w e ws :
  stage_state si (begin_step w) = (Raise e, ws) ->
  p (snd (step si w)) = p ws.
Proof.
  intros Hstage. rewrite step_keeps_after_body.
  unfold step_body, bind. rewrite Hstage. reflexivity.
Qed.

End StepAroundQuery.

(** ** The calls of one kind in the log *)

Section Selected.

Context {X : External}.

Variable sel : Event -> bool.

Lemma selected_call {A} (ev : Event) (f : E -> Reply A * E) :
  sel ev = false -> Keeps (selected sel) (call ev f).
Proof.
  intros Hev w. unfold call. destruct (f (ext w)) as [r e']. simpl.
  unfold selected. simpl. rewrite filter_app. simpl. rewrite Hev.
  apply app_nil_r.
Qed.

Hypothesis sel_log_step : forall n, sel (EvLogStep n) = false.
Hypothesis sel_app_state : sel EvGetAppState = false.
Hypothesis sel_memory : forall n, sel (EvMemory n) = false.
Hypothesis sel_save : forall target, sel (EvSaveConversation target) = false.
Hypothesis sel_act : forall a, sel (EvAct a) = false.
Hypothesis sel_sleep : forall q, sel (EvSleep q) = false.

Lemma selected_multi_act_from actions : forall i len results,
  Keeps (selected sel) (multi_act_from i len actions results).
Proof.
  induction actions as [|a rest IH]; intros i len results; simpl.
  - apply keeps_ret.
  - apply keeps_bind; [|intros [r|r]; [apply keeps_ret | apply IH]].
    unfold multi_act_round. apply keeps_try_except.
    + apply keeps_bind; [apply keeps_raise_if|intros _].
      apply keeps_bind; [apply selected_call; apply sel_act|intros r].
      destruct (is_done r || Py.truthy_opt (error r) || Nat.eqb i (len - 1)).
      * apply keeps_ret.
      * apply keeps_bind; [apply selected_call; apply sel_sleep|intros _].
        apply keeps_ret.
    + intros e. destruct e; apply keeps_raise.
Qed.

Lemma selected_multi_act actions : Keeps (selected sel) (multi_act actions).
Proof. apply selected_multi_act_from. Qed.

(** The prompt of the planner is refused before the planner is called, so
    the only call of [_run_planner] is the one for the app state. *)
Lemma selected_run_planner : Keeps (selected sel) _run_planner.
Proof.
  unfold _run_planner.
  apply keeps_bind; [apply keeps_get|intros configured].
  destruct (negb configured); [apply keeps_ret|].
  apply keeps_bind; [apply keeps_get|intros n].
  apply keeps_bind; [apply keeps_get|intros k].
  apply keeps_bind; [apply keeps_py_mod|intros r].
  destruct (negb (r =? 0)); [apply keeps_ret|].
  apply keeps_try_except.
  - apply keeps_bind; [apply selected_call; apply sel_app_state|intros _].
    apply keeps_bind; [apply keeps_get|intros reasoning].
    apply keeps_bind; [apply keeps_get|intros extend].
    intros w. reflexivity.
  - intros e. destruct (is_Exception e); [apply keeps_ret | apply keeps_raise].
Qed.

Ltac quiet :=
  repeat first
    [ apply keeps_ret | apply keeps_raise | apply keeps_get
    | apply selected_call; solve [auto]
    | apply keeps_raise_if | apply keeps_py_mod
    | apply selected_multi_act
    | apply selected_run_planner
    | apply keeps_remove_last; intros; reflexivity
    | apply keeps_add_model_output; intros; reflexivity
    | apply keeps_add_state_message; intros; reflexivity
    | apply keeps_add_plan; intros; reflexivity
    | apply keeps_add_message; intros; reflexivity
    | apply keeps_modify; intros; reflexivity
    | apply keeps_bind; [|intros ?]
    | apply keeps_try_except; [|intros ?]
    | match goal with
      | |- Keeps _ (if ?b then _ else _) => destruct b
      | |- Keeps _ (match ?x with _ => _ end) => destruct x
      end ].

Lemma selected_stage_state si : Keeps (selected sel) (stage_state si).
Proof.
  unfold stage_state, set_frame_app_state, set_frame_tokens, get_messages.
  quiet.
Qed.

Lemma selected_commit_model_output mo :
  Keeps (selected sel) (commit_model_output mo).
Proof. unfold commit_model_output, save_and_commit. quiet. Qed.

Lemma selected_model_call_handlers e :
  Keeps (selected sel) (model_call_handlers e).
Proof. unfold model_call_handlers. destruct e; quiet. Qed.

Lemma selected_act_and_record mo : Keeps (selected sel) (act_and_record mo).
Proof. unfold act_and_record, set_frame_result. quiet. Qed.

Lemma selected_step_handlers e : Keeps (selected sel) (step_handlers e).
Proof.
  unfold step_handlers, _handle_step_error, set_frame_result.
  destruct e; quiet.
Qed.

Lemma selected_begin_step w : selected sel (begin_step w) = selected sel w.
Proof.
  unfold selected, begin_step. simpl. rewrite filter_app. simpl.
  rewrite sel_log_step. apply app_nil_r.
Qed.

(** The calls of the kind that a step adds are those of its query of the
    model, if it gets that far. *)
Lemma selected_step si w :
  selected sel (snd (step si w))
  = match stage_state si (begin_step w) with
    | (Return input, ws) => selected sel (snd (query_model input ws))
    | (Raise _, _) => selected sel w
    end.
Proof.
  pose proof (selected_stage_state si (begin_step w)) as Hs.
  rewrite selected_begin_step in Hs.
  destruct (stage_state si (begin_step w)) as [[input|e] ws] eqn:Hstage;
    simpl in Hs.
  - apply (step_follows_query _ (selected sel) selected_commit_model_output
             selected_model_call_handlers selected_act_and_record
             selected_step_handlers ltac:(intros; reflexivity) _ _ _ _ Hstage).
  - rewrite (step_without_query _ (selected sel) selected_step_handlers
               ltac:(intros; reflexivity) _ _ _ _ Hstage).
    exact Hs.
Qed.

Lemma selected_staged si w input ws :
  stage_state si (begin_step w) = (Return input, ws) ->
  selected sel ws = selected sel w.
Proof.
  intros Hstage. pose proof (selected_stage_state si (begin_step w)) as Hs.
  rewrite Hstage, selected_begin_step in Hs. exact Hs.
Qed.

Hypothesis sel_llm : forall input, sel (EvLlm input) = false.

Lemma selected_query_model input : Keeps (selected sel) (query_model input).
Proof. unfold query_model, get_next_action, set_frame_output. quiet. Qed.

(** A step adds no call of a kind that none of its parts makes. *)
Lemma selected_whole_step si : Keeps (selected sel) (step si).
Proof.
  intros w. rewrite selected_step.
  destruct (stage_state si (begin_step w)) as [[input|e] ws] eqn:Hstage;
    [|reflexivity].
  rewrite (selected_query_model input ws).
  exact (selected_staged _ _ _ _ Hstage).
Qed.

End Selected.

(** ** The retry on an empty action list *)

Section EmptyActions.

Context {X : External}.

Lemma no_action_of_empty_list o : action o = [] -> no_action o = true.
Proof. unfold no_action. now intros ->. Qed.

(** An action of a class with fields never dumps to the empty dict, set or
    not. *)
Lemma no_action_of_classes_with_fields o :
  action o <> [] ->
  Forall (fun a => model_fields a <> []) (action o) ->
  no_action o = false.
Proof.
  unfold no_action. destruct (action o) as [|a rest]; [congruence|].
  intros _ Hall. inversion Hall as [|a' rest' Ha _]; subst. simpl.
  unfold dump_is_empty, model_dump.
  destruct (model_fields a); [congruence | reflexivity].
Qed.

(** What the query of the model adds to the log and leaves as the output
    of the step, by the answers of the model. *)
Lemma query_model_effect (input : list BaseMessage) (w : World) :
  let max_actions := max_actions_per_step (settings w) in
  let retry := (input ++ [clarification_message])%list in
  let wq := snd (query_model input w) in
  match llm_parsed input (done_only w) (ext w) with
  | (r1, e1) =>
      match outcome r1 with
      | Raise _ => the_llm_calls wq = (the_llm_calls w ++ [EvLlm input])%list
      | Return out1 =>
          let first := cut_actions max_actions out1 in
          if no_action first then
            the_llm_calls wq = (the_llm_calls w ++ [EvLlm input; EvLlm retry])%list
            /\ match llm_parsed retry (done_only w) e1 with
               | (r2, _) =>
                   match outcome r2 with
                   | Raise _ => True
                   | Return out2 =>
                       let answer := cut_actions max_actions out2 in
                       the_model_output wq
                       = Some (if no_action answer
                               then set_action [noop_done (action_model_fields w)] answer
                               else answer)
                   end
               end
          else
            the_llm_calls wq = (the_llm_calls w ++ [EvLlm input])%list
            /\ the_model_output wq = Some first
      end
  end.
Proof.
  cbv zeta.
  unfold query_model, get_next_action, bind, get, call, ret, set_frame_output,
    modify, the_llm_calls, the_model_output, selected.
  simpl.
  destruct (llm_parsed input (done_only w) (ext w)) as [[[out1|x1] cs1] e1];
    simpl; [|now rewrite filter_app].
  destruct (no_action (cut_actions (max_actions_per_step (settings w)) out1));
    simpl; [|now rewrite filter_app].
  destruct (llm_parsed (input ++ [clarification_message]) (done_only w) e1)
    as [[[out2|x2] cs2] e2]; simpl.
  - destruct (no_action (cut_actions (max_actions_per_step (settings w)) out2));
      simpl; rewrite !filter_app, <- app_assoc; simpl; auto.
  - rewrite !filter_app, <- app_assoc. simpl. auto.
Qed.

Lemma model_output_call : CallStable the_model_output.
Proof. intros cs e ev w. reflexivity. Qed.

Lemma model_output_step_follows_query si w input ws :
  stage_state si (begin_step w) = (Return input, ws) ->
  the_model_output (snd (step si w)) = the_model_output (snd (query_model input ws)).
Proof.
  apply (step_follows_query _ the_model_output).
  - intros mo. unfold commit_model_output, save_and_commit.
    keeps_by model_output_call.
  - intros e. unfold model_call_handlers. destruct e; keeps_by model_output_call.
  - intros mo. unfold act_and_record, set_frame_result.
    keeps_by model_output_call.
  - intros e. unfold step_handlers, _handle_step_error, set_frame_result.
    destruct e; keeps_by model_output_call.
  - intros h w0. reflexivity.
Qed.

Lemma llm_calls_step_follows_query si w input ws :
  stage_state si (begin_step w) = (Return input, ws) ->
  the_llm_calls (snd (step si w)) = the_llm_calls (snd (query_model input ws))
  /\ the_llm_calls ws = the_llm_calls w.
Proof.
  intros Hstage. unfold the_llm_calls. split.
  - rewrite (selected_step is_llm_call) by (intros; reflexivity).
    now rewrite Hstage.
  - apply (selected_staged is_llm_call) with (si := si) (input := input);
      try (intros; reflexivity); exact Hstage.
Qed.

(** C3 does not hold of the code.  In a step whose state has been staged,
    an empty action list is answered as the claim says: the model is asked
    exactly once more, with the clarification message appended to the same
    input, and when that answer has no action either, the output of the
    step carries the single action [done(success=false, text="No next
    action returned by LLM!")].  A list of all-default actions is not: the
    test compares [action.model_dump()] with the empty dict, and the dump of
    an action whose class has fields lists them all, set or not.  For such
    a list, however little is set in it, the model is asked once and the
    list is the output of the step. *)
Theorem all_default_actions_are_not_retried
    (si : option AgentStepInfo) (w ws : World) (input : list BaseMessage)
    (out1 : AgentOutput) (cs1 : list Control) (e1 : E) :
  stage_state si (begin_step w) = (Return input, ws) ->
  llm_parsed input (done_only ws) (ext ws) = (mkReply (Return out1) cs1, e1) ->
  let max_actions := max_actions_per_step (settings ws) in
  let first := cut_actions max_actions out1 in
  let retry := (input ++ [clarification_message])%list in
  let w' := snd (step si w) in
  (action first = [] ->
   the_llm_calls w' = (the_llm_calls w ++ [EvLlm input; EvLlm retry])%list
   /\ forall out2 cs2 e2,
        llm_parsed retry (done_only ws) e1 = (mkReply (Return out2) cs2, e2) ->
        action (cut_actions max_actions out2) = [] ->
        f_model_output (frame w')
        = Some (set_action [noop_done (action_model_fields ws)]
                  (cut_actions max_actions out2)))
  /\ (action first <> [] ->
      Forall (fun a => model_fields a <> []) (action first) ->
      the_llm_calls w' = (the_llm_calls w ++ [EvLlm input])%list
      /\ f_model_output (frame w') = Some first).
Proof.
  intros Hstage Hreply. cbv zeta.
  destruct (llm_calls_step_follows_query si w input ws Hstage) as [Hcalls Hsame].
  pose proof (model_output_step_follows_query si w input ws Hstage) as Hout.
  unfold the_model_output in Hout at 1.
  rewrite Hcalls, Hout, <- Hsame.
  pose proof (query_model_effect input ws) as Hq. cbv zeta in Hq.
  rewrite Hreply in Hq. simpl in Hq.
  split.
  - intros Hempty. rewrite (no_action_of_empty_list _ Hempty) in Hq.
    destruct Hq as [Hlog Hsecond]. split; [exact Hlog|].
    intros out2 cs2 e2 Hreply2 Hempty2.
    rewrite Hreply2 in Hsecond. simpl in Hsecond.
    rewrite (no_action_of_empty_list _ Hempty2) in Hsecond. exact Hsecond.
  - intros Hsome Hfields.
    rewrite (no_action_of_classes_with_fields _ Hsome Hfields) in Hq.
    exact Hq.
Qed.

End EmptyActions.

(** Witness of [all_default_actions_are_not_retried].  The registry has
    the actions [tap_element], [bad_index] and [done].  When the model
    answers with one action in which none of them is set, it is not asked
    again, and the action goes to the executor as it is.  When the model
    answers twice with an empty list, it is asked twice, and the executor
    gets the synthesized [done] action. *)
Lemma all_default_actions_are_not_retried_witness :
  let input := [SystemMessage "You are an AI assistant";
                message Demo.task_message; HumanMessage "<app_state>"] in
  let unset := snd (step None Demo.world_with_unset_action) in
  let empty := snd (step None Demo.world_with_empty_outputs) in
  (the_llm_calls unset = [EvLlm input]
   /\ f_model_output (frame unset) = Some (Demo.output [Demo.unset_action])
   /\ executed_actions (log unset) = [Demo.unset_action])
  /\ (the_llm_calls empty
      = [EvLlm input; EvLlm (input ++ [clarification_message])]
      /\ f_model_output (frame empty) = Some (Demo.output [noop_done Demo.fields])
      /\ executed_actions (log empty) = [noop_done Demo.fields]).
Proof.
  cbv zeta. split.
  - destruct (all_default_actions_are_not_retried None Demo.world_with_unset_action
                (snd (stage_state None (begin_step Demo.world_with_unset_action)))
                [SystemMessage "You are an AI assistant";
                 message Demo.task_message; HumanMessage "<app_state>"]
                (Demo.output [Demo.unset_action]) [] []
                ltac:(vm_compute; reflexivity) ltac:(vm_compute; reflexivity))
      as [_ Hdefault].
    destruct (Hdefault ltac:(vm_compute; discriminate)
                ltac:(vm_compute; repeat constructor; discriminate))
      as [Hcalls Hout].
    split; [exact Hcalls|]. split; [exact Hout|].
    vm_compute. reflexivity.
  - destruct (all_default_actions_are_not_retried None Demo.world_with_empty_outputs
                (snd (stage_state None (begin_step Demo.world_with_empty_outputs)))
                [SystemMessage "You are an AI assistant";
                 message Demo.task_message; HumanMessage "<app_state>"]
                (Demo.output []) [] [Demo.quiet (Demo.output [])]
                ltac:(vm_compute; reflexivity) ltac:(vm_compute; reflexivity))
      as [Hempty _].
    destruct (Hempty ltac:(vm_compute; reflexivity)) as [Hcalls Hsecond].
    split; [exact Hcalls|]. split.
    + exact (Hsecond (Demo.output []) [] [] ltac:(vm_compute; reflexivity)
               ltac:(vm_compute; reflexivity)).
    + vm_compute. reflexivity.
Defined.

(** ** The execution of an action batch *)

Section Batch.

Context {X : External}.

Lemma last_index_stops (i len : nat) (rest : list ActionModel) :
  (i + S (List.length rest) = len)%nat ->
  Nat.eqb i (len - 1) = match rest with [] => true | _ :: _ => false end.
Proof.
  intros H. destruct rest as [|b rest]; simpl in *.
  - apply Nat.eqb_eq. lia.
  - apply Nat.eqb_neq. lia.
Qed.

Lemma world_eta (w : World) :
  mkWorld (state w) (settings w) (_message_manager w) (done_only w)
    (frame w) (ext w) (log w) = w.
Proof. destruct w. reflexivity. Qed.

Lemma multi_act_from_cons i len a rest done :
  multi_act_from i len (a :: rest) done
  = (r <- multi_act_round i len a done ;;
     match r with
     | Break results => ret results
     | Continue results => multi_act_from (S i) len rest results
     end).
Proof. reflexivity. Qed.

Local Arguments multi_act_from : simpl never.

Lemma multi_act_from_partial_batch actions e results events e' :
  partial_batch actions e results events e' ->
  forall i len done w,
    ext w = e ->
    stopped (state w) = false ->
    paused (state w) = false ->
    (i + List.length actions = len)%nat ->
    multi_act_from i len actions done w
    = (Return (done ++ results)%list,
       mkWorld (state w) (settings w) (_message_manager w) (done_only w)
         (frame w) e' (log w ++ events)%list).
Proof.
  induction 1 as [e | a rest e r e' Hact Hstop
                 | a rest e r e1 e2 results events e3 Hact Hgo Hrest Hsleep Hb IH];
    intros i len done w Hext Hs Hp Hlen.
  - unfold multi_act_from, ret. rewrite !app_nil_r, <- Hext, world_eta. reflexivity.
  - rewrite multi_act_from_cons.
    unfold bind, multi_act_round, try_except, bind,
      _raise_if_stopped_or_paused, call, ret.
    subst e. rewrite Hs, Hp. simpl. rewrite Hact. simpl.
    rewrite (last_index_stops i len rest Hlen).
    replace (is_done r || Py.truthy_opt (error r)
             || match rest with [] => true | _ :: _ => false end) with true.
    + reflexivity.
    + symmetry. destruct Hstop as [Hstop| ->].
      * unfold stops in Hstop. rewrite Hstop. reflexivity.
      * apply orb_true_r.
  - rewrite multi_act_from_cons.
    unfold bind, multi_act_round, try_except, bind,
      _raise_if_stopped_or_paused, call, ret.
    subst e. rewrite Hs, Hp. simpl. rewrite Hact. simpl.
    rewrite (last_index_stops i len rest Hlen).
    unfold stops in Hgo. rewrite Hgo.
    destruct rest as [|b rest]; [congruence|]. simpl.
    rewrite Hsleep. simpl.
    rewrite (IH (S i) len (done ++ [r])%list); simpl; try assumption; try reflexivity.
    + rewrite <- !app_assoc. reflexivity.
    + simpl in Hlen. lia.
Qed.

(** The shape of a partial batch: the executed actions are a prefix of the
    batch, one result each; no result before the last one ends the batch;
    and when actions were skipped the last result reports [is_done] or an
    error. *)
Lemma partial_batch_shape actions e results events e' :
  partial_batch actions e results events e' ->
  executed_actions events = firstn (List.length results) actions
  /\ (List.length results <= List.length actions)%nat
  /\ (forall r, In r (removelast results) -> stops r = false)
  /\ ((List.length results < List.length actions)%nat ->
      exists r, In r results /\ last results r = r /\ stops r = true).
Proof.
  induction 1 as [e | a rest e r e' Hact Hstop
                 | a rest e r e1 e2 results events e3 Hact Hgo Hrest Hsleep Hb IH].
  - simpl. split; [reflexivity|]. split; [lia|]. split.
    + intros r [].
    + intros Hlt. lia.
  - simpl. split; [reflexivity|]. split; [lia|]. split.
    + intros r0 [].
    + intros Hlt. destruct Hstop as [Hstop| ->]; [|simpl in Hlt; lia].
      exists r. auto.
  - destruct IH as [Hexec [Hlen [Hmid Hlast]]]. simpl.
    split; [now rewrite Hexec|]. split; [lia|]. split.
    + intros r0 Hin. destruct results as [|r1 results].
      * destruct Hin.
      * destruct Hin as [<-|Hin]; [exact Hgo | apply Hmid; exact Hin].
    + intros Hlt. destruct Hlast as [r0 [Hin [Hl Hs]]]; [lia|].
      exists r0. split; [right; exact Hin|]. split; [|exact Hs].
      destruct results as [|r1 results]; [destruct Hin | exact Hl].
Qed.

(** Whatever happens during a round, it hands at most its own action to
    the executor; a round that goes on to the next action has made exactly
    the call of its action and the delay. *)
Lemma multi_act_round_events i len a done w :
  exists events,
    log (snd (multi_act_round i len a done w)) = (log w ++ events)%list
    /\ match fst (multi_act_round i len a done w) with
       | Return (Continue _) => events = [EvAct a; EvSleep action_delay]
       | _ => executed_actions events = [] \/ executed_actions events = [a]
       end.
Proof.
  unfold multi_act_round, try_except, bind, _raise_if_stopped_or_paused,
    call, ret, raise.
  destruct (stopped (state w) || paused (state w)); simpl.
  { exists []. rewrite app_nil_r. auto. }
  destruct (controller_act a (ext w)) as [[[r|e] cs] e1]; simpl.
  - destruct (is_done r || Py.truthy_opt (error r) || Nat.eqb i (len - 1)); simpl.
    + exists [EvAct a]. auto.
    + destruct (asyncio_sleep action_delay e1) as [[[u|e] cs2] e2]; simpl.
      * exists [EvAct a; EvSleep action_delay]. rewrite <- app_assoc. auto.
      * exists [EvAct a; EvSleep action_delay].
        destruct e; simpl; rewrite <- app_assoc; auto.
  - exists [EvAct a]. destruct e; simpl; auto.
Qed.

(** Also when the batch is interrupted or an action raises, the actions
    handed to the executor are the first actions of the batch, in order. *)
Lemma multi_act_from_executes_prefix actions : forall i len done w,
  exists k events,
    log (snd (multi_act_from i len actions done w)) = (log w ++ events)%list
    /\ executed_actions events = firstn k actions.
Proof.
  induction actions as [|a rest IH]; intros i len done w.
  - exists 0%nat, []. unfold multi_act_from, ret. simpl. now rewrite app_nil_r.
  - rewrite multi_act_from_cons. unfold bind.
    destruct (multi_act_round_events i len a done w) as [events [Hlog Hout]].
    destruct (multi_act_round i len a done w) as [[[rs|rs]|e] w1];
      simpl in Hlog, Hout.
    + destruct Hout as [Hnone|Hone].
      * exists 0%nat, events. auto.
      * exists 1%nat, events. auto.
    + destruct (IH (S i) len rs w1) as [k [events' [Hlog' Hexec]]].
      exists (S k), (events ++ events')%list. split.
      * rewrite Hlog', Hlog, app_assoc. reflexivity.
      * subst events. simpl. now rewrite Hexec.
    + destruct Hout as [Hnone|Hone].
      * exists 0%nat, events. auto.
      * exists 1%nat, events. auto.
Qed.

Lemma multi_act_executes_prefix actions w :
  exists k events,
    log (snd (multi_act actions w)) = (log w ++ events)%list
    /\ executed_actions events = firstn k actions.
Proof. apply multi_act_from_executes_prefix. Qed.

(** C4.  For a batch that nothing interrupts, [multi_act] follows the
    partial-batch rule: it returns exactly the results of that rule and makes
    exactly its calls, one [EvAct] per executed action with an [EvSleep] of
    half a second between two successive ones.  Hence the executed actions
    are the first actions of the batch, in order, one result each; no result
    before the last one reports [is_done] or an error; and whenever actions
    are skipped, the last result does.  For [A, B(error), C] this gives two
    results and no call for [C]. *)
Theorem multi_act_follows_partial_batch
    (actions : list ActionModel) (w : World)
    (results : list ActionResult) (events : list Event) (e' : E) :
  stopped (state w) = false ->
  paused (state w) = false ->
  partial_batch actions (ext w) results events e' ->
  multi_act actions w
  = (Return results,
     mkWorld (state w) (settings w) (_message_manager w) (done_only w)
       (frame w) e' (log w ++ events)%list)
  /\ executed_actions events = firstn (List.length results) actions
  /\ (List.length results <= List.length actions)%nat
  /\ (forall r, In r (removelast results) -> stops r = false)
  /\ ((List.length results < List.length actions)%nat ->
      exists r, In r results /\ last results r = r /\ stops r = true).
Proof.
  intros Hs Hp Hb. split.
  - unfold multi_act.
    apply (multi_act_from_partial_batch actions (ext w) results events e' Hb
             0%nat (List.length actions) [] w eq_refl Hs Hp eq_refl).
  - exact (partial_batch_shape _ _ _ _ _ Hb).
Qed.

End Batch.

(** Witness of [multi_act_follows_partial_batch]: the batch [tap 1,
    bad tap, tap 2], whose second action reports an error; two results, and
    [tap 2] is never handed to the executor. *)
Lemma multi_act_follows_partial_batch_witness :
  exists results w',
    multi_act [Demo.tap 1; Demo.bad_tap; Demo.tap 2] Demo.world_with_one_tap
    = (Return results, w')
    /\ List.length results = 2%nat
    /\ log w' = [EvAct (Demo.tap 1); EvSleep action_delay; EvAct Demo.bad_tap]
    /\ ~ In (Demo.tap 2) (executed_actions (log w')).
Proof.
  assert (Hb : partial_batch [Demo.tap 1; Demo.bad_tap; Demo.tap 2]
                 (ext Demo.world_with_one_tap)
                 [Demo.act_result (Demo.tap 1); Demo.act_result Demo.bad_tap]
                 [EvAct (Demo.tap 1); EvSleep action_delay; EvAct Demo.bad_tap]
                 (ext Demo.world_with_one_tap)).
  { apply (batch_next (Demo.tap 1) [Demo.bad_tap; Demo.tap 2]
             (ext Demo.world_with_one_tap) (Demo.act_result (Demo.tap 1))
             (ext Demo.world_with_one_tap) (ext Demo.world_with_one_tap)
             [Demo.act_result Demo.bad_tap] [EvAct Demo.bad_tap]
             (ext Demo.world_with_one_tap)
             eq_refl eq_refl ltac:(discriminate) eq_refl).
    apply (batch_stop Demo.bad_tap [Demo.tap 2]
             (ext Demo.world_with_one_tap) (Demo.act_result Demo.bad_tap)
             (ext Demo.world_with_one_tap) eq_refl (or_introl eq_refl)). }
  destruct (multi_act_follows_partial_batch _ Demo.world_with_one_tap _ _ _
              eq_refl eq_refl Hb) as [Hrun _].
  eexists. eexists. split; [exact Hrun|].
  split; [reflexivity|]. split; [reflexivity|].
  simpl. intros [H|[H|[]]]; discriminate.
Defined.

(** ** The run loop and the failure limit *)

Section FailureLimit.

Context {X : External}.

Lemma max_failures_step_body si : Keeps the_max_failures (step_body si).
Proof.
  unfold step_body, act_and_record, set_frame_result, guarded_model_call,
    model_call_handlers, model_call, commit_model_output, save_and_commit.
  keeps_by max_failures_call.
Qed.

Lemma max_failures_step_handlers e : Keeps the_max_failures (step_handlers e).
Proof.
  unfold step_handlers, _handle_step_error, set_frame_result.
  destruct e; keeps_by max_failures_call.
Qed.

Lemma max_failures_step si : Keeps the_max_failures (step si).
Proof.
  intros w. unfold step.
  pose proof (keeps_try_except _ the_max_failures (step_body si) step_handlers
                (max_failures_step_body si) max_failures_step_handlers
                (begin_step w)) as H.
  destruct (try_except (step_body si) step_handlers (begin_step w)) as [o w1].
  simpl in H.
  destruct (f_result (frame w1)); [exact H|].
  destruct (f_app_state (frame w1)); exact H.
Qed.

Lemma max_failures_run_iteration max_steps i sh eh :
  Keeps the_max_failures (run_iteration max_steps i sh eh).
Proof.
  unfold run_iteration, maybe_hook.
  apply keeps_bind; [destruct sh; keeps_by max_failures_call|intros _].
  apply keeps_bind; [apply max_failures_step|intros _].
  destruct eh; keeps_by max_failures_call.
Qed.

Lemma wait_not_paused fuel err w :
  paused (state w) = false -> wait_while_paused fuel err w = Some (Return err, w).
Proof. intros Hp. destruct fuel; simpl; rewrite Hp; reflexivity. Qed.

Lemma run_loop_halts fuel max_steps steps sh eh err w :
  too_many_failures w = true ->
  run_loop fuel max_steps steps sh eh err w
  = Some (Return (Some match steps with
                       | [] => "Failed to complete task in maximum steps"
                       | _ :: _ => failures_message w
                       end), w).
Proof.
  intros Hmax. destruct steps as [|i rest]; simpl; [reflexivity|].
  rewrite Hmax. reflexivity.
Qed.

(** A failing step adds one to the counter: its exception reaches
    [_handle_step_error], and the [finally] block leaves the counter
    alone. *)
Lemma failing_step_counts si w :
  step_fails si w = true ->
  consecutive_failures (state (snd (step si w)))
  = consecutive_failures (state w) + 1.
Proof.
  unfold step_fails. intros Hfail.
  fold (the_failures (snd (step si w))) (the_failures w).
  destruct (step_finally si w) as [-> _]. unfold try_except.
  destruct (step_body si (begin_step w)) as [[u|e] wb] eqn:Hbody;
    simpl in Hfail; [discriminate|].
  destruct (step_body_raises _ _ _ _ Hbody) as [Hf Hr].
  change (the_result (begin_step w)) with (@nil ActionResult) in Hr.
  change (the_failures (begin_step w)) with (the_failures w) in Hf.
  pose proof (step_handlers_effect e wb Hr) as He. cbv zeta in He.
  destruct e; simpl in Hfail; try discriminate;
    destruct He as [He _]; rewrite He, Hf; reflexivity.
Qed.

Lemma failing_iteration_counts max_steps sh eh i w w' :
  failing_iteration max_steps sh eh i w w' ->
  consecutive_failures (state w') = consecutive_failures (state w) + 1.
Proof.
  intros [_ [_ [Hrun [Hfail _]]]].
  assert (Hhook : forall present h, Keeps the_failures (maybe_hook present h)).
  { intros present h. unfold maybe_hook. destruct present; keeps_by failures_call. }
  unfold run_iteration, bind in Hrun.
  pose proof (Hhook sh on_step_start w) as H0.
  destruct (maybe_hook sh on_step_start w) as [[u|e] w0]; [|discriminate].
  simpl in H0, Hfail.
  pose proof (failing_step_counts _ _ Hfail) as H1.
  destruct (step (Some (mkStepInfo (Z.of_nat i) max_steps)) w0) as [[u1|e1] w1];
    [|discriminate].
  simpl in H1.
  pose proof (Hhook eh on_step_end w1) as H2.
  destruct (maybe_hook eh on_step_end w1) as [[u2|e2] w2]; [|discriminate].
  inversion Hrun; subst. simpl in H2. unfold the_failures in *. congruence.
Qed.

Lemma run_loop_failing_streak fuel max_steps sh eh n i w w' :
  failing_streak max_steps sh eh i n w w' ->
  consecutive_failures (state w) + Z.of_nat n = max_failures (settings w) ->
  (i + n <= Z.to_nat max_steps)%nat ->
  forall err,
    too_many_failures w' = true
    /\ exists msg,
         run_loop fuel max_steps (seq i (Z.to_nat max_steps - i)) sh eh err w
         = Some (Return (Some msg), w')
         /\ ((i + n < Z.to_nat max_steps)%nat -> msg = failures_message w').
Proof.
  induction 1 as [i w | i n w w1 w2 Hfail Hrest IH]; intros Hcount Hsteps err.
  - assert (Hmax : too_many_failures w = true).
    { unfold too_many_failures. apply Z.geb_le. lia. }
    split; [exact Hmax|].
    rewrite (run_loop_halts _ _ _ _ _ _ _ Hmax). eexists. split; [reflexivity|].
    intros Hlt.
    destruct (seq i (Z.to_nat max_steps - i)) eqn:Hseq; [|reflexivity].
    apply (f_equal (@List.length nat)) in Hseq. rewrite length_seq in Hseq.
    simpl in Hseq. lia.
  - pose proof (failing_iteration_counts _ _ _ _ _ _ Hfail) as Hinc.
    destruct Hfail as [Hs [Hp [Hrun [_ Hdone]]]].
    pose proof (max_failures_run_iteration max_steps i sh eh w) as Hkeep.
    rewrite Hrun in Hkeep. simpl in Hkeep. unfold the_max_failures in Hkeep.
    destruct (IH ltac:(lia) ltac:(lia) err) as [Hmax [msg [Hloop Hmsg]]].
    split; [exact Hmax|]. exists msg. split; [|intros; apply Hmsg; lia].
    replace (Z.to_nat max_steps - i)%nat with (S (Z.to_nat max_steps - S i)) by lia.
    simpl seq. simpl run_loop.
    assert (Hnot : too_many_failures w = false).
    { unfold too_many_failures. rewrite Z.geb_leb. apply Z.leb_gt. lia. }
    rewrite Hnot, Hs, (wait_not_paused _ _ _ Hp), Hrun, Hdone.
    exact Hloop.
Qed.

(** C5, as amended.  In the loop of [run], a round that finds the failure
    counter at or above [max_failures] leaves the loop at once: the world is
    unchanged, so no further step is executed.  And when the counter starts
    [n] below the limit and the steps of [n] consecutive rounds fail, each
    by an exception that reaches [_handle_step_error], the loop ends in the
    world that the [n]-th failing step left, with the counter at the limit;
    unless the steps were used up as well, the reason is "Stopped due to
    max_failures consecutive failures".  With [max_failures = 3] and a
    counter at zero this is the halt on the third failing step.  A step
    whose actions report an error is not a failing step in this sense. *)
Theorem run_halts_at_failure_limit
    (fuel : nat) (max_steps : Z) (start_hook end_hook : bool) :
  (forall steps err w,
     too_many_failures w = true ->
     exists msg,
       run_loop fuel max_steps steps start_hook end_hook err w
       = Some (Return (Some msg), w))
  /\
  (forall n w w',
     failing_streak max_steps start_hook end_hook 0 n w w' ->
     consecutive_failures (state w) + Z.of_nat n = max_failures (settings w) ->
     (n <= Z.to_nat max_steps)%nat ->
     too_many_failures w' = true
     /\ exists msg,
          run_loop fuel max_steps (seq 0 (Z.to_nat max_steps))
            start_hook end_hook None w
          = Some (Return (Some msg), w')
          /\ ((n < Z.to_nat max_steps)%nat -> msg = failures_message w')).
Proof.
  split.
  - intros steps err w Hmax. eexists. apply run_loop_halts. exact Hmax.
  - intros n w w' Hstreak Hcount Hsteps.
    pose proof (run_loop_failing_streak fuel max_steps start_hook end_hook
                  n 0 w w' Hstreak Hcount Hsteps None) as H.
    rewrite Nat.sub_0_r in H. exact H.
Qed.

End FailureLimit.

(** Witness of [run_halts_at_failure_limit]: the model transport never
    yields a parsable response, [max_failures] is 3 and ten steps are
    allowed; the run stops after the third step. *)
Lemma run_halts_at_failure_limit_witness :
  exists w',
    run_loop 0 10 (seq 0 10) false false None Demo.world_without_replies
    = Some (Return (Some "Stopped due to 3 consecutive failures"), w')
    /\ steps_started (log w') = 3%nat
    /\ consecutive_failures (state w') = 3.
Proof.
  set (w0 := Demo.world_without_replies).
  set (w1 := snd (run_iteration 10 0 false false w0)).
  set (w2 := snd (run_iteration 10 1 false false w1)).
  set (w3 := snd (run_iteration 10 2 false false w2)).
  assert (Hstreak : failing_streak 10 false false 0 3 w0 w3).
  { apply (streak_more 10 false false 0 2 w0 w1 w3).
    { split; [vm_compute; reflexivity|]. split; [vm_compute; reflexivity|].
      split; [vm_compute; reflexivity|]. split; vm_compute; reflexivity. }
    apply (streak_more 10 false false 1 1 w1 w2 w3).
    { split; [vm_compute; reflexivity|]. split; [vm_compute; reflexivity|].
      split; [vm_compute; reflexivity|]. split; vm_compute; reflexivity. }
    apply (streak_more 10 false false 2 0 w2 w3 w3).
    { split; [vm_compute; reflexivity|]. split; [vm_compute; reflexivity|].
      split; [vm_compute; reflexivity|]. split; vm_compute; reflexivity. }
    apply streak_none. }
  destruct (proj2 (run_halts_at_failure_limit 0 10 false false) 3%nat w0 w3
              Hstreak eq_refl ltac:(vm_compute; lia))
    as [_ [msg [Hloop Hmsg]]].
  exists w3. split.
  - change (seq 0 10) with (seq 0 (Z.to_nat 10)).
    rewrite Hloop. rewrite Hmsg; [|vm_compute; lia].
    vm_compute. reflexivity.
  - split; vm_compute; reflexivity.
Defined.

(** C5 as it is stated does not hold: a step whose action reports an error
    is a failing step in the words of the specification, and it sets the
    counter to zero.  With [max_failures = 3] and ten steps allowed, ten
    such steps in a row are all executed, and the run ends because the steps
    are used up. *)
Lemma action_errors_never_reach_the_limit_counterexample :
  match run 0 10 [] false false Demo.world_with_action_errors with
  | Some (Return (entries, agent_run_error), w') =>
      agent_run_error = Some "Failed to complete task in maximum steps"
      /\ steps_started (log w') = 10%nat
      /\ List.length entries = 10%nat
      /\ forallb (fun entry =>
                    existsb (fun r => Py.truthy_opt (error r)) (h_result entry))
           entries = true
      /\ consecutive_failures (state w') = 0
  | _ => False
  end.
Proof. vm_compute. repeat split; reflexivity. Qed.

(** ** The planner and the transcript *)

Section Planner.

Context {X : External}.

(** [_run_planner] has no value to return: whenever it returns, the result
    is [None]. *)
Lemma run_planner_returns_none (w : World) (plan : option string) (w' : World) :
  _run_planner w = (Return plan, w') -> plan = None.
Proof.
  unfold _run_planner, bind, get, ret, try_except, py_mod, raise, call,
    of_outcome, new_SystemMessage, _add_message_with_tokens, modify.
  repeat match goal with
         | |- context [if ?b then _ else _] => destruct b; simpl
         | |- context [let (_, _) := ?x in _] => destruct x as [[[?|?] ?] ?]; simpl
         end;
    intros H; inversion H; reflexivity.
Qed.

End Planner.

(** C9 does not hold of the code.  [_run_planner] builds the system prompt
    of the planner from the message object that
    [PlannerPrompt.get_system_message()] returns; [SystemMessage(content=...)]
    refuses it, and the [except Exception] of the method swallows the error.
    So no step ever calls the planner, and the planner phase of a step,
    [_run_planner] followed by [add_plan(plan, position=-1)], leaves the
    transcript as it is.  With a planner in reasoning mode and the interval
    condition met, the transcript after staging holds the task and the state
    message and no guidance, and the only calls were for the app state;
    without reasoning mode it is the same. *)
Theorem planner_is_never_consulted :
  (forall (X : External) (si : option AgentStepInfo) (w : World),
     the_planner_calls (snd (step si w)) = the_planner_calls w)
  /\ (forall (X : External) (w : World),
        let w' := snd ((plan <- _run_planner ;; add_plan plan (-1)) w) in
        _message_manager w' = _message_manager w)
  /\ (let staged := snd (stage_state None (begin_step Demo.world_with_planner)) in
      let plain := snd (stage_state None (begin_step Demo.world_with_plain_planner)) in
      messages (_message_manager staged)
      = [Demo.task_message; mkManaged (HumanMessage "<app_state>") true]
      /\ log staged = [EvLogStep 1; EvGetAppState; EvGetAppState]
      /\ messages (_message_manager plain) = messages (_message_manager staged)
      /\ log plain = log staged).
Proof.
  split; [|split].
  - intros X si w. unfold the_planner_calls.
    apply (selected_whole_step is_planner_call); intros; reflexivity.
  - intros X w. cbv zeta. unfold bind.
    pose proof (keeps_run_planner _ (fun w0 : World => _message_manager w0)
                  ltac:(intros cs e ev w0; reflexivity) w) as Hk.
    destruct (_run_planner w) as [[plan|e] w1] eqn:Hp; simpl in Hk |- *.
    + rewrite (run_planner_returns_none _ _ _ Hp). exact Hk.
    + exact Hk.
  - cbv zeta. split; [vm_compute; reflexivity|].
    split; [vm_compute; reflexivity|].
    split; vm_compute; reflexivity.
Qed.

(** * Further properties of the step engine *)

Section StepOutcome.

Context {X : External}.

(** X1.  [step] never raises.  Its [finally] block returns when the local
    [result] is empty, and [result] is empty whenever an exception is still
    on its way out: the [InterruptedError] raised for a cancelled step, an
    exception raised by the error handler itself and a [KeyboardInterrupt]
    all end in a normal return. *)
Theorem step_never_raises (si : option AgentStepInfo) (w : World) :
  fst (step si w) = Return tt.
Proof.
  unfold step, try_except.
  destruct (step_body si (begin_step w)) as [[[]|e] wb] eqn:Hbody.
  - destruct (f_result (frame wb)); [reflexivity|].
    destruct (f_app_state (frame wb)); reflexivity.
  - destruct (step_body_raises _ _ _ _ Hbody) as [_ Hr].
    change (the_result (begin_step w)) with (@nil ActionResult) in Hr.
    assert (H : forall o w1, step_handlers e wb = (o, w1) ->
                  o = Return tt \/ f_result (frame w1) = []).
    { intros o w1. unfold step_handlers.
      assert (Hord : (result <- _handle_step_error e ;;
                      set_frame_result result ;;
                      modify (with_state (set_last_result result))) wb = (o, w1) ->
                     o = Return tt \/ f_result (frame w1) = []).
      { unfold bind.
        pose proof (handle_step_error_result e wb) as Hk.
        destruct (_handle_step_error e wb) as [[rs|e'] w2]; simpl in Hk.
        - intros H. inversion H. left. reflexivity.
        - intros H. inversion H; subst. right.
          unfold the_result in *. congruence. }
      destruct e; simpl; try exact Hord;
        intros H; inversion H; subst; auto. }
    destruct (step_handlers e wb) as [o w1].
    destruct (H o w1 eq_refl) as [->|Hempty].
    + destruct (f_result (frame w1)); [reflexivity|].
      destruct (f_app_state (frame w1)); reflexivity.
    + rewrite Hempty. reflexivity.
Qed.

Lemma history_deliver (cs : list Control) : forall s,
  history (fold_left deliver cs s) = history s.
Proof.
  induction cs as [|c cs IH]; intros s; simpl; [reflexivity|].
  rewrite IH. destruct c; reflexivity.
Qed.

Lemma history_call : CallStable the_history.
Proof. intros cs e ev w. apply history_deliver. Qed.

Lemma history_step_body si : Keeps the_history (step_body si).
Proof.
  unfold step_body, act_and_record, set_frame_result, guarded_model_call,
    model_call_handlers, model_call, commit_model_output, save_and_commit.
  keeps_by history_call.
Qed.

Lemma history_step_handlers e : Keeps the_history (step_handlers e).
Proof.
  unfold step_handlers, _handle_step_error, set_frame_result.
  destruct e; keeps_by history_call.
Qed.

(** X2.  A step appends at most one entry to the history and changes no earlier
    entry.  It appends one exactly when its [result] is not empty and the
    app state had been captured; the entry then holds that result and the
    model output of the step. *)
Theorem step_appends_at_most_one_entry (si : option AgentStepInfo) (w : World) :
  let w' := snd (step si w) in
  match f_result (frame w'), f_app_state (frame w') with
  | _ :: _, Some app_state =>
      exists metadata,
        history (state w')
        = (history (state w)
           ++ [mkAgentHistory (f_model_output (frame w')) (f_result (frame w'))
                 app_state metadata])%list
  | _, _ => history (state w') = history (state w)
  end.
Proof.
  cbv zeta. unfold step.
  pose proof (keeps_try_except _ the_history (step_body si) step_handlers
                (history_step_body si) history_step_handlers (begin_step w)) as Hk.
  change (the_history (begin_step w)) with (history (state w)) in Hk.
  destruct (try_except (step_body si) step_handlers (begin_step w)) as [o w1].
  simpl in Hk. unfold the_history in Hk.
  destruct (f_result (frame w1)) as [|r rs] eqn:Hr; simpl.
  - rewrite Hr. exact Hk.
  - destruct (f_app_state (frame w1)) as [a|] eqn:Ha; simpl.
    + rewrite Hr, Ha. eexists. rewrite Hk. reflexivity.
    + rewrite Hr, Ha. exact Hk.
Qed.


End StepOutcome.

Section BatchOutcome.

Context {X : External}.

Local Arguments multi_act_from : simpl never.

(** What a round of the batch loop can produce: an exception other than
    [CancelledError], or the results so far followed by the result of its
    action. *)
Lemma multi_act_round_outcome i len a done w :
  match fst (multi_act_round i len a done w) with
  | Return (Break rs) | Return (Continue rs) => exists r, rs = (done ++ [r])%list
  | Raise e => e <> CancelledError
  end.
Proof.
  unfold multi_act_round, try_except, bind, _raise_if_stopped_or_paused,
    call, ret, raise.
  destruct (stopped (state w) || paused (state w)); simpl; [discriminate|].
  destruct (controller_act a (ext w)) as [[[r|e] cs] e1]; simpl.
  - destruct (is_done r || Py.truthy_opt (error r) || Nat.eqb i (len - 1)); simpl.
    + eauto.
    + destruct (asyncio_sleep action_delay e1) as [[[u|e] cs2] e2]; simpl.
      * eauto.
      * destruct e; simpl; discriminate.
  - destruct e; simpl; discriminate.
Qed.

Lemma multi_act_from_outcome actions : forall i len done w,
  match fst (multi_act_from i len actions done w) with
  | Return rs =>
      exists new,
        rs = (done ++ new)%list
        /\ (List.length new <= List.length actions)%nat
        /\ (actions <> [] -> new <> [])
  | Raise e => e <> CancelledError
  end.
Proof.
  induction actions as [|a rest IH]; intros i len done w.
  - unfold multi_act_from, ret. simpl. exists []. rewrite app_nil_r.
    split; [reflexivity|]. split; [simpl; lia | congruence].
  - rewrite multi_act_from_cons. unfold bind.
    pose proof (multi_act_round_outcome i len a done w) as Hround.
    destruct (multi_act_round i len a done w) as [[[rs|rs]|e] w1]; simpl in Hround.
    + destruct Hround as [r ->]. unfold ret. simpl. exists [r].
      split; [reflexivity|]. split; [simpl; lia | discriminate].
    + destruct Hround as [r ->].
      specialize (IH (S i) len (done ++ [r])%list w1).
      destruct (multi_act_from (S i) len rest (done ++ [r]) w1) as [[rs|e] w2];
        simpl in IH |- *.
      * destruct IH as [new [-> [Hlen _]]]. exists (r :: new).
        split; [now rewrite <- app_assoc|]. split; [simpl; lia | discriminate].
      * exact IH.
    + simpl. exact Hround.
Qed.

(** X4.  [multi_act] never raises [CancelledError]: a cancellation is turned
    into [InterruptedError].  When it returns, there is at most one result
    per action, and at least one result unless the batch is empty. *)
Theorem multi_act_outcome (actions : list ActionModel) (w : World) :
  match fst (multi_act actions w) with
  | Return results =>
      (List.length results <= List.length actions)%nat
      /\ (actions <> [] -> results <> [])
  | Raise e => e <> CancelledError
  end.
Proof.
  unfold multi_act.
  pose proof (multi_act_from_outcome actions 0%nat (List.length actions) [] w) as H.
  destruct (multi_act_from 0 (List.length actions) actions [] w) as [[rs|e] w1];
    simpl in H |- *; [|exact H].
  destruct H as [new [-> H]]. exact H.
Qed.

(** X5.  Also when the batch is interrupted or an action raises, the actions
    handed to the executor are the first actions of the batch, in their
    order: no action is skipped over, repeated or run out of turn. *)
Theorem multi_act_runs_actions_in_order (actions : list ActionModel) (w : World) :
  exists (k : nat) (events : list Event),
    log (snd (multi_act actions w)) = (log w ++ events)%list
    /\ executed_actions events = firstn k actions.
Proof. apply multi_act_from_executes_prefix. Qed.

End BatchOutcome.

Section StoppedAgent.

Context {X : External}.

Lemma stopped_deliver (cs : list Control) : forall s,
  stopped s = true -> stopped (fold_left deliver cs s) = true.
Proof.
  induction cs as [|c cs IH]; intros s Hs; simpl; [exact Hs|].
  apply IH. destruct c; simpl; auto.
Qed.

(** No control request takes a stop back: [pause] and [resume] leave the
    flag alone, and once it is set it stays set. *)
Lemma stop_is_final (cs : list Control) (s : AgentState) :
  stopped (fold_left deliver (CtlStop :: cs) s) = true.
Proof. simpl. apply stopped_deliver. reflexivity. Qed.

Lemma bind_raises {A B} (c : M A) (k : A -> M B) w e w' :
  c w = (Raise e, w') -> bind c k w = (Raise e, w').
Proof. intros H. unfold bind. now rewrite H. Qed.

Lemma bind_returns {A B} (c : M A) (k : A -> M B) w a w' :
  c w = (Return a, w') -> bind c k w = k a w'.
Proof. intros H. unfold bind. now rewrite H. Qed.

(** With the stop flag set, the staging of a step raises before the state
    message is built; it has called only the app-state provider and
    possibly the memory. *)
Lemma stage_state_stopped si w :
  stopped (state w) = true ->
  exists e w' events,
    stage_state si w = (Raise e, w')
    /\ log w' = (log w ++ events)%list
    /\ existsb reaches_out events = false.
Proof.
  intros Hs. unfold stage_state.
  destruct (call EvGetAppState get_app_state w) as [[a|e] w1] eqn:H1.
  - assert (Hs1 : stopped (state w1) = true /\ log w1 = (log w ++ [EvGetAppState])%list).
    { unfold call in H1. destruct (get_app_state (ext w)) as [r e1].
      inversion H1; subst. simpl. split; [now apply stopped_deliver | reflexivity]. }
    destruct Hs1 as [Hs1 Hl1].
    rewrite (bind_returns _ _ _ _ _ H1).
    unfold set_frame_app_state. unfold bind at 1. unfold modify at 1.
    unfold bind at 1. unfold get at 1. unfold bind at 1. unfold get at 1.
    set (w2 := with_frame _ w1).
    assert (Hs2 : stopped (state w2) = true) by exact Hs1.
    assert (Hl2 : log w2 = (log w ++ [EvGetAppState])%list) by exact Hl1.
    clearbody w2.
    destruct (memory_interval (settings w2)) as [k|].
    + unfold bind at 1. unfold py_mod.
      destruct (k =? 0).
      * simpl. exists ZeroDivisionError, w2, [EvGetAppState]. auto.
      * unfold bind at 1. unfold ret at 1.
        destruct (n_steps (state w2) mod k =? 0).
        -- destruct (call (EvMemory (n_steps (state w2)))
                       (create_procedural_memory (n_steps (state w2))) w2)
             as [[u|e] w3] eqn:H3.
           ++ assert (Hs3 : stopped (state w3) = true
                            /\ log w3 = (log w ++ [EvGetAppState; EvMemory (n_steps (state w2))])%list).
              { unfold call in H3.
                destruct (create_procedural_memory (n_steps (state w2)) (ext w2)) as [r e3].
                inversion H3; subst. simpl. split; [now apply stopped_deliver|].
                rewrite Hl2, <- app_assoc. reflexivity. }
              destruct Hs3 as [Hs3 Hl3].
              unfold bind at 1. unfold _raise_if_stopped_or_paused.
              rewrite Hs3. simpl.
              exists (InterruptedError EmptyString), w3,
                [EvGetAppState; EvMemory (n_steps (state w2))]. auto.
           ++ assert (Hl3 : log w3 = (log w ++ [EvGetAppState; EvMemory (n_steps (state w2))])%list).
              { unfold call in H3.
                destruct (create_procedural_memory (n_steps (state w2)) (ext w2)) as [r e3].
                inversion H3; subst. simpl. rewrite Hl2, <- app_assoc. reflexivity. }
              exists e, w3, [EvGetAppState; EvMemory (n_steps (state w2))]. auto.
        -- unfold ret at 1. unfold bind at 1. unfold _raise_if_stopped_or_paused.
           rewrite Hs2. simpl.
           exists (InterruptedError EmptyString), w2, [EvGetAppState]. auto.
    + unfold bind at 1. unfold ret at 1. unfold bind at 1.
      unfold _raise_if_stopped_or_paused. rewrite Hs2. simpl.
      exists (InterruptedError EmptyString), w2, [EvGetAppState]. auto.
  - rewrite (bind_raises _ _ _ _ _ H1).
    exists e, w1, [EvGetAppState]. split; [reflexivity|].
    unfold call in H1. destruct (get_app_state (ext w)) as [r e1].
    inversion H1; subst. simpl. auto.
Qed.

Lemma step_handlers_log e w :
  exists events,
    log (snd (step_handlers e w)) = (log w ++ events)%list
    /\ existsb reaches_out events = false.
Proof.
  assert (Hnone : forall w', log w' = log w ->
            exists events, log w' = (log w ++ events)%list
                           /\ existsb reaches_out events = false).
  { intros w' H. exists []. rewrite app_nil_r. auto. }
  unfold step_handlers, _handle_step_error, bind, modify, get, ret, raise,
    set_frame_result, call.
  destruct e; simpl;
    repeat match goal with
           | |- context [if ?b then _ else _] => destruct b; simpl
           end;
    try (apply Hnone; reflexivity).
  destruct (asyncio_sleep (inject_Z (retry_delay (settings w))) (ext w))
    as [[[u|e] cs] e1]; simpl;
    exists [EvSleep (inject_Z (retry_delay (settings w)))]; auto.
Qed.

(** X6.  A stopped agent does nothing in a step: the step reads the app state
    (and possibly writes the memory), and then ends without a call to the
    model, the planner or the action executor and without a saved
    conversation; the step counter stays as it is. *)
Theorem stopped_agent_step_reaches_nothing (si : option AgentStepInfo) (w : World) :
  stopped (state w) = true ->
  let w' := snd (step si w) in
  (exists events,
     log w' = (log w ++ events)%list /\ existsb reaches_out events = false)
  /\ n_steps (state w') = n_steps (state w).
Proof.
  intros Hs. cbv zeta. split.
  - unfold step, try_except.
    destruct (stage_state_stopped si (begin_step w) Hs)
      as [e [w1 [events1 [Hstage [Hlog1 Hq1]]]]].
    assert (Hbody : step_body si (begin_step w) = (Raise e, w1)).
    { unfold step_body. now apply bind_raises. }
    rewrite Hbody.
    destruct (step_handlers_log e w1) as [events2 [Hlog2 Hq2]].
    destruct (step_handlers e w1) as [o w2]. simpl in Hlog2.
    exists (EvLogStep (n_steps (state w)) :: events1 ++ events2)%list.
    assert (Hlog : log w2
                   = (log w ++ EvLogStep (n_steps (state w)) :: events1 ++ events2)%list).
    { rewrite Hlog2, Hlog1. simpl. rewrite <- !app_assoc. reflexivity. }
    split.
    + destruct (f_result (frame w2)); [exact Hlog|].
      destruct (f_app_state (frame w2)); exact Hlog.
    + simpl. rewrite existsb_app, Hq1, Hq2. reflexivity.
  - fold (the_n_steps (snd (step si w))). rewrite step_n_steps.
    destruct (stage_state_stopped si (begin_step w) Hs)
      as [e [w1 [events1 [Hstage _]]]].
    assert (Hbody : step_body si (begin_step w) = (Raise e, w1)).
    { unfold step_body. now apply bind_raises. }
    rewrite Hbody. simpl.
    pose proof (keeps_stage_state _ the_n_steps n_steps_call
                  ltac:(intros; reflexivity) ltac:(intros; reflexivity)
                  ltac:(intros; reflexivity) ltac:(intros; reflexivity)
                  si (begin_step w)) as Hk.
    rewrite Hstage in Hk. exact Hk.
Qed.

End StoppedAgent.

Section RunOutcome.

Context {X : External}.

Lemma step_history_grows si w :
  exists added,
    the_history (snd (step si w)) = (the_history w ++ added)%list
    /\ (List.length added <= 1)%nat.
Proof.
  unfold step.
  pose proof (keeps_try_except _ the_history (step_body si) step_handlers
                (history_step_body si) history_step_handlers (begin_step w)) as Hk.
  change (the_history (begin_step w)) with (the_history w) in Hk.
  destruct (try_except (step_body si) step_handlers (begin_step w)) as [o w1].
  simpl in Hk.
  assert (Hsame : exists added,
            the_history w1 = (the_history w ++ added)%list
            /\ (List.length added <= 1)%nat).
  { exists []. rewrite app_nil_r. split; [exact Hk | simpl; lia]. }
  destruct (f_result (frame w1)) as [|r rs]; simpl; [exact Hsame|].
  destruct (f_app_state (frame w1)) as [a|]; simpl; [|exact Hsame].
  eexists. unfold the_history in *. simpl. rewrite Hk.
  split; [reflexivity | simpl; lia].
Qed.

Lemma history_maybe_hook present h : Keeps the_history (maybe_hook present h).
Proof. unfold maybe_hook. destruct present; keeps_by history_call. Qed.

Lemma run_iteration_history_grows max_steps i sh eh w :
  exists added,
    the_history (snd (run_iteration max_steps i sh eh w))
    = (the_history w ++ added)%list
    /\ (List.length added <= 1)%nat.
Proof.
  unfold run_iteration, bind.
  pose proof (history_maybe_hook sh on_step_start w) as H1.
  destruct (maybe_hook sh on_step_start w) as [[u|e] w1]; simpl in H1.
  - destruct (step_history_grows (Some (mkStepInfo (Z.of_nat i) max_steps)) w1)
      as [added [H2 Hlen]].
    destruct (step (Some (mkStepInfo (Z.of_nat i) max_steps)) w1) as [[u2|e2] w2];
      simpl in H2.
    + pose proof (history_maybe_hook eh on_step_end w2) as H3.
      exists added. split; [|exact Hlen].
      destruct (maybe_hook eh on_step_end w2) as [o3 w3]. simpl in *.
      destruct o3; simpl; congruence.
    + exists added. simpl. split; [congruence | exact Hlen].
  - exists []. simpl. rewrite app_nil_r. split; [exact H1 | simpl; lia].
Qed.

Lemma wait_while_paused_history fuel : forall err w o w',
  wait_while_paused fuel err w = Some (o, w') -> the_history w' = the_history w.
Proof.
  induction fuel as [|fuel IH]; intros err w o w'; simpl.
  - destruct (paused (state w)); [discriminate|].
    intros H. inversion H. reflexivity.
  - destruct (paused (state w)).
    + pose proof (keeps_call _ the_history history_call (EvSleep poll_interval)
                    (asyncio_sleep poll_interval) w) as Hk.
      destruct (call (EvSleep poll_interval) (asyncio_sleep poll_interval) w)
        as [[u|e] w1]; simpl in Hk.
      * destruct (stopped (state w1)).
        -- intros H. inversion H; subst. exact Hk.
        -- intros H. rewrite (IH _ _ _ _ H). exact Hk.
      * intros H. inversion H; subst. exact Hk.
    + intros H. inversion H. reflexivity.
Qed.

Lemma run_loop_history_grows fuel max_steps sh eh steps : forall err w o w',
  run_loop fuel max_steps steps sh eh err w = Some (o, w') ->
  exists added,
    the_history w' = (the_history w ++ added)%list
    /\ (List.length added <= List.length steps)%nat.
Proof.
  induction steps as [|i rest IH]; intros err w o w'; simpl.
  - intros H. inversion H. exists []. rewrite app_nil_r. simpl. auto.
  - assert (Hnone : exists added,
              the_history w = (the_history w ++ added)%list
              /\ (List.length added <= S (List.length rest))%nat).
    { exists []. rewrite app_nil_r. simpl. split; [reflexivity | lia]. }
    destruct (too_many_failures w); [intros H; inversion H; subst; exact Hnone|].
    destruct (stopped (state w)); [intros H; inversion H; subst; exact Hnone|].
    destruct (wait_while_paused fuel err w) as [[[err1|e1] w1]|] eqn:Hwait;
      [| |discriminate].
    + pose proof (wait_while_paused_history _ _ _ _ _ Hwait) as Hw.
      destruct (run_iteration_history_grows max_steps i sh eh w1)
        as [added1 [H1 Hlen1]].
      destruct (run_iteration max_steps i sh eh w1) as [[u|e2] w2]; simpl in H1.
      * destruct (history_is_done (history (state w2))).
        -- intros H. inversion H; subst. exists added1.
           split; [congruence | lia].
        -- intros H. destruct (IH _ _ _ _ H) as [added2 [H2 Hlen2]].
           exists (added1 ++ added2)%list. split.
           ++ rewrite H2, H1, Hw, app_assoc. reflexivity.
           ++ rewrite length_app. lia.
      * intros H. inversion H; subst. exists added1. split; [congruence | lia].
    + intros H. inversion H; subst.
      rewrite (wait_while_paused_history _ _ _ _ _ Hwait). exact Hnone.
Qed.

Lemma history_run_cleanup : Keeps the_history run_cleanup.
Proof. unfold run_cleanup, close. keeps_by history_call. Qed.

(** X7.  The history only grows during a run, and by at most [max_steps]
    entries: earlier entries are never changed, removed or reordered, and a
    step adds one entry at most. *)
Theorem run_appends_at_most_max_steps_entries
    (fuel : nat) (max_steps : Z) (initial_actions : list ActionModel)
    (start_hook end_hook : bool) (w : World)
    (o : Outcome (list AgentHistory * option string)) (w' : World) :
  run fuel max_steps initial_actions start_hook end_hook w = Some (o, w') ->
  exists added,
    history (state w') = (history (state w) ++ added)%list
    /\ (List.length added <= Z.to_nat max_steps)%nat.
Proof.
  unfold run.
  set (init := match initial_actions with
               | [] => ret tt
               | _ :: _ =>
                   result <- multi_act initial_actions ;;
                   modify (with_state (set_last_result result))
               end).
  assert (Hinit : Keeps the_history init).
  { unfold init. destruct initial_actions; keeps_by history_call. }
  specialize (Hinit w).
  destruct (init w) as [[u|e] w0]; simpl in Hinit.
  - destruct (run_loop fuel max_steps (seq 0 (Z.to_nat max_steps))
                start_hook end_hook None w0) as [[o1 w1]|] eqn:Hloop;
      [|discriminate].
    destruct (run_loop_history_grows _ _ _ _ _ _ _ _ _ Hloop) as [added [H1 Hlen]].
    rewrite length_seq in Hlen.
    pose proof (history_run_cleanup w1) as Hc.
    destruct (run_cleanup w1) as [[u2|e2] w2]; simpl in Hc;
      intros H; inversion H; subst; exists added;
      unfold the_history in *; split; try congruence; exact Hlen.
  - pose proof (history_run_cleanup w0) as Hc.
    destruct (run_cleanup w0) as [[u2|e2] w2]; simpl in Hc;
      intros H; inversion H; subst; exists [];
      unfold the_history in *; rewrite app_nil_r; split; try congruence;
      simpl; lia.
Qed.

(** X8.  Whenever [run] comes to an end, by completion, by the failure limit, by
    a stop, by used-up steps or by an exception, the app has been closed:
    the call of [app.close()] is the last call of the run, or the last but
    one before the history GIF is written. *)
Theorem run_always_closes_the_app
    (fuel : nat) (max_steps : Z) (initial_actions : list ActionModel)
    (start_hook end_hook : bool) (w : World)
    (o : Outcome (list AgentHistory * option string)) (w' : World) :
  run fuel max_steps initial_actions start_hook end_hook w = Some (o, w') ->
  exists earlier,
    log w' = (earlier ++ [EvClose])%list
    \/ log w' = (earlier ++ [EvClose; EvGif])%list.
Proof.
  unfold run.
  assert (Hclean : forall w1 o2 w2, run_cleanup w1 = (o2, w2) ->
            exists earlier,
              log w2 = (earlier ++ [EvClose])%list
              \/ log w2 = (earlier ++ [EvClose; EvGif])%list).
  { intros w1 o2 w2. unfold run_cleanup, close, try_except, bind, call, get,
      ret, raise.
    destruct (app_close (ext w1)) as [[[u|e] cs] e1]; simpl.
    - destruct (generate_gif (settings w1)); simpl.
      + destruct (create_history_gif e1) as [[o3 cs3] e3]. simpl.
        intros H. inversion H; subst. simpl. exists (log w1). right.
        rewrite <- app_assoc. reflexivity.
      + intros H. inversion H; subst. simpl. exists (log w1). left. reflexivity.
    - destruct (is_Exception e); simpl.
      + destruct (generate_gif (settings w1)); simpl.
        * destruct (create_history_gif e1) as [[o3 cs3] e3]. simpl.
          intros H. inversion H; subst. simpl. exists (log w1). right.
          rewrite <- app_assoc. reflexivity.
        * intros H. inversion H; subst. simpl. exists (log w1). left. reflexivity.
      + intros H. inversion H; subst. simpl. exists (log w1). left. reflexivity. }
  set (init := match initial_actions with
               | [] => ret tt
               | _ :: _ =>
                   result <- multi_act initial_actions ;;
                   modify (with_state (set_last_result result))
               end).
  destruct (init w) as [[u|e] w0].
  - destruct (run_loop fuel max_steps (seq 0 (Z.to_nat max_steps))
                start_hook end_hook None w0) as [[o1 w1]|]; [|discriminate].
    destruct (run_cleanup w1) as [[u2|e2] w2] eqn:Hc;
      intros H; inversion H; subst; eapply Hclean; exact Hc.
  - destruct (run_cleanup w0) as [[u2|e2] w2] eqn:Hc;
      intros H; inversion H; subst; eapply Hclean; exact Hc.
Qed.

End RunOutcome.

(** * Further properties of the negotiation *)

Section NegotiationOutcome.

Import ToolCalling.
Import Connection.

Variable probe : option ToolCallingMethod -> bool.
Variable fault : ToolCallingMethod -> option exn.
Variable is_model_without_tool_support : string -> bool.

Lemma detect_outcome env order llm :
  match _detect_best_tool_calling_method probe fault env order llm with
  | (Return m, llm') => llm' = adopt m llm /\ In m methods_to_try
  | (Raise _, llm') => llm' = llm
  end.
Proof.
  unfold _detect_best_tool_calling_method.
  assert (Hfirst : forall results i ms m,
            first_success i ms results = Some m -> In m ms).
  { intros results i ms. revert i.
    induction ms as [|x ms IH]; intros i m; simpl; [discriminate|].
    destruct (nth_error results i) as [[[m0 [|]|e]|]|];
      try (intros H; right; exact (IH _ _ H)).
    intros H. inversion H. auto. }
  assert (Hseq : forall ms m, first_sequential probe ms = Some m -> In m ms).
  { induction ms as [|x ms IH]; intros m; simpl; [discriminate|].
    destruct (probe (Some x)).
    - intros H. inversion H. auto.
    - intros H. right. exact (IH _ H). }
  destruct (parallel_results probe fault env order) as [results|e].
  - destruct (first_success 0 methods_to_try results) as [m|] eqn:H; [|reflexivity].
    split; [reflexivity | exact (Hfirst _ _ _ _ H)].
  - destruct (is_Exception e); [|reflexivity].
    destruct (first_sequential probe methods_to_try) as [m|] eqn:H; [|reflexivity].
    split; [reflexivity | exact (Hseq _ _ H)].
Qed.

(** X9.  A method that [_set_tool_calling_method] returns, on whatever path
    (explicit request, cache, table of known methods, detection), is the one
    cached on the LLM object afterwards; a later call with the request
    [auto] returns it again without any probe and leaves the object as it
    is.  A call that raises leaves the object untouched. *)
Theorem negotiated_method_is_cached
    (requested : option ToolCallingMethod)
    (chat_model_library model_name : string)
    (env : LoopEnv) (completion_order : list nat) (llm : LlmAttrs) :
  match _set_tool_calling_method probe fault is_model_without_tool_support
          requested chat_model_library model_name env completion_order llm with
  | (Return method, llm') =>
      _verified_tool_calling_method llm' = Some method
      /\ forall probe' fault' table' library' name' env' order',
           _set_tool_calling_method probe' fault' table' (Some auto)
             library' name' env' order' llm'
           = (Return method, llm')
  | (Raise _, llm') => llm' = llm
  end.
Proof.
  assert (Hcached : forall method llm',
            _verified_tool_calling_method llm' = Some method ->
            _verified_tool_calling_method llm' = Some method
            /\ forall probe' fault' table' library' name' env' order',
                 _set_tool_calling_method probe' fault' table' (Some auto)
                   library' name' env' order' llm'
                 = (Return method, llm')).
  { intros method llm' H. split; [exact H|]. intros.
    unfold _set_tool_calling_method. simpl. rewrite H. reflexivity. }
  unfold _set_tool_calling_method.
  destruct (negb (setting_eqb requested auto)).
  - destruct (api_keys_verified llm); [apply Hcached; reflexivity|].
    destruct (negb (probe requested)).
    + destruct (setting_eqb requested raw); reflexivity.
    + apply Hcached. reflexivity.
  - destruct (_verified_tool_calling_method llm) as [cached|] eqn:Hc.
    + apply Hcached. exact Hc.
    + pose proof (detect_outcome env completion_order llm) as Hd.
      assert (Hdetect :
        match
          match _detect_best_tool_calling_method probe fault env completion_order llm with
          | (Return m, llm') => (Return (Some m), llm')
          | (Raise e, llm') => (Raise e, llm')
          end
        with
        | (Return method, llm') =>
            _verified_tool_calling_method llm' = Some method
            /\ forall probe' fault' table' library' name' env' order',
                 _set_tool_calling_method probe' fault' table' (Some auto)
                   library' name' env' order' llm'
                 = (Return method, llm')
        | (Raise _, llm') => llm' = llm
        end).
      { destruct (_detect_best_tool_calling_method probe fault env completion_order llm)
          as [[m|e] llm'].
        - destruct Hd as [-> _]. apply Hcached. reflexivity.
        - exact Hd. }
      destruct (_get_known_tool_calling_method is_model_without_tool_support
                  chat_model_library model_name) as [known|]; [|exact Hdetect].
      destruct (api_keys_verified llm); [apply Hcached; reflexivity|].
      destruct (probe (Some known)); [apply Hcached; reflexivity | exact Hdetect].
Qed.

(** X10.  The request [auto] never yields [auto] itself or an undefined method:
    without a cached value the answer is one of [function_calling],
    [tools], [json_mode] and [raw]. *)
Theorem auto_request_yields_a_concrete_method
    (chat_model_library model_name : string)
    (env : LoopEnv) (completion_order : list nat) (llm : LlmAttrs) :
  _verified_tool_calling_method llm = None ->
  match fst (_set_tool_calling_method probe fault is_model_without_tool_support
               (Some auto) chat_model_library model_name env completion_order llm) with
  | Return method => exists m, method = Some m /\ In m methods_to_try
  | Raise _ => True
  end.
Proof.
  intros Hc. unfold _set_tool_calling_method. simpl. rewrite Hc.
  pose proof (detect_outcome env completion_order llm) as Hd.
  assert (Hdetect :
    match
      fst match _detect_best_tool_calling_method probe fault env completion_order llm with
          | (Return m, llm') => (Return (Some m), llm')
          | (Raise e, llm') => (Raise e, llm')
          end
    with
    | Return method => exists m, method = Some m /\ In m methods_to_try
    | Raise _ => True
    end).
  { destruct (_detect_best_tool_calling_method probe fault env completion_order llm)
      as [[m|e] llm']; simpl; [|exact I].
    destruct Hd as [_ Hin]. eauto. }
  assert (Hknown : forall m,
            _get_known_tool_calling_method is_model_without_tool_support
              chat_model_library model_name = Some m -> In m methods_to_try).
  { intros m. unfold _get_known_tool_calling_method, methods_to_try.
    repeat match goal with
           | |- context [if ?b then _ else _] => destruct b
           end;
      intros H; inversion H; simpl; auto. }
  destruct (_get_known_tool_calling_method is_model_without_tool_support
              chat_model_library model_name) as [known|] eqn:Hk; [|exact Hdetect].
  assert (Hin : exists m, Some known = Some m /\ In m methods_to_try).
  { exists known. split; [reflexivity | apply Hknown; reflexivity]. }
  destruct (api_keys_verified llm); simpl; [exact Hin|].
  destruct (probe (Some known)); simpl; [exact Hin | exact Hdetect].
Qed.

(** X11.  For the six chat-model classes that the table of known methods names,
    the answer is never [raw], whatever [is_model_without_tool_support] says
    of the model: that test is only reached for other classes. *)
Theorem listed_libraries_never_get_raw (chat_model_library model_name : string) :
  In chat_model_library
     ["ChatOpenAI"; "ChatGroq"; "AzureChatOpenAI"; "ChatGoogleGenerativeAI";
      "ChatAnthropic"; "AnthropicChat"] ->
  _get_known_tool_calling_method is_model_without_tool_support
    chat_model_library model_name <> Some raw.
Proof.
  intros Hin. unfold _get_known_tool_calling_method.
  destruct (String.eqb_spec chat_model_library "ChatOpenAI") as [_|H1];
    [repeat match goal with
            | |- context [if ?b then _ else _] => destruct b
            end; discriminate|].
  destruct (String.eqb_spec chat_model_library "ChatGroq") as [_|H2];
    [repeat match goal with
            | |- context [if ?b then _ else _] => destruct b
            end; discriminate|].
  destruct (String.eqb_spec chat_model_library "AzureChatOpenAI") as [_|H3];
    [repeat match goal with
            | |- context [if ?b then _ else _] => destruct b
            end; discriminate|].
  destruct (String.eqb_spec chat_model_library "ChatGoogleGenerativeAI") as [_|H4];
    [discriminate|].
  destruct (String.eqb_spec chat_model_library "ChatAnthropic") as [_|H5];
    [simpl;
     repeat match goal with
            | |- context [if ?b then _ else _] => destruct b
            end; discriminate|].
  destruct (String.eqb_spec chat_model_library "AnthropicChat") as [_|H6];
    [simpl;
     repeat match goal with
            | |- context [if ?b then _ else _] => destruct b
            end; discriminate|].
  simpl in Hin. intuition congruence.
Qed.

(** X12.  The connection check and the flag on the LLM object agree: the check
    returns [True] exactly when it leaves [_verified_api_keys] at [True], and
    [False] when it leaves it at [False].  It raises only what is not an
    [Exception], and then changes nothing. *)
Theorem connection_check_agrees_with_flag
    (skip : bool) (invoke : Outcome string) (llm : LlmAttrs) :
  match _verify_llm_connection skip invoke llm with
  | (Return verified, llm') =>
      _verified_api_keys llm' = Some verified
      /\ _verified_tool_calling_method llm' = _verified_tool_calling_method llm
  | (Raise e, llm') => is_Exception e = false /\ llm' = llm
  end.
Proof.
  unfold _verify_llm_connection.
  destruct (api_keys_verified llm || skip); [split; reflexivity|].
  destruct invoke as [content|e].
  - destruct (Py.contains "paris" (lower content)); split; reflexivity.
  - destruct (is_Exception e) eqn:He; split; auto.
Qed.

(** X13.  In [Agent.__init__] the negotiation runs before the connection check.
    When the request is [auto] and nothing is cached, a negotiation that
    returns has found the API keys verified already or has probed the
    model successfully, so the connection check that follows succeeds
    without asking the model anything: its result does not depend on what
    the model would answer. *)
Theorem detection_makes_the_connection_check_pass
    (chat_model_library model_name : string)
    (env : LoopEnv) (completion_order : list nat)
    (skip : bool) (invoke : Outcome string) (llm : LlmAttrs) :
  _verified_tool_calling_method llm = None ->
  match negotiate_then_verify probe fault is_model_without_tool_support
          (Some auto) chat_model_library model_name env completion_order
          skip invoke llm with
  | (Return (_, verified), llm') =>
      verified = true /\ _verified_api_keys llm' = Some true
  | (Raise _, llm') => llm' = llm
  end.
Proof.
  intros Hc. unfold negotiate_then_verify, _set_tool_calling_method.
  simpl. rewrite Hc.
  pose proof (detect_outcome env completion_order llm) as Hd.
  assert (Hadopt : forall m,
            match _verify_llm_connection skip invoke (adopt m llm) with
            | (Raise e, llm2) => (Raise e, llm2)
            | (Return verified, llm2) => (Return (Some m, verified), llm2)
            end = (Return (Some m, true), adopt m llm)).
  { intros m. reflexivity. }
  assert (Hdetect :
    match
      match
        match _detect_best_tool_calling_method probe fault env completion_order llm with
        | (Return m, llm') => (Return (Some m), llm')
        | (Raise e, llm') => (Raise e, llm')
        end
      with
      | (Raise e, llm1) => (Raise e, llm1)
      | (Return method, llm1) =>
          match _verify_llm_connection skip invoke llm1 with
          | (Raise e, llm2) => (Raise e, llm2)
          | (Return verified, llm2) => (Return (method, verified), llm2)
          end
      end
    with
    | (Return (_, verified), llm') =>
        verified = true /\ _verified_api_keys llm' = Some true
    | (Raise _, llm') => llm' = llm
    end).
  { destruct (_detect_best_tool_calling_method probe fault env completion_order llm)
      as [[m|e] llm'].
    - destruct Hd as [-> _]. rewrite Hadopt. split; reflexivity.
    - exact Hd. }
  destruct (_get_known_tool_calling_method is_model_without_tool_support
              chat_model_library model_name) as [known|]; [|exact Hdetect].
  destruct (api_keys_verified llm).
  - rewrite Hadopt. split; reflexivity.
  - destruct (probe (Some known)); [|exact Hdetect].
    rewrite Hadopt. split; reflexivity.
Qed.

End NegotiationOutcome.
(** * Properties of [_remove_think_tags] *)

Section ThinkTagsProperties.

Import ThinkTags.

Lemma substring_behind (pre t : string) (m k : nat) :
  String.substring (String.length pre + m) k (pre ++ t) = String.substring m k t.
Proof. induction pre as [|c pre IH]; simpl; [reflexivity | exact IH]. Qed.

Lemma substring_full_inside (s : string) : forall m k,
  (0 < k)%nat ->
  String.length (String.substring m k s) = k -> (m + k <= String.length s)%nat.
Proof.
  induction s as [|c s IH]; intros m k Hk H.
  - destruct m, k; simpl in H; lia.
  - destruct m as [|m].
    + destruct k as [|k]; [lia|]. simpl in H.
      destruct k as [|k]; [simpl; lia|].
      assert (0 + S k <= String.length s)%nat by (apply IH; lia).
      simpl. lia.
    + simpl in H. assert (m + k <= String.length s)%nat by (apply IH; assumption).
      simpl. lia.
Qed.

Lemma substring_before (s post : string) : forall m k,
  (m + k <= String.length s)%nat ->
  String.substring m k (s ++ post) = String.substring m k s.
Proof.
  induction s as [|c s IH]; intros [|m] [|k]; simpl; intros H; try lia;
    try reflexivity.
  - destruct post; reflexivity.
  - rewrite (IH 0%nat k); [reflexivity | lia].
  - apply IH. lia.
  - apply IH. lia.
Qed.

(** An occurrence inside a part of a string is an occurrence in the
    string. *)
Lemma no_occurrence_inside (sub pre mid post : string) :
  sub <> EmptyString ->
  String.index 0 sub (pre ++ mid ++ post) = None ->
  String.index 0 sub mid = None.
Proof.
  intros Hsub Hnone.
  destruct (String.index 0 sub mid) as [m|] eqn:Hidx; [|reflexivity].
  exfalso.
  pose proof (String.index_correct1 _ _ _ _ Hidx) as Hocc.
  apply (String.index_correct3 0 (String.length pre + m) sub _ Hnone Hsub);
    [lia|].
  rewrite substring_behind, substring_before; [exact Hocc|].
  apply substring_full_inside; [|now rewrite Hocc].
  destruct sub; [congruence | simpl; lia].
Qed.

Lemma drop_is_suffix (n : nat) (s : string) : exists pre, s = pre ++ drop n s.
Proof.
  unfold drop. revert n.
  induction s as [|c s IH]; intros [|n]; simpl.
  - exists EmptyString. reflexivity.
  - exists EmptyString. reflexivity.
  - exists EmptyString. simpl. now rewrite substring_all.
  - destruct (IH n) as [pre Hpre]. exists (String c pre). simpl. now rewrite <- Hpre.
Qed.

Lemma drop_length (n : nat) (s : string) :
  String.length (drop n s) = (String.length s - n)%nat.
Proof.
  unfold drop. revert n.
  induction s as [|c s IH]; intros [|n]; simpl; try reflexivity.
  - now rewrite substring_all.
  - apply IH.
Qed.

Lemma lstrip_is_suffix (s : string) : exists pre, s = pre ++ lstrip s.
Proof.
  induction s as [|c s [pre IH]]; simpl.
  - exists EmptyString. reflexivity.
  - destruct (is_space c).
    + exists (String c pre). simpl. now rewrite <- IH.
    + exists EmptyString. reflexivity.
Qed.

Lemma rstrip_is_prefix (s : string) : exists post, s = rstrip s ++ post.
Proof.
  induction s as [|c s [post IH]]; simpl.
  - exists EmptyString. reflexivity.
  - destruct (rstrip s) as [|d kept] eqn:Hr.
    + destruct (is_space c).
      * exists (String c s). reflexivity.
      * exists post. simpl. simpl in IH. now rewrite <- IH.
    + exists post. simpl. simpl in IH. now rewrite IH.
Qed.

Lemma append_empty_r (s : string) : s ++ EmptyString = s.
Proof. induction s as [|c s IH]; simpl; [reflexivity | now rewrite IH]. Qed.

Lemma no_occurrence_after_strip (sub s : string) :
  sub <> EmptyString ->
  String.index 0 sub s = None -> String.index 0 sub (strip s) = None.
Proof.
  intros Hsub Hnone. unfold strip.
  destruct (lstrip_is_suffix s) as [pre Hpre].
  destruct (rstrip_is_prefix (lstrip s)) as [post Hpost].
  apply (no_occurrence_inside sub pre (rstrip (lstrip s)) post Hsub).
  now rewrite <- Hpost, <- Hpre.
Qed.

Lemma no_occurrence_after_drop (sub s : string) (n : nat) :
  sub <> EmptyString ->
  String.index 0 sub s = None -> String.index 0 sub (drop n s) = None.
Proof.
  intros Hsub Hnone.
  destruct (drop_is_suffix n s) as [pre Hpre].
  apply (no_occurrence_inside sub pre (drop n s) EmptyString Hsub).
  now rewrite append_empty_r, <- Hpre.
Qed.

Lemma close_tag_not_empty : close_tag <> EmptyString.
Proof. discriminate. Qed.

(** With the length of the text as fuel, the second substitution leaves no
    closing tag. *)
Lemma sub_through_close_complete (fuel : nat) : forall text,
  (String.length text <= fuel)%nat ->
  String.index 0 close_tag (sub_through_close fuel text) = None.
Proof.
  induction fuel as [|fuel IH]; intros text Hlen; simpl.
  - destruct text; [reflexivity | simpl in Hlen; lia].
  - destruct (String.index 0 close_tag text) as [q|] eqn:Hidx; [|exact Hidx].
    apply IH. rewrite drop_length.
    pose proof (String.index_correct1 _ _ _ _ Hidx) as Hocc.
    pose proof (substring_full_inside text q (String.length close_tag)) as Hin.
    rewrite Hocc in Hin. specialize (Hin ltac:(simpl; lia) eq_refl).
    simpl in *. lia.
Qed.

(** X14.  The result of [_remove_think_tags] never holds a closing tag
    [</think>], whatever the text: balanced blocks, stray closing tags and
    nested or repeated tags are all removed up to the last closing tag. *)
Theorem remove_think_tags_leaves_no_close_tag (text : string) :
  Py.contains "</think>" (_remove_think_tags text) = false.
Proof.
  unfold Py.contains, _remove_think_tags. cbv zeta.
  change "</think>" with close_tag.
  rewrite (no_occurrence_after_strip close_tag _ close_tag_not_empty);
    [reflexivity|].
  apply sub_through_close_complete. lia.
Qed.

Lemma sub_think_blocks_without_close (fuel : nat) (text : string) :
  String.index 0 close_tag text = None -> sub_think_blocks fuel text = text.
Proof.
  intros Hnone. destruct fuel as [|fuel]; simpl; [reflexivity|].
  destruct (String.index 0 open_tag text) as [p|]; [|reflexivity].
  rewrite (no_occurrence_after_drop close_tag text _ close_tag_not_empty Hnone).
  reflexivity.
Qed.

Lemma sub_through_close_without_close (fuel : nat) (text : string) :
  String.index 0 close_tag text = None -> sub_through_close fuel text = text.
Proof.
  intros Hnone. destruct fuel as [|fuel]; simpl; [reflexivity|].
  now rewrite Hnone.
Qed.

Lemma remove_think_tags_of_clean_text (text : string) :
  String.index 0 close_tag text = None ->
  _remove_think_tags text = strip text.
Proof.
  intros Hnone. unfold _remove_think_tags. cbv zeta.
  rewrite (sub_think_blocks_without_close _ _ Hnone).
  rewrite (sub_through_close_without_close _ _ Hnone). reflexivity.
Qed.

(** X15.  A text without a closing tag [</think>] is only stripped: an opening
    tag [<think>] that is never closed stays in the text, with all that
    follows it. *)
Theorem remove_think_tags_without_close_tag (text : string) :
  Py.contains "</think>" text = false ->
  _remove_think_tags text = strip text.
Proof.
  unfold Py.contains. change "</think>" with close_tag.
  destruct (String.index 0 close_tag text) eqn:Hnone; [discriminate|].
  intros _. exact (remove_think_tags_of_clean_text text Hnone).
Qed.

Lemma rstrip_idempotent (s : string) : rstrip (rstrip s) = rstrip s.
Proof.
  induction s as [|c s IH]; simpl; [reflexivity|].
  destruct (rstrip s) as [|d kept] eqn:Hr.
  - destruct (is_space c) eqn:Hc; simpl; [reflexivity|]. now rewrite Hc.
  - simpl in IH |- *. now rewrite IH.
Qed.

Lemma lstrip_head (s : string) :
  match lstrip s with
  | EmptyString => True
  | String c _ => is_space c = false
  end.
Proof.
  induction s as [|c s IH]; simpl; [exact I|].
  destruct (is_space c) eqn:Hc; [exact IH | exact Hc].
Qed.

Lemma lstrip_rstrip_fixed (t : string) :
  match t with
  | EmptyString => True
  | String c _ => is_space c = false
  end ->
  lstrip (rstrip t) = rstrip t.
Proof.
  destruct t as [|c t]; simpl; [reflexivity|]. intros Hc.
  destruct (rstrip t) as [|d kept]; rewrite ?Hc; simpl; now rewrite Hc.
Qed.

Lemma strip_idempotent (s : string) : strip (strip s) = strip s.
Proof.
  unfold strip.
  rewrite (lstrip_rstrip_fixed (lstrip s) (lstrip_head s)).
  apply rstrip_idempotent.
Qed.

(** X16.  Removing the think tags twice is the same as removing them once. *)
Theorem remove_think_tags_idempotent (text : string) :
  _remove_think_tags (_remove_think_tags text) = _remove_think_tags text.
Proof.
  rewrite (remove_think_tags_of_clean_text (_remove_think_tags text)).
  - unfold _remove_think_tags. cbv zeta. apply strip_idempotent.
  - unfold _remove_think_tags. cbv zeta.
    apply (no_occurrence_after_strip close_tag _ close_tag_not_empty).
    apply sub_through_close_complete. lia.
Qed.

Lemma take_append (a t : string) : take (String.length a) (a ++ t) = a.
Proof.
  unfold take. induction a as [|c a IH]; simpl.
  - destruct t; reflexivity.
  - now rewrite IH.
Qed.

Lemma drop_append (a t : string) : drop (String.length a) (a ++ t) = t.
Proof.
  unfold drop. rewrite length_append.
  replace (String.length a + String.length t - String.length a)%nat
    with (String.length t) by lia.
  rewrite <- (Nat.add_0_r (String.length a)) at 1.
  rewrite substring_behind. apply substring_all.
Qed.

Lemma index_at_start (tag t : string) :
  tag <> EmptyString -> String.index 0 tag (tag ++ t) = Some 0%nat.
Proof.
  intros Htag. destruct tag as [|c tag]; [congruence|].
  change (String c tag ++ t) with (String c (tag ++ t)).
  unfold String.index. fold String.index.
  change (String c (tag ++ t)) with (String c tag ++ t).
  now rewrite prefix_append.
Qed.

Lemma get_in_append_r (a t : string) (j : nat) :
  String.get (String.length a + j) (a ++ t) = String.get j t.
Proof. induction a as [|c a IH]; simpl; [reflexivity | exact IH]. Qed.

(** A tag whose first character occurs nowhere else in it is found right
    behind a text that does not hold it: no occurrence can begin in the
    text and end in the tag. *)
Lemma index_behind_clean_text (c : ascii) (tag' a t : string) :
  (forall j, (j < String.length tag')%nat -> String.get j tag' <> Some c) ->
  String.index 0 (String c tag') a = None ->
  String.index 0 (String c tag') (a ++ String c tag' ++ t)
  = Some (String.length a).
Proof.
  intros Hfirst Hclean. set (tag := String c tag') in *.
  assert (Htag : tag <> EmptyString) by discriminate.
  assert (Hocc : String.substring (String.length a) (String.length tag)
                   (a ++ tag ++ t) = tag).
  { rewrite <- (Nat.add_0_r (String.length a)) at 1.
    rewrite substring_behind, substring_before; [apply substring_all | lia]. }
  destruct (String.index 0 tag (a ++ tag ++ t)) as [m|] eqn:Hidx.
  - f_equal.
    pose proof (String.index_correct1 _ _ _ _ Hidx) as Hm.
    destruct (Nat.lt_trichotomy m (String.length a)) as [Hlt|[Heq|Hgt]];
      [exfalso | exact Heq | exfalso].
    + destruct (Nat.le_gt_cases (m + String.length tag) (String.length a))
        as [Hinside|Hstraddle].
      * (* the occurrence lies inside [a] *)
        apply (String.index_correct3 0 m tag a Hclean Htag); [lia|].
        rewrite <- (substring_before a (tag ++ t) m (String.length tag) Hinside).
        exact Hm.
      * (* the occurrence covers the first character of the tag *)
        set (j := (String.length a - m)%nat).
        assert (Hj : (0 < j < String.length tag)%nat) by (unfold j; lia).
        assert (Hget : String.get j tag = Some c).
        { rewrite <- Hm at 1.
          rewrite (String.substring_correct1 (a ++ tag ++ t) m (String.length tag) j);
            [|lia].
          replace (j + m)%nat with (String.length a + 0)%nat by (unfold j; lia).
          rewrite get_in_append_r. reflexivity. }
        destruct j as [|j]; [lia|].
        simpl in Hget. apply (Hfirst j); [simpl in Hj; lia | exact Hget].
    + apply (String.index_correct2 _ _ _ _ Hidx (String.length a)); [lia| |];
        [exact Hgt | exact Hocc].
  - exfalso.
    apply (String.index_correct3 0 (String.length a) tag _ Hidx Htag); [lia|].
    exact Hocc.
Qed.

Lemma open_tag_first_char (j : nat) :
  (j < String.length "think>")%nat -> String.get j "think>" <> Some "<"%char.
Proof.
  intros H. do 6 (destruct j as [|j]; [discriminate|]). simpl in H. lia.
Qed.

Lemma close_tag_first_char (j : nat) :
  (j < String.length "/think>")%nat -> String.get j "/think>" <> Some "<"%char.
Proof.
  intros H. do 7 (destruct j as [|j]; [discriminate|]). simpl in H. lia.
Qed.

Lemma sub_think_blocks_one_block (fuel : nat) (before inner behind : string) :
  String.index 0 open_tag before = None ->
  String.index 0 close_tag inner = None ->
  String.index 0 close_tag behind = None ->
  sub_think_blocks (S fuel) (before ++ open_tag ++ inner ++ close_tag ++ behind)
  = before ++ behind.
Proof.
  intros Hbefore Hinner Hbehind.
  cbn [sub_think_blocks].
  assert (Hopen : String.index 0 open_tag
                    (before ++ open_tag ++ inner ++ close_tag ++ behind)
                  = Some (String.length before)).
  { exact (index_behind_clean_text "<"%char "think>" before
             (inner ++ close_tag ++ behind) open_tag_first_char Hbefore). }
  rewrite Hopen.
  assert (Hdrop : drop (String.length before + String.length open_tag)
                    (before ++ open_tag ++ inner ++ close_tag ++ behind)
                  = inner ++ close_tag ++ behind).
  { rewrite <- length_append.
    rewrite <- (append_assoc before open_tag (inner ++ close_tag ++ behind)).
    apply drop_append. }
  rewrite Hdrop.
  assert (Hclose : String.index 0 close_tag (inner ++ close_tag ++ behind)
                   = Some (String.length inner)).
  { exact (index_behind_clean_text "<"%char "/think>" inner behind
             close_tag_first_char Hinner). }
  rewrite Hclose.
  assert (Hrest : drop (String.length inner + String.length close_tag)
                    (inner ++ close_tag ++ behind) = behind).
  { rewrite <- length_append.
    rewrite <- (append_assoc inner close_tag behind).
    apply drop_append. }
  rewrite Hrest, (sub_think_blocks_without_close _ _ Hbehind), take_append.
  reflexivity.
Qed.

(** X17.  One well-formed block is cut out and the text around it is kept: when
    no [<think>] stands before the block, the block holds no [</think>],
    and the text around it holds none either, the result is the text before
    the block followed by the text behind it, stripped. *)
Theorem remove_think_tags_cuts_one_block (before inner behind : string) :
  Py.contains "<think>" before = false ->
  Py.contains "</think>" inner = false ->
  Py.contains "</think>" (before ++ behind) = false ->
  _remove_think_tags (before ++ "<think>" ++ inner ++ "</think>" ++ behind)
  = strip (before ++ behind).
Proof.
  unfold Py.contains.
  change "<think>" with open_tag. change "</think>" with close_tag.
  destruct (String.index 0 open_tag before) eqn:Hbefore; [discriminate|].
  destruct (String.index 0 close_tag inner) eqn:Hinner; [discriminate|].
  destruct (String.index 0 close_tag (before ++ behind)) eqn:Haround; [discriminate|].
  intros _ _ _.
  assert (Hbehind : String.index 0 close_tag behind = None).
  { apply (no_occurrence_inside close_tag before behind EmptyString
             close_tag_not_empty).
    now rewrite append_empty_r. }
  set (text := before ++ open_tag ++ inner ++ close_tag ++ behind).
  assert (Hblocks : sub_think_blocks (String.length text) text = before ++ behind).
  { assert (Hpos : (0 < String.length text)%nat).
    { unfold text, open_tag. rewrite length_append. simpl. lia. }
    destruct (String.length text) as [|fuel]; [lia|].
    apply sub_think_blocks_one_block; assumption. }
  unfold _remove_think_tags. cbv zeta. fold text. rewrite Hblocks.
  now rewrite (sub_through_close_without_close _ _ Haround).
Qed.

End ThinkTagsProperties.

(** Witness of [remove_think_tags_cuts_one_block]: an answer with one
    block of reasoning. *)
Lemma remove_think_tags_cuts_one_block_witness :
  ThinkTags._remove_think_tags
    ("Sure." ++ "<think>" ++ "tap the button first" ++ "</think>" ++ " {action: tap} ")
  = "Sure. {action: tap}".
Proof.
  rewrite (remove_think_tags_cuts_one_block "Sure." "tap the button first"
             " {action: tap} " eq_refl eq_refl eq_refl).
  reflexivity.
Defined.

(** Witness of [remove_think_tags_without_close_tag]: an opening tag that
    is never closed. *)
Lemma remove_think_tags_without_close_tag_witness :
  ThinkTags._remove_think_tags " <think> still thinking "
  = "<think> still thinking".
Proof.
  rewrite (remove_think_tags_without_close_tag " <think> still thinking " eq_refl).
  reflexivity.
Defined.
(** * Properties of the raw-response check and of the settings *)

Section RawResponseProperties.

Import ThinkTags.
Import RawResponse.

Lemma rstrip_keeps_last (a : string) (c : ascii) :
  is_space c = false ->
  rstrip (a ++ String c EmptyString) = a ++ String c EmptyString.
Proof.
  intros Hc. induction a as [|d a IH]; simpl.
  - now rewrite Hc.
  - rewrite IH. destruct a; reflexivity.
Qed.

Lemma strip_fenced (open body : string) :
  strip (String "`" open ++ body ++ fence) = String "`" open ++ body ++ fence.
Proof.
  unfold strip. simpl lstrip.
  change (String "`" (open ++ body ++ fence)) with (String "`" open ++ body ++ fence).
  replace (String "`" open ++ body ++ fence)
    with ((String "`" open ++ body ++ "``") ++ String "`" EmptyString).
  - apply rstrip_keeps_last. reflexivity.
  - rewrite !append_assoc. reflexivity.
Qed.

Lemma slice_between_fences (open body : string) :
  slice_between (String.length open) 3 (open ++ body ++ fence) = body.
Proof.
  unfold slice_between.
  replace (String.length (open ++ body ++ fence) - 3)%nat
    with (String.length (open ++ body)).
  - rewrite <- append_assoc, take_append. apply drop_append.
  - rewrite !length_append. simpl. lia.
Qed.

Lemma endswith_fence (open body : string) :
  Py.endswith fence (open ++ body ++ fence) = true.
Proof. rewrite <- append_assoc. apply endswith_append. Qed.

Lemma no_json_prefix (body : string) :
  String.prefix "json" body = false ->
  String.prefix "json" (body ++ fence) = false.
Proof.
  destruct body as [|c1 [|c2 [|c3 [|c4 body]]]]; cbn - [Ascii.ascii_dec];
    repeat match goal with
           | |- context [Ascii.ascii_dec ?x ?y] =>
               destruct (Ascii.ascii_dec x y); try discriminate
           end;
    try reflexivity; auto.
  destruct body; discriminate.
Qed.

(** X18.  A markdown code fence around the content is removed before the JSON is
    parsed: for every body, the content [```json body ```] is cleaned to the
    stripped body, and so is [``` body ```] unless the body itself begins
    with [json] (which is then taken for the language tag). *)
Theorem code_fence_is_removed (body : string) :
  clean_content ("```json" ++ body ++ "```") = strip body
  /\ (String.prefix "json" body = false ->
      clean_content ("```" ++ body ++ "```") = strip body).
Proof.
  split.
  - unfold clean_content. cbv zeta.
    change ("```json" ++ body ++ "```") with (String "`" "``json" ++ body ++ fence).
    rewrite strip_fenced.
    change (String "`" "``json") with json_fence.
    unfold Py.startswith. rewrite prefix_append, endswith_fence. cbn [andb].
    change 7%nat with (String.length json_fence).
    now rewrite slice_between_fences.
  - intros Hjson. unfold clean_content. cbv zeta.
    change ("```" ++ body ++ "```") with (String "`" "``" ++ body ++ fence).
    rewrite strip_fenced.
    change (String "`" "``") with fence.
    assert (Hnot : Py.startswith json_fence (fence ++ body ++ fence) = false).
    { unfold Py.startswith. simpl. apply no_json_prefix. exact Hjson. }
    rewrite Hnot. cbn [andb].
    unfold Py.startswith. rewrite prefix_append, endswith_fence. cbn [andb].
    change 3%nat with (String.length fence) at 1.
    now rewrite slice_between_fences.
Qed.

(** X19.  The connection check is skipped by the environment exactly when the
    value of [SKIP_LLM_API_KEY_VERIFICATION] begins with one of the letters
    t, T, y, Y and 1; the rest of the value does not matter.  An unset
    variable does not skip, and an empty value has no first letter to look
    at. *)
Theorem skip_verification_reads_first_letter (c : ascii) (rest : string) :
  Connection.skip_verification (Some (String c rest))
  = Some (existsb (Ascii.eqb c) ["t"; "T"; "y"; "Y"; "1"]%char)
  /\ Connection.skip_verification None = Some false
  /\ Connection.skip_verification (Some EmptyString) = None.
Proof.
  split; [|split; reflexivity].
  destruct c as [[] [] [] [] [] [] [] []]; reflexivity.
Qed.

End RawResponseProperties.
(** * Properties of the user message *)

Section UserMessageProperties.

Import Prompts.
Import UserMessage.

Variable ElementTree : Type.
Variable render : ElementTree -> list string -> string.

Lemma append_cons (a b : string) (c : ascii) :
  a ++ String c b = (a ++ String c EmptyString) ++ b.
Proof. now rewrite append_assoc. Qed.

Lemma rstrip_newlines_keeps_last (a : string) (c : ascii) :
  Ascii.eqb c "010" = false ->
  rstrip_newlines (a ++ String c EmptyString) = a ++ String c EmptyString.
Proof.
  intros Hc. induction a as [|d a IH]; simpl.
  - now rewrite Hc.
  - rewrite IH. destruct a; reflexivity.
Qed.

(** The element summary never ends in a newline. *)
Lemma elements_summary_last_char (self : AgentMessagePrompt ElementTree) :
  exists a c,
    elements_summary render self = a ++ String c EmptyString
    /\ Ascii.eqb c "010" = false.
Proof.
  unfold elements_summary. cbv zeta.
  destruct (Py.truthy _).
  - destruct (Py.or_zero (pixels_below (app_state self)) >? 0).
    + match goal with
      | |- exists a c, ?body ++ String "010" ("... " ++ ?n ++ _) = _ /\ _ =>
          exists (body ++ String "010"
                    ("... " ++ n
                     ++ " pixels below - scroll or extract content to see more ..")),
                 "."%char
      end.
      split; [|reflexivity].
      rewrite !append_assoc. simpl. rewrite !append_assoc. reflexivity.
    + match goal with
      | |- exists a c, ?body ++ _ = _ /\ _ =>
          exists (body ++ String "010" "[End of page"), "]"%char
      end.
      split; [|reflexivity].
      rewrite !append_assoc. reflexivity.
  - exists "empty pag", "e"%char. split; reflexivity.
Qed.

Lemma description_keeps_its_ends (self : AgentMessagePrompt ElementTree) :
  strip_newlines (_get_app_state_description render self)
  = _get_app_state_description render self.
Proof.
  unfold _get_app_state_description.
  destruct (elements_summary_last_char self) as [a [c [-> Hc]]].
  unfold strip_newlines.
  change (lstrip_newlines
            ("Interactive elements from top layer of the current page inside the viewport:"
             ++ String "010" (a ++ String c EmptyString)))
    with ("Interactive elements from top layer of the current page inside the viewport:"
          ++ String "010" (a ++ String c EmptyString)).
  rewrite (append_cons _ (a ++ String c EmptyString) "010").
  rewrite <- append_assoc.
  apply rstrip_newlines_keeps_last. exact Hc.
Qed.

(** X20.  The description of the app state reaches the model unchanged: whatever
    the elements and the scroll offsets, the text of the user message holds
    the result of [_get_app_state_description] between the [<app_state>]
    tags, after the history and agent-state sections and before the
    read-state section.  The screenshot is attached as an image exactly
    when vision is on and a screenshot exists; the text is the same either
    way. *)
Theorem user_message_embeds_the_description
    (self : AgentMessagePrompt ElementTree) (fields : MessageFields)
    (time_str : string) (use_vision : bool) :
  let message := get_user_message render self fields time_str use_vision in
  (exists before behind,
     content_text message
     = before ++ "<app_state>" ++ newline
       ++ _get_app_state_description render self
       ++ newline ++ "</app_state>" ++ newline ++ behind
     /\ Py.startswith "<agent_history>" before = true
     /\ Py.endswith ("</read_state>" ++ newline) behind = true)
  /\ ((exists text url, message = VisionContent text url)
      <-> use_vision = true /\ Py.truthy_opt (screenshot (app_state self)) = true)
  /\ content_text message
     = content_text (get_user_message render self fields time_str (negb use_vision)).
Proof.
  cbv zeta. split; [|split].
  - exists ("<agent_history>" ++ newline
            ++ stripped_or_empty (agent_history_description fields)
            ++ newline ++ "</agent_history>" ++ newline
            ++ "<agent_state>" ++ newline
            ++ strip_newlines (_get_agent_state_description fields time_str)
            ++ newline ++ "</agent_state>" ++ newline),
           ("<read_state>" ++ newline
            ++ stripped_or_empty (read_state_description fields)
            ++ newline ++ "</read_state>" ++ newline).
    split; [|split].
    + unfold get_user_message. cbv zeta. rewrite description_keeps_its_ends.
      destruct (use_vision && Py.truthy_opt (screenshot (app_state self)));
        unfold content_text; rewrite !append_assoc; reflexivity.
    + unfold Py.startswith. apply prefix_append.
    + replace ("<read_state>" ++ newline
               ++ stripped_or_empty (read_state_description fields)
               ++ newline ++ "</read_state>" ++ newline)
        with (("<read_state>" ++ newline
               ++ stripped_or_empty (read_state_description fields) ++ newline)
              ++ ("</read_state>" ++ newline))
        by (rewrite !append_assoc; reflexivity).
      apply endswith_append.
  - unfold get_user_message. cbv zeta.
    destruct use_vision, (Py.truthy_opt (screenshot (app_state self))); simpl;
      split; try (intros [text [url H]]; discriminate); try (intros [H1 H2]; discriminate);
      eauto.
  - unfold get_user_message. cbv zeta.
    destruct use_vision, (Py.truthy_opt (screenshot (app_state self))); reflexivity.
Qed.

End UserMessageProperties.

(** * Further properties of the error handler and of the pause *)

Section HandlerAndPause.

Context {X : External}.

Lemma prefix_refl (s : string) : String.prefix s s = true.
Proof.
  induction s as [|c s IH]; simpl; [reflexivity|].
  destruct (Ascii.ascii_dec c c); [exact IH | congruence].
Qed.

(** X21.  The error handler counts the failure exactly once, also when its
    back-off sleep is interrupted.  It waits only for a [RateLimitError],
    once and for [retry_delay] seconds, and makes no other call.  Unless
    that sleep raises, it returns a single result whose error text begins
    with the formatted error. *)
Theorem handle_step_error_outcome (error : exn) (w : World) :
  let w' := snd (_handle_step_error error w) in
  let wait := EvSleep (inject_Z (retry_delay (settings w))) in
  consecutive_failures (state w') = consecutive_failures (state w) + 1
  /\ match error with
     | RateLimitError _ => log w' = (log w ++ [wait])%list
     | _ => log w' = log w
     end
  /\ match fst (_handle_step_error error w) with
     | Return results =>
         exists text,
           results = [error_result text]
           /\ Py.startswith (format_error error) text = true
     | Raise _ => exists m, error = RateLimitError m
     end.
Proof.
  cbv zeta. split; [exact (handle_step_error_failures error w)|].
  assert (Hself : forall s, Py.startswith s s = true) by apply prefix_refl.
  assert (Hhint : forall s t, Py.startswith s (s ++ t) = true)
    by (intros; apply prefix_append).
  unfold _handle_step_error, bind, modify, get, ret, call.
  destruct error; simpl;
    repeat match goal with
           | |- context [if ?b then _ else _] => destruct b; simpl
           end;
    try (split; [reflexivity | eexists; split; [reflexivity | auto]]).
  destruct (asyncio_sleep (inject_Z (retry_delay (settings w))) (ext w))
    as [[[u|e] cs] e1]; simpl; split; try reflexivity; eauto.
Qed.

(** X22.  The pause loop of [run] ends only when the agent has been resumed or
    stopped, and until then it does nothing but sleep for the polling
    interval; a stop during the pause is reported as such. *)
Theorem pause_wait_ends_resumed_or_stopped
    (fuel : nat) (agent_run_error reported : option string) (w w' : World) :
  wait_while_paused fuel agent_run_error w = Some (Return reported, w') ->
  (paused (state w') = false /\ reported = agent_run_error
   \/ stopped (state w') = true
      /\ reported = Some "Agent stopped programmatically while paused")
  /\ exists polls,
       log w' = (log w ++ repeat (EvSleep poll_interval) polls)%list.
Proof.
  revert w. induction fuel as [|fuel IH]; intros w; simpl.
  - destruct (paused (state w)) eqn:Hp; [discriminate|].
    intros H. inversion H; subst. split; [auto|].
    exists 0%nat. simpl. now rewrite app_nil_r.
  - destruct (paused (state w)) eqn:Hp.
    + unfold call. destruct (asyncio_sleep poll_interval (ext w)) as [[[u|e] cs] e1];
        simpl; [|discriminate].
      set (w1 := with_state _ _).
      assert (Hlog1 : log w1 = (log w ++ [EvSleep poll_interval])%list) by reflexivity.
      change (stopped (fold_left deliver cs (state w))) with (stopped (state w1)).
      destruct (stopped (state w1)) eqn:Hs.
      * intros H. inversion H; subst. split; [auto|].
        exists 1%nat. exact Hlog1.
      * intros H. destruct (IH _ H) as [Hend [polls Hlog]]. split; [exact Hend|].
        exists (S polls). rewrite Hlog, Hlog1, <- app_assoc. reflexivity.
    + intros H. inversion H; subst. split; [auto|].
      exists 0%nat. simpl. now rewrite app_nil_r.
Qed.

End HandlerAndPause.

(** * Witnesses of the further properties *)

(** Witness of [stopped_agent_step_reaches_nothing]: a step of the stopped
    agent. *)
Lemma stopped_agent_step_reaches_nothing_witness :
  n_steps (state (snd (step None Scenes.stopped_world))) = 1
  /\ exists events,
       log (snd (step None Scenes.stopped_world)) = events
       /\ existsb reaches_out events = false.
Proof.
  destruct (stopped_agent_step_reaches_nothing None Scenes.stopped_world eq_refl)
    as [[events [Hlog Hquiet]] Hn].
  split; [exact Hn|].
  exists events. split; [exact Hlog | exact Hquiet].
Defined.

(** Witness of [run_appends_at_most_max_steps_entries]: the run of ten
    steps at most that never gets a parsable response. *)
Lemma run_appends_at_most_max_steps_entries_witness :
  match run 0 10 [] false false Demo.world_without_replies with
  | Some (_, w') =>
      exists added,
        history (state w') = added /\ (List.length added <= 10)%nat
  | None => False
  end.
Proof.
  destruct (run 0 10 [] false false Demo.world_without_replies)
    as [[o w']|] eqn:Hrun.
  - destruct (run_appends_at_most_max_steps_entries _ _ _ _ _ _ _ _ Hrun)
      as [added [Hhist Hlen]].
    exists added. split; [exact Hhist | exact Hlen].
  - vm_compute in Hrun. discriminate.
Defined.

(** Witness of [run_always_closes_the_app]: the same run. *)
Lemma run_always_closes_the_app_witness :
  match run 0 10 [] false false Demo.world_without_replies with
  | Some (_, w') => In EvClose (log w')
  | None => False
  end.
Proof.
  destruct (run 0 10 [] false false Demo.world_without_replies)
    as [[o w']|] eqn:Hrun.
  - destruct (run_always_closes_the_app _ _ _ _ _ _ _ _ Hrun)
      as [earlier [Hlog|Hlog]]; rewrite Hlog; apply in_or_app; right; simpl; auto.
  - vm_compute in Hrun. discriminate.
Defined.

(** Witness of [auto_request_yields_a_concrete_method]: a fresh connection
    on which only [json_mode] and [raw] work. *)
Lemma auto_request_yields_a_concrete_method_witness :
  match fst (ToolCalling._set_tool_calling_method Demo.probe Demo.no_fault
               (fun _ => false) (Some ToolCalling.auto) "ChatOllama" "llama3"
               Demo.no_loop [2; 0; 3; 1]%nat Demo.fresh_llm) with
  | Return method =>
      exists m, method = Some m /\ In m ToolCalling.methods_to_try
  | Raise _ => True
  end.
Proof.
  exact (auto_request_yields_a_concrete_method Demo.probe Demo.no_fault
           (fun _ => false) "ChatOllama" "llama3" Demo.no_loop
           [2; 0; 3; 1]%nat Demo.fresh_llm eq_refl).
Defined.

(** Witness of [listed_libraries_never_get_raw]: a model without tool
    support behind [ChatOpenAI]. *)
Lemma listed_libraries_never_get_raw_witness :
  ToolCalling._get_known_tool_calling_method (fun _ => true)
    "ChatOpenAI" "deepseek-r1" <> Some ToolCalling.raw.
Proof.
  apply (listed_libraries_never_get_raw (fun _ => true) "ChatOpenAI" "deepseek-r1").
  simpl. auto.
Defined.

(** Witness of [detection_makes_the_connection_check_pass]: detection on a
    fresh connection, followed by a connection check whose model call would
    fail. *)
Lemma detection_makes_the_connection_check_pass_witness :
  match Connection.negotiate_then_verify Demo.probe Demo.no_fault
          (fun _ => false) (Some ToolCalling.auto) "ChatOllama" "llama3"
          Demo.no_loop [2; 0; 3; 1]%nat false
          (Raise (ConnectionError "timeout")) Demo.fresh_llm with
  | (Return (_, verified), llm') =>
      verified = true /\ ToolCalling._verified_api_keys llm' = Some true
  | (Raise _, llm') => llm' = Demo.fresh_llm
  end.
Proof.
  exact (detection_makes_the_connection_check_pass Demo.probe Demo.no_fault
           (fun _ => false) "ChatOllama" "llama3" Demo.no_loop [2; 0; 3; 1]%nat
           false (Raise (ConnectionError "timeout")) Demo.fresh_llm eq_refl).
Defined.

(** Witness of [code_fence_is_removed]: a fenced JSON object, with and
    without the language tag. *)
Lemma code_fence_is_removed_witness :
  RawResponse.clean_content ("```json" ++ " {answer: paris} " ++ "```")
  = "{answer: paris}"
  /\ RawResponse.clean_content ("```" ++ " {answer: paris} " ++ "```")
     = "{answer: paris}".
Proof.
  destruct (code_fence_is_removed " {answer: paris} ") as [Hjson Hplain].
  split.
  - rewrite Hjson. reflexivity.
  - rewrite (Hplain eq_refl). reflexivity.
Defined.

(** Witness of [pause_wait_ends_resumed_or_stopped]: the user resumes the
    paused agent during the first sleep. *)
Lemma pause_wait_ends_resumed_or_stopped_witness :
  match wait_while_paused 3 None Scenes.paused_agent with
  | Some (Return reported, w') =>
      (paused (state w') = false /\ reported = None
       \/ stopped (state w') = true
          /\ reported = Some "Agent stopped programmatically while paused")
      /\ exists polls, log w' = repeat (EvSleep poll_interval) polls
  | _ => False
  end.
Proof.
  destruct (wait_while_paused 3 None Scenes.paused_agent)
    as [[[reported|e] w']|] eqn:Hwait.
  - destruct (pause_wait_ends_resumed_or_stopped _ _ _ _ _ Hwait)
      as [Hend [polls Hlog]].
    split; [exact Hend|]. exists polls. exact Hlog.
  - vm_compute in Hwait. discriminate.
  - vm_compute in Hwait. discriminate.
Defined.
